(** * MyGoalFinance API: transactions and goals routes

    A shallow embedding of [src/routes/transactions.ts] and
    [src/routes/goals.ts]: the month-token resolution
    ([firstLastDayOfMonth]), the monthly summary aggregation and the
    store requests issued by the PATCH/DELETE handlers.

    Conventions of the model
    - JavaScript numbers that are calendar fields and time values are
      exact integers ([Z]).  Row amounts are integers in [Transactions],
      where sums are exact, and binary64 values in [Doubles], where every
      addition rounds as IEEE 754 has it.
    - A thrown exception is [None].
    - The process time zone is a parameter: in [JSDate] and [Transactions]
      one offset [tza] of local time from UTC in milliseconds, in [Zoned] a
      zone whose offset depends on the date (ECMAScript's LocalTZA).
    - The two external collaborators (profile lookup and the Supabase
      query builder) are oracles; every request sent to them is logged. *)

From Stdlib Require Import ZArith List String Ascii Bool Lia DecimalString.
From Stdlib Require Import Sorting.Sorted Sorting.Permutation.
From Stdlib Require Import Floats.SpecFloat.
Import ListNotations.
Local Open Scope string_scope.
Local Open Scope Z_scope.

(** ** ECMAScript Date (the parts the routes use) *)

Module JSDate.

Definition msPerDay : Z := 86400000.
Definition msPerHour : Z := 3600000.
Definition msPerMinute : Z := 60000.
Definition msPerSecond : Z := 1000.

(** [Day(t)] and [TimeWithinDay(t)]; [Z.div] and [Z.modulo] round towards
    minus infinity, as ECMAScript's floor and modulo do. *)
Definition Day (t : Z) : Z := t / msPerDay.
Definition TimeWithinDay (t : Z) : Z := t mod msPerDay.

Definition isLeapYear (y : Z) : bool :=
  if negb (y mod 4 =? 0) then false
  else if negb (y mod 100 =? 0) then true
  else if negb (y mod 400 =? 0) then false
  else true.

Definition DaysInYear (y : Z) : Z := if isLeapYear y then 366 else 365.

Definition DayFromYear (y : Z) : Z :=
  365 * (y - 1970) + (y - 1969) / 4 - (y - 1901) / 100 + (y - 1601) / 400.

(** [climb fuel d y]: walk up from a year that starts on or before day [d]
    to the last such year. *)
Fixpoint climb (fuel : nat) (d y : Z) : Z :=
  match fuel with
  | O => y
  | S fuel' => if DayFromYear (y + 1) <=? d then climb fuel' d (y + 1) else y
  end.

(** The largest [y] with [DayFromYear y <= d].  The start of the walk is a
    lower bound of it (a year has at least 365 and at most 366 days), the
    fuel an upper bound of the distance. *)
Definition YearFromDay (d : Z) : Z :=
  let y0 := 1970 + (if 0 <=? d then d / 366 else d / 365) in
  climb (Z.to_nat (Z.abs d / 100000 + 3)) d y0.

Definition YearFromTime (t : Z) : Z := YearFromDay (Day t).
Definition InLeapYear (t : Z) : bool := isLeapYear (YearFromTime t).
Definition DayWithinYear (t : Z) : Z := Day t - DayFromYear (YearFromTime t).

(** Number of days of the year before month [m] (0 = January). *)
Definition monthStart (leap : bool) (m : Z) : Z :=
  let l := if leap then 1 else 0 in
  if m <=? 0 then 0
  else if m =? 1 then 31
  else if m =? 2 then 59 + l
  else if m =? 3 then 90 + l
  else if m =? 4 then 120 + l
  else if m =? 5 then 151 + l
  else if m =? 6 then 181 + l
  else if m =? 7 then 212 + l
  else if m =? 8 then 243 + l
  else if m =? 9 then 273 + l
  else if m =? 10 then 304 + l
  else if m =? 11 then 334 + l
  else 365 + l.

Definition MonthFromTime (t : Z) : Z :=
  let leap := InLeapYear t in
  let d := DayWithinYear t in
  if d <? monthStart leap 1 then 0
  else if d <? monthStart leap 2 then 1
  else if d <? monthStart leap 3 then 2
  else if d <? monthStart leap 4 then 3
  else if d <? monthStart leap 5 then 4
  else if d <? monthStart leap 6 then 5
  else if d <? monthStart leap 7 then 6
  else if d <? monthStart leap 8 then 7
  else if d <? monthStart leap 9 then 8
  else if d <? monthStart leap 10 then 9
  else if d <? monthStart leap 11 then 10
  else 11.

Definition DateFromTime (t : Z) : Z :=
  DayWithinYear t - monthStart (InLeapYear t) (MonthFromTime t) + 1.

Definition HourFromTime (t : Z) : Z := (t / msPerHour) mod 24.
Definition MinFromTime (t : Z) : Z := (t / msPerMinute) mod 60.
Definition SecFromTime (t : Z) : Z := (t / msPerSecond) mod 60.
Definition msFromTime (t : Z) : Z := t mod msPerSecond.

(** [MakeDay(year, month, date)]: months outside 0..11 carry into the
    year, dates outside the month carry into the neighbouring months. *)
Definition MakeDay (year month date : Z) : Z :=
  let ym := year + month / 12 in
  let mn := month mod 12 in
  DayFromYear ym + monthStart (isLeapYear ym) mn + date - 1.

Definition MakeTime (hour min sec ms : Z) : Z :=
  hour * msPerHour + min * msPerMinute + sec * msPerSecond + ms.

Definition MakeDate (day time : Z) : Z := day * msPerDay + time.

(** [TimeClip]: a time value beyond 8.64e15 ms is NaN. *)
Definition TimeClip (t : Z) : option Z :=
  if Z.abs t <=? 8640000000000000 then Some t else None.

Section Zone.
(** Offset of local time from UTC, in milliseconds. *)
Variable tza : Z.

Definition LocalTime (t : Z) : Z := t + tza.
Definition UTC (t : Z) : Z := t - tza.

(** [new Date(year, month, date)]: the fields are local time, a year in
    0..99 means 1900 + year, a NaN field gives an invalid date. *)
Definition newDate (year month date : option Z) : option Z :=
  match year, month, date with
  | Some y, Some m, Some dt =>
      let yr := if (0 <=? y) && (y <=? 99) then 1900 + y else y in
      TimeClip (UTC (MakeDate (MakeDay yr m dt) (MakeTime 0 0 0 0)))
  | _, _, _ => None
  end.

Definition getFullYear (t : Z) : Z := YearFromTime (LocalTime t).
Definition getMonth (t : Z) : Z := MonthFromTime (LocalTime t).
Definition getDate (t : Z) : Z := DateFromTime (LocalTime t).
End Zone.

End JSDate.

(** ** JavaScript strings (the parts the routes use) *)

Module JSString.

(** The regular-expression class [\d]. *)
Definition isDigit (c : ascii) : bool :=
  let n := N_of_ascii c in ((48 <=? n) && (n <=? 57))%N.

Definition digitVal (c : ascii) : Z := Z.of_N (N_of_ascii c) - 48.

Definition digitChar (d : Z) : ascii := ascii_of_N (Z.to_N (d + 48)).

(** [String(n)] for an integer [n]. *)
Definition ofNumber (n : Z) : string :=
  DecimalString.NilZero.string_of_int (Z.to_int n).

Fixpoint repeatChar (n : nat) (c : ascii) : string :=
  match n with
  | O => EmptyString
  | S n' => String c (repeatChar n' c)
  end.

(** [s.padStart(len, c)] for a one-character filler. *)
Definition padStart (len : nat) (c : ascii) (s : string) : string :=
  repeatChar (len - String.length s) c ++ s.

(** [s.slice(0, n)]. *)
Definition slice0 (n : nat) (s : string) : string := substring 0 n s.

(** [s.split(sep)] for a one-character separator: the pieces between the
    separators, empty pieces included. *)
Fixpoint splitAux (sep : ascii) (s : string) (cur : string) : list string :=
  match s with
  | EmptyString => [cur]
  | String c rest =>
      if Ascii.eqb c sep then cur :: splitAux sep rest EmptyString
      else splitAux sep rest (cur ++ String c EmptyString)
  end.

Definition split (sep : ascii) (s : string) : list string :=
  splitAux sep s EmptyString.

Fixpoint digitsValue (s : string) (acc : Z) : option Z :=
  match s with
  | EmptyString => Some acc
  | String c rest =>
      if isDigit c then digitsValue rest (10 * acc + digitVal c) else None
  end.

(** [Number(s)] on a string of decimal digits (the empty string is 0).
    Any other string is NaN ([None]) here: signs, blanks, fractions and
    exponents never reach the callers of this model, whose pieces come from
    splitting a month token at its dashes. *)
Definition toNumber (s : string) : option Z := digitsValue s 0.

(** [/^\d{4}-\d{2}$/.test(s)] *)
Definition YM_test (s : string) : bool :=
  match s with
  | String y1 (String y2 (String y3 (String y4 (String dash
      (String m1 (String m2 EmptyString)))))) =>
      isDigit y1 && isDigit y2 && isDigit y3 && isDigit y4
      && Ascii.eqb dash "-" && isDigit m1 && isDigit m2
  | _ => false
  end.

(** [/^\d{4}-\d{2}-\d{2}$/.test(s)] *)
Definition YMD_test (s : string) : bool :=
  match s with
  | String y1 (String y2 (String y3 (String y4 (String dash1
      (String m1 (String m2 (String dash2
      (String d1 (String d2 EmptyString))))))))) =>
      isDigit y1 && isDigit y2 && isDigit y3 && isDigit y4
      && Ascii.eqb dash1 "-" && isDigit m1 && isDigit m2
      && Ascii.eqb dash2 "-" && isDigit d1 && isDigit d2
  | _ => false
  end.

(** Fixed-width decimal fields of [toISOString]. *)
Definition dec2 (n : Z) : string :=
  String (digitChar (n / 10 mod 10)) (String (digitChar (n mod 10)) EmptyString).

Definition dec3 (n : Z) : string :=
  String (digitChar (n / 100 mod 10)) (dec2 n).

Definition dec4 (n : Z) : string :=
  String (digitChar (n / 1000 mod 10)) (dec3 n).

Definition dec6 (n : Z) : string :=
  String (digitChar (n / 100000 mod 10))
    (String (digitChar (n / 10000 mod 10)) (dec4 n)).

End JSString.

Import JSDate JSString.

(** [d.toISOString()] of a valid time value: UTC fields; a year outside
    0..9999 is written with a sign and six digits. *)
Definition toISOString (t : Z) : string :=
  let y := YearFromTime t in
  (if (0 <=? y) && (y <=? 9999) then dec4 y
   else (if y <? 0 then "-" else "+") ++ dec6 (Z.abs y))
  ++ "-" ++ dec2 (MonthFromTime t + 1) ++ "-" ++ dec2 (DateFromTime t)
  ++ "T" ++ dec2 (HourFromTime t) ++ ":" ++ dec2 (MinFromTime t)
  ++ ":" ++ dec2 (SecFromTime t) ++ "." ++ dec3 (msFromTime t) ++ "Z".

(** ** The Supabase client, as the routes see it *)

(** A value passed to a filter; [VNum None] is NaN. *)
Inductive Value :=
| VNum (n : option Z)
| VStr (s : string).

Inductive Filter :=
| Feq (column : string) (v : Value)
| Fgte (column : string) (v : Value)
| Flte (column : string) (v : Value).

Inductive Client := Anon | Admin.

Record StoreError := { message : string }.

Record Row := { type : string; amount : Z; category_id : option Z }.

(** Body of [PATCH /api/transactions/:id] after [updateSchema]. *)
Record TxPatch := {
  p_amount : option Z;
  p_type : option string;
  p_category_id : option Z;
  p_description : option string;
  p_occurred_at : option string
}.

(** Body of [PATCH /api/goals/:id] after its [updateSchema]. *)
Record GoalPatch := {
  g_title : option string;
  g_description : option string;
  g_target_amount : option Z;
  g_deadline : option string;
  g_current_amount : option Z
}.

Inductive Verb :=
| Select (columns : string)
| UpdateTx (patch : TxPatch)
| UpdateGoal (patch : GoalPatch)
| Delete.

(** One built query: [from(table).verb.filters.order.select.single]. *)
Record Request := {
  client : Client;
  table : string;
  verb : Verb;
  filters : list Filter;
  order : option (string * bool);
  returning : option string;
  single : bool
}.

Definition from_ (c : Client) (t : string) (v : Verb) : Request :=
  {| client := c; table := t; verb := v; filters := []; order := None;
     returning := None; single := false |}.

Definition addFilter (f : Filter) (q : Request) : Request :=
  {| client := client q; table := table q; verb := verb q;
     filters := filters q ++ [f]; order := order q;
     returning := returning q; single := single q |}.

Definition eq_ (col : string) (v : Value) := addFilter (Feq col v).
Definition gte (col : string) (v : Value) := addFilter (Fgte col v).
Definition lte (col : string) (v : Value) := addFilter (Flte col v).

Definition order_ (col : string) (ascending : bool) (q : Request) : Request :=
  {| client := client q; table := table q; verb := verb q;
     filters := filters q; order := Some (col, ascending);
     returning := returning q; single := single q |}.

Definition select_ (cols : string) (q : Request) : Request :=
  {| client := client q; table := table q; verb := verb q;
     filters := filters q; order := order q;
     returning := Some cols; single := single q |}.

Definition single_ (q : Request) : Request :=
  {| client := client q; table := table q; verb := verb q;
     filters := filters q; order := order q;
     returning := returning q; single := true |}.

(** ** Express requests and responses *)

(** A value of [req.query]: a string, or an array or nested object. *)
Inductive QVal := QString (s : string) | QOther.

Record Query := {
  q_month : option QVal;
  q_from : option QVal;
  q_to : option QVal;
  q_type : option QVal
}.

(** [parsed.data] of [listQuerySchema]. *)
Record ListQuery := {
  l_month : option string;
  l_from : option string;
  l_to : option string;
  l_type : option string
}.

Record CatTotal := { ct_category_id : Z; total : Z }.

Record Summary := {
  s_month : string;
  s_from : string;
  s_to : string;
  inc : Z;
  exp : Z;
  net : Z;
  byCategory : list CatTotal
}.

Record Period := { from : string; to : string }.

Inductive Body (Json : Type) :=
| BDetail (detail : string)          (* { detail } *)
| BIssues (fields : list string)     (* parsed.error.flatten() *)
| BData (data : option Json)         (* the store's data, as it came *)
| BOk                                (* { ok: true } *)
| BSummary (s : Summary).

Arguments BDetail {Json} detail.
Arguments BIssues {Json} fields.
Arguments BData {Json} data.
Arguments BOk {Json}.
Arguments BSummary {Json} s.

Record Response (Json : Type) := { status : Z; body : Body Json }.
Arguments status {Json} r.
Arguments body {Json} r.

(** [res.status(code).json(b)] and [res.json(b)]. *)
Definition status_json {Json} (code : Z) (b : Body Json) : Response Json :=
  {| status := code; body := b |}.
Definition json {Json} (b : Body Json) : Response Json := status_json 200 b.

Record Req (Json : Type) := {
  user_id : string;      (* req.user.id, set by requireAuth *)
  params_id : string;    (* req.params.id *)
  query : Query;         (* req.query *)
  req_body : Json        (* req.body *)
}.
Arguments user_id {Json} r.
Arguments params_id {Json} r.
Arguments query {Json} r.
Arguments req_body {Json} r.

(** What awaiting a query resolves to. *)
Record Reply (Json : Type) := { data : option Json; error : option StoreError }.
Arguments data {Json} r.
Arguments error {Json} r.

(** ** Handlers as programs over the store

    A handler runs against a log of the queries sent so far; awaiting a
    query appends it to the log and asks the store, which may answer the
    same query differently the next time. *)

Section Await.
Variable Json : Type.
Variable store : nat -> Request -> Reply Json.

Definition M (A : Type) : Type := list Request -> A * list Request.

Definition ret {A} (a : A) : M A := fun log => (a, log).

Definition bind {A B} (c : M A) (k : A -> M B) : M B :=
  fun log => let (a, log') := c log in k a log'.

Definition await (q : Request) : M (Reply Json) :=
  fun log => (store (List.length log) q, (log ++ [q])%list).

(** Run a handler on a fresh log. *)
Definition run {A} (c : M A) : A * list Request := c [].
End Await.

Arguments await {Json} store q.

Notation "x <- c ;; k" := (bind c (fun x => k))
  (at level 61, c at next level, right associativity).

(** ** [Map<number, number>] and [Array.prototype.sort] *)

(** A JavaScript Map keeps its keys in insertion order; [set] on a key
    that is present replaces the value where the key stands. *)
Definition JSMap := list (Z * Z).

Fixpoint map_get (k : Z) (m : JSMap) : option Z :=
  match m with
  | [] => None
  | (k', v) :: m' => if k' =? k then Some v else map_get k m'
  end.

Fixpoint map_set (k v : Z) (m : JSMap) : JSMap :=
  match m with
  | [] => [(k, v)]
  | (k', v') :: m' =>
      if k' =? k then (k, v) :: m' else (k', v') :: map_set k v m'
  end.

Definition entries (m : JSMap) : list (Z * Z) := m.

(** [arr.sort(cmp)]: the sort is stable, so with a consistent comparator
    its result is the one a stable insertion sort computes. *)
Section Sort.
Context {A : Type}.
Variable cmp : A -> A -> Z.

Fixpoint insert (x : A) (l : list A) : list A :=
  match l with
  | [] => [x]
  | y :: l' => if cmp x y <=? 0 then x :: y :: l' else y :: insert x l'
  end.

Definition sort (l : list A) : list A := fold_right insert [] l.
End Sort.

(** [!x] on a value that is a number or null. *)
Definition falsyNum (x : option Z) : bool :=
  match x with
  | None => true
  | Some n => n =? 0
  end.

(** Truthiness of a value that is a string or undefined. *)
Definition truthyStr (x : option string) : bool :=
  match x with
  | None => false
  | Some s => negb (String.eqb s "")
  end.

(** ** src/supabase.ts *)

Section Profile.
Variable Json : Type.
Variable store : nat -> Request -> Reply Json.
(** [data.id as number] of a [user_profile] row. *)
Variable idOf : Json -> Z.

Definition getProfileIdByAuthId (authUserId : string) : M (option Z) :=
  r <- await store
         (single_ (eq_ "id_supabase" (VStr authUserId)
                    (from_ Admin "user_profile" (Select "id")))) ;;
  match error r, data r with
  | None, Some d => ret (Some (idOf d))
  | _, _ => ret None
  end.
End Profile.

Arguments getProfileIdByAuthId {Json} store idOf authUserId.

(** ** src/routes/transactions.ts *)

Module Transactions.

Section Routes.
Variable tza : Z.
Variable Json : Type.
Variable store : nat -> Request -> Reply Json.
Variable idOf : Json -> Z.
(** The fetched rows as the summary loop reads them:
    [r.type], [Number(r.amount)] and [r.category_id] of each. *)
Variable rowsOf : Json -> list Row.
(** The JSON value [[]]. *)
Variable emptyArray : Json.
(** [Number(req.params.id)]; [None] is NaN. *)
Variable Number_ : string -> option Z.
(** [updateSchema.safeParse(req.body)]: the issues, or the parsed data. *)
Variable updateSchema_safeParse : Json -> list string + TxPatch.

(** *** Helpers *)

(** [todayYmd()], with [now] the time value of [new Date()]. *)
Definition todayYmd (now : Z) : string :=
  let y := getFullYear tza now in
  let m := padStart 2 "0" (ofNumber (getMonth tza now + 1)) in
  let dd := padStart 2 "0" (ofNumber (getDate tza now)) in
  ofNumber y ++ "-" ++ m ++ "-" ++ dd.

(** [firstLastDayOfMonth(ym)]; [None] is the RangeError that
    [toISOString] throws on an invalid date. *)
Definition firstLastDayOfMonth (ym : string) : option Period :=
  let parts := map toNumber (split "-" ym) in
  let yy := nth 0 parts None in
  let mm := nth 1 parts None in
  let first := newDate tza yy (option_map (fun m => m - 1) mm) (Some 1) in
  let last := newDate tza yy mm (Some 0) in
  let fmt (d : option Z) := option_map (fun t => slice0 10 (toISOString t)) d in
  match fmt first, fmt last with
  | Some f, Some l => Some {| from := f; to := l |}
  | _, _ => None
  end.

(** *** Schemas *)

(** [z.string().regex(re).optional()]: [None] is an issue. *)
Definition zStringRegex (re : string -> bool) (v : option QVal)
  : option (option string) :=
  match v with
  | None => Some None
  | Some (QString s) => if re s then Some (Some s) else None
  | Some QOther => None
  end.

(** [z.enum(['income', 'expense']).optional()] *)
Definition zKind (v : option QVal) : option (option string) :=
  zStringRegex (fun s => String.eqb s "income" || String.eqb s "expense") v.

Definition issue {A} (field : string) (r : option A) : list string :=
  match r with
  | Some _ => []
  | None => [field]
  end.

(** [listQuerySchema.safeParse(req.query)]: the fields with an issue, or
    the parsed data. *)
Definition listQuerySchema_safeParse (q : Query) : list string + ListQuery :=
  match zStringRegex YM_test (q_month q), zStringRegex YMD_test (q_from q),
        zStringRegex YMD_test (q_to q), zKind (q_type q) with
  | Some m, Some f, Some t, Some k =>
      inr {| l_month := m; l_from := f; l_to := t; l_type := k |}
  | m, f, t, k =>
      inl (issue "month" m ++ issue "from" f ++ issue "to" t
           ++ issue "type" k)%list
  end.

Definition txColumns : string :=
  "id, amount, type, category_id, description, occurred_at".

(** *** GET /api/transactions
    [None] is a handler that throws before it responds. *)
Definition list_ (req : Req Json) : M (option (Response Json)) :=
  userId <- getProfileIdByAuthId store idOf (user_id req) ;;
  if falsyNum userId then
    ret (Some (status_json 404 (BDetail "Perfil no encontrado")))
  else
    match listQuerySchema_safeParse (query req) with
    | inl issues => ret (Some (status_json 400 (BIssues issues)))
    | inr parsed =>
        let range :=
          if truthyStr (l_month parsed) then
            match firstLastDayOfMonth (match l_month parsed with
                                       | Some m => m | None => "" end) with
            | Some r => Some (Some (from r), Some (to r))
            | None => None
            end
          else Some (l_from parsed, l_to parsed) in
        match range with
        | None => ret None
        | Some (from, to) =>
            let q := order_ "occurred_at" false
                       (eq_ "user_id" (VNum userId)
                          (from_ Anon "transaction" (Select txColumns))) in
            let q := if truthyStr from
                     then gte "occurred_at"
                            (VStr (match from with Some s => s | None => "" end)) q
                     else q in
            let q := if truthyStr to
                     then lte "occurred_at"
                            (VStr (match to with Some s => s | None => "" end)) q
                     else q in
            let q := if truthyStr (l_type parsed)
                     then eq_ "type"
                            (VStr (match l_type parsed with
                                   | Some s => s | None => "" end)) q
                     else q in
            r <- await store q ;;
            match error r with
            | Some e => ret (Some (status_json 400 (BDetail (message e))))
            | None =>
                ret (Some (json (BData (Some (match data r with
                                              | Some d => d
                                              | None => emptyArray
                                              end)))))
            end
        end
    end.

(** *** PATCH /api/transactions/:id *)
Definition patch (req : Req Json) : M (Response Json) :=
  let id := Number_ (params_id req) in
  match id with
  | None => ret (status_json 400 (BDetail "id inválido"))
  | Some _ =>
      match updateSchema_safeParse (req_body req) with
      | inl issues => ret (status_json 400 (BIssues issues))
      | inr patch =>
          userId <- getProfileIdByAuthId store idOf (user_id req) ;;
          if falsyNum userId then
            ret (status_json 404 (BDetail "Perfil no encontrado"))
          else if truthyStr (p_occurred_at patch)
                  && negb (YMD_test (match p_occurred_at patch with
                                     | Some s => s | None => "" end))
          then ret (status_json 400 (BDetail "Fecha inválida (YYYY-MM-DD)"))
          else
            r <- await store
                   (single_ (select_ txColumns
                      (eq_ "user_id" (VNum userId)
                         (eq_ "id" (VNum id)
                            (from_ Anon "transaction" (UpdateTx patch)))))) ;;
            match error r with
            | Some e => ret (status_json 400 (BDetail (message e)))
            | None => ret (json (BData (data r)))
            end
      end
  end.

(** *** DELETE /api/transactions/:id *)
Definition delete (req : Req Json) : M (Response Json) :=
  let id := Number_ (params_id req) in
  match id with
  | None => ret (status_json 400 (BDetail "id inválido"))
  | Some _ =>
      userId <- getProfileIdByAuthId store idOf (user_id req) ;;
      if falsyNum userId then
        ret (status_json 404 (BDetail "Perfil no encontrado"))
      else
        r <- await store
               (eq_ "user_id" (VNum userId)
                  (eq_ "id" (VNum id) (from_ Anon "transaction" Delete))) ;;
        match error r with
        | Some e => ret (status_json 400 (BDetail (message e)))
        | None => ret (json BOk)
        end
  end.

(** *** GET /api/transactions/summary/month *)

(** The month of [new Date()], as the handler writes it. *)
Definition currentMonth (now : Z) : string :=
  ofNumber (getFullYear tza now) ++ "-"
  ++ padStart 2 "0" (ofNumber (getMonth tza now + 1)).

(** The month the summary is computed for. *)
Definition resolveMonth (now : Z) (m : option QVal) : string :=
  match m with
  | Some (QString s) => if YM_test s then s else currentMonth now
  | _ => currentMonth now
  end.

(** State of the aggregation loop: [inc], [exp] and [byCat]. *)
Record Totals := { t_inc : Z; t_exp : Z; t_byCat : JSMap }.

(** One turn of [for (const r of rows ?? [])]. *)
Definition step (a : Totals) (r : Row) : Totals :=
  let amt := amount r in
  let inc' := if String.eqb (type r) "income" then t_inc a + amt else t_inc a in
  let exp' := if String.eqb (type r) "income" then t_exp a else t_exp a + amt in
  let byCat' :=
    match category_id r with
    | Some c =>
        map_set c (match map_get c (t_byCat a) with
                   | Some t => t
                   | None => 0
                   end + amt) (t_byCat a)
    | None => t_byCat a
    end in
  {| t_inc := inc'; t_exp := exp'; t_byCat := byCat' |}.

Definition loop (rows : list Row) : Totals :=
  fold_left step rows {| t_inc := 0; t_exp := 0; t_byCat := [] |}.

(** Lines 200-217: the totals, [net] and the sorted [byCategory]. *)
Definition summarize (month : string) (p : Period) (rows : list Row) : Summary :=
  let a := loop rows in
  let net := t_inc a - t_exp a in
  let byCategory :=
    sort (fun x y => total y - total x)
      (map (fun e => {| ct_category_id := fst e; total := snd e |})
         (entries (t_byCat a))) in
  {| s_month := month; s_from := from p; s_to := to p;
     inc := t_inc a; exp := t_exp a; net := net; byCategory := byCategory |}.

Definition summaryMonth (now : Z) (req : Req Json)
  : M (option (Response Json)) :=
  userId <- getProfileIdByAuthId store idOf (user_id req) ;;
  if falsyNum userId then
    ret (Some (status_json 404 (BDetail "Perfil no encontrado")))
  else
    let month := resolveMonth now (q_month (query req)) in
    match firstLastDayOfMonth month with
    | None => ret None
    | Some p =>
        r <- await store
               (lte "occurred_at" (VStr (to p))
                  (gte "occurred_at" (VStr (from p))
                     (eq_ "user_id" (VNum userId)
                        (from_ Anon "transaction"
                           (Select "type, amount, category_id"))))) ;;
        match error r with
        | Some e => ret (Some (status_json 400 (BDetail (message e))))
        | None =>
            let rows := match data r with
                        | Some d => rowsOf d
                        | None => []
                        end in
            ret (Some (json (BSummary (summarize month p rows))))
        end
    end.
End Routes.

End Transactions.

(** ** src/routes/goals.ts *)

Module Goals.

Section Routes.
Variable Json : Type.
Variable store : nat -> Request -> Reply Json.
(** [Number(req.params.id)]; [None] is NaN. *)
Variable Number_ : string -> option Z.
(** [updateSchema.safeParse(req.body)]: the issues, or the parsed data. *)
Variable updateSchema_safeParse : Json -> list string + GoalPatch.

(** *** PATCH /api/goals/:id *)
Definition patch (req : Req Json) : M (Response Json) :=
  let id := Number_ (params_id req) in
  match updateSchema_safeParse (req_body req) with
  | inl issues => ret (status_json 400 (BIssues issues))
  | inr parsed =>
      r <- await store
             (single_ (select_ "*"   (* .select() returns every column *)
                (eq_ "id" (VNum id)
                   (from_ Anon "financial_goal" (UpdateGoal parsed))))) ;;
      match error r with
      | Some e => ret (status_json 400 (BDetail (message e)))
      | None => ret (json (BData (data r)))
      end
  end.

(** *** DELETE /api/goals/:id *)
Definition delete (req : Req Json) : M (Response Json) :=
  let id := Number_ (params_id req) in
  r <- await store (eq_ "id" (VNum id) (from_ Anon "financial_goal" Delete)) ;;
  match error r with
  | Some e => ret (status_json 400 (BDetail (message e)))
  | None => ret (json BOk)
  end.
End Routes.

End Goals.

(** ** Reference definitions the theorems compare the code with *)

Definition isIncome (r : Row) : bool := String.eqb (type r) "income".
Definition isExpense (r : Row) : bool := String.eqb (type r) "expense".

(** Sum of the amounts of a list of rows. *)
Definition sumAmounts (rows : list Row) : Z :=
  fold_right (fun r s => amount r + s) 0 rows.

(** The row carries category [c]. *)
Definition inCategory (c : Z) (r : Row) : bool :=
  match category_id r with
  | Some c' => c' =? c
  | None => false
  end.

(** Descending order of totals. *)
Definition descTotal (x y : CatTotal) : Prop := total y <= total x.

(** Number of days of month [m] (1..12), in a leap year or not. *)
Definition monthLength (leap : bool) (m : Z) : Z :=
  if m =? 2 then (if leap then 29 else 28)
  else if (m =? 4) || (m =? 6) || (m =? 9) || (m =? 11) then 30
  else 31.

(** Number of days of month [m] (1..12) of year [y]. *)
Definition daysInMonth (y m : Z) : Z := monthLength (isLeapYear y) m.

(** Year and month a [YYYY-MM] token denotes. *)
Definition tokenYear (s : string) : Z :=
  match toNumber (slice0 4 s) with
  | Some y => y
  | None => 0
  end.

Definition tokenMonth (s : string) : Z :=
  match toNumber (substring 5 2 s) with
  | Some m => m
  | None => 0
  end.

(** The query [getProfileIdByAuthId] awaits. *)
Definition profileQuery (authUserId : string) : Request :=
  single_ (eq_ "id_supabase" (VStr authUserId)
             (from_ Admin "user_profile" (Select "id"))).

(** The query the monthly summary awaits for owner [uid] and period [p]. *)
Definition summaryQuery (uid : Z) (p : Period) : Request :=
  lte "occurred_at" (VStr (to p))
    (gte "occurred_at" (VStr (from p))
       (eq_ "user_id" (VNum (Some uid))
          (from_ Anon "transaction" (Select "type, amount, category_id")))).

(** The first query of a handler finds the profile [uid] of the caller. *)
Definition profileFound {Json} (store : nat -> Request -> Reply Json)
  (idOf : Json -> Z) (authUserId : string) (uid : Z) : Prop :=
  exists d, store 0%nat (profileQuery authUserId)
            = {| data := Some d; error := None |}
            /\ idOf d = uid /\ uid <> 0.

(** A [month] query value that is not a string matching [YYYY-MM]. *)
Definition badMonth (v : QVal) : Prop :=
  match v with
  | QString s => YM_test s = false
  | QOther => True
  end.

(** The request with its [month] query parameter removed. *)
Definition withoutMonth {Json} (req : Req Json) : Req Json :=
  {| user_id := user_id req; params_id := params_id req;
     query := {| q_month := None; q_from := q_from (query req);
                 q_to := q_to (query req); q_type := q_type (query req) |};
     req_body := req_body req |}.

(** ** A concrete store, for the examples *)

Module Example.

Inductive J := JProfile (id : Z) | JRows (rows : list Row).

Definition idOf (j : J) : Z :=
  match j with
  | JProfile id => id
  | JRows _ => 0
  end.

Definition rowsOf (j : J) : list Row :=
  match j with
  | JProfile _ => []
  | JRows rows => rows
  end.

Definition row (t : string) (a : Z) (c : option Z) : Row :=
  {| type := t; amount := a; category_id := c |}.

(** The profile table knows every user as profile 7; the transaction table
    holds [rows] whatever the filters. *)
Definition storeOf (rows : list Row) (n : nat) (q : Request) : Reply J :=
  if String.eqb (table q) "user_profile"
  then {| data := Some (JProfile 7); error := None |}
  else {| data := Some (JRows rows); error := None |}.

(** A store whose transaction table fails once, at the second query it is
    sent, and answers with [rows] from then on. *)
Definition flakyStore (rows : list Row) (n : nat) (q : Request) : Reply J :=
  if String.eqb (table q) "user_profile"
  then {| data := Some (JProfile 7); error := None |}
  else if Nat.eqb n 1
  then {| data := None; error := Some {| message := "connection refused" |} |}
  else {| data := Some (JRows rows); error := None |}.

Definition noQuery : Query :=
  {| q_month := None; q_from := None; q_to := None; q_type := None |}.

Definition monthQuery (m : string) : Query :=
  {| q_month := Some (QString m); q_from := None; q_to := None; q_type := None |}.

Definition request (uid id : string) (q : Query) : Req J :=
  {| user_id := uid; params_id := id; query := q; req_body := JRows [] |}.

(** 2026-11-02T00:00:00Z *)
Definition now : Z := 1793577600000.

Definition threeCategories : list Row :=
  [row "expense" 30 (Some 1); row "expense" 50 (Some 2); row "expense" 10 (Some 3)].

End Example.

(** ** Finite ranges, for the checks that run over every value *)

(** The [n] integers from [lo] on. *)
Definition range (lo n : Z) : list Z :=
  map (fun k => lo + Z.of_nat k) (seq 0 (Z.to_nat n)).

(** The request with its [from] and [to] query parameters removed. *)
Definition withoutRange {Json} (req : Req Json) : Req Json :=
  {| user_id := user_id req; params_id := params_id req;
     query := {| q_month := q_month (query req); q_from := None;
                 q_to := None; q_type := q_type (query req) |};
     req_body := req_body req |}.

(** The profile lookup of a handler comes back empty: an error, no row, or
    the id 0. *)
Definition profileMissing {Json} (store : nat -> Request -> Reply Json)
  (idOf : Json -> Z) (authUserId : string) : Prop :=
  falsyNum (fst (getProfileIdByAuthId store idOf authUserId [])) = true.

(** No query of the log goes to the given table. *)
Definition untouched (t : string) (log : list Request) : Prop :=
  forall q, In q log -> table q <> t.

(** Sum of the totals of a category list. *)
Definition sumTotals (l : list CatTotal) : Z :=
  fold_right (fun c s => total c + s) 0 l.

(** The row carries some category. *)
Definition hasCategory (r : Row) : bool :=
  match category_id r with
  | Some _ => true
  | None => false
  end.

(** ** src/middleware/auth.ts

    The file comes in two variants.  Both read the [Authorization] header
    (a string of one-byte characters, or undefined), ask Supabase who the
    token belongs to and either answer 401 or hand the request on.  Each
    returns what it did and the tokens it sent to [getUser], in order. *)

(** [{ data: { user }, error }] of [supabase.auth.getUser(token)]. *)
Record GetUserReply (User : Type) := {
  au_user : option User;
  au_error : option StoreError
}.
Arguments au_user {User} _.
Arguments au_error {User} _.

Inductive Outcome (User : Type) :=
| Reject (status : Z) (detail : string)          (* res.status(..).json({ detail }) *)
| Next (user : User) (token : option string).    (* req.user, req.token; next() *)
Arguments Reject {User} status detail.
Arguments Next {User} user token.

(** [s] without its prefix [p], when it has it. *)
Fixpoint dropPrefix (p s : string) : option string :=
  match p, s with
  | EmptyString, _ => Some s
  | String a p', String b s' => if Ascii.eqb a b then dropPrefix p' s' else None
  | String _ _, EmptyString => None
  end.

(** What [.] does not match: line feed and carriage return (the other two
    line terminators are beyond one byte). *)
Definition isLineTerminator (c : ascii) : bool :=
  Ascii.eqb c (ascii_of_nat 10) || Ascii.eqb c (ascii_of_nat 13).

Fixpoint noLineTerminator (s : string) : bool :=
  match s with
  | EmptyString => true
  | String c s' => negb (isLineTerminator c) && noLineTerminator s'
  end.

(** [x || ''] on a string or undefined. *)
Definition orEmpty (x : option string) : string :=
  match x with
  | Some s => s
  | None => ""
  end.

Module AuthRegex.
Section Middleware.
Variable User : Type.
Variable getUser : string -> GetUserReply User.

(** [auth.match(/^Bearer (.+)$/)]: the group [m[1]], or [None] for no
    match.  [.+] has to reach the end of the string, so it is the whole
    rest, not empty and free of line terminators. *)
Definition matchBearer (auth : string) : option string :=
  match dropPrefix "Bearer " auth with
  | Some rest =>
      if negb (String.eqb rest "") && noLineTerminator rest
      then Some rest else None
  | None => None
  end.

Definition requireAuth (authorization : option string)
  : Outcome User * list string :=
  let auth := orEmpty authorization in
  match matchBearer auth with
  | None => (Reject 401 "Falta token", [])
  | Some token =>
      let r := getUser token in
      match au_error r, au_user r with
      | None, Some user => (Next user (Some token), [token])
      | _, _ => (Reject 401 "Token inválido", [token])
      end
  end.
End Middleware.
End AuthRegex.

Module AuthPrefix.
Section Middleware.
Variable User : Type.
Variable getUser : string -> GetUserReply User.

(** [getUserFromToken(accessToken)] of src/supabase.ts. *)
Definition getUserFromToken (accessToken : string) : option User :=
  let r := getUser accessToken in
  match au_error r, au_user r with
  | None, Some user => Some user
  | _, _ => None
  end.

(** [auth.startsWith('Bearer ') ? auth.slice(7) : null] *)
Definition bearerToken (auth : string) : option string :=
  if prefix "Bearer " auth
  then Some (substring 7 (String.length auth - 7) auth)
  else None.

Definition requireAuth (authorization : option string)
  : Outcome User * list string :=
  let auth := orEmpty authorization in
  let token := bearerToken auth in
  if negb (truthyStr token) then (Reject 401 "Falta token", [])
  else
    let t := orEmpty token in
    match getUserFromToken t with
    | None => (Reject 401 "Token inválido", [t])
    | Some user => (Next user None, [t])
    end.
End Middleware.
End AuthPrefix.

(** What the two variants can be compared on: the answer and the user. *)
Definition forgetToken {User} (o : Outcome User) : Outcome User :=
  match o with
  | Reject s d => Reject s d
  | Next u _ => Next u None
  end.

(** ** Inserts

    The POST handlers send an insert where the other handlers send a
    query.  Their log holds both kinds of call, in the order they were
    awaited. *)

(** [parsed.data] of the transactions [createSchema]. *)
Record TxCreate := {
  c_amount : Z;
  c_type : string;
  c_category_id : option Z;
  c_description : option string;
  c_occurred_at : option string
}.

(** The row handed to [insert] by POST /api/transactions. *)
Record TxPayload := {
  n_user_id : option Z;
  n_amount : Z;
  n_type : string;
  n_category_id : option Z;
  n_description : option string;
  n_occurred_at : string
}.

(** [parse.data] of the goals [createSchema]. *)
Record GoalCreate := {
  gc_title : string;
  gc_description : option string;
  gc_target_amount : Z;
  gc_deadline : option string
}.

(** The row handed to [insert] by POST /api/goals. *)
Record GoalPayload := {
  gp_user_id : option Z;
  gp_current_amount : Z;
  gp_title : string;
  gp_description : option string;
  gp_target_amount : Z;
  gp_deadline : option string
}.

Inductive Payload := PTx (p : TxPayload) | PGoal (p : GoalPayload).

(** [from(table).insert(payload).select(columns).single()] *)
Record Insert := {
  i_client : Client;
  i_table : string;
  i_payload : Payload;
  i_returning : option string;
  i_single : bool
}.

Inductive Call := CQuery (q : Request) | CInsert (i : Insert).

Section AwaitCall.
Variable Json : Type.
Variable storeC : nat -> Call -> Reply Json.

Definition MC (A : Type) : Type := list Call -> A * list Call.

Definition retC {A} (a : A) : MC A := fun log => (a, log).

Definition bindC {A B} (c : MC A) (k : A -> MC B) : MC B :=
  fun log => let (a, log') := c log in k a log'.

Definition awaitC (c : Call) : MC (Reply Json) :=
  fun log => (storeC (List.length log) c, (log ++ [c])%list).

(** The part of the store that answers queries, from call [k] on. *)
Definition queryStore (k : nat) : nat -> Request -> Reply Json :=
  fun n q => storeC (k + n)%nat (CQuery q).

(** A program that only sends queries, run as part of one that also sends
    inserts: its queries join the log where they fall. *)
Definition liftQ {A} (m : (nat -> Request -> Reply Json) -> M A) : MC A :=
  fun log =>
    let (a, qs) := m (queryStore (List.length log)) [] in
    (a, (log ++ map CQuery qs)%list).

Definition runC {A} (c : MC A) : A * list Call := c [].
End AwaitCall.

Arguments awaitC {Json} storeC c.
Arguments queryStore {Json} storeC k.
Arguments liftQ {Json} storeC {A} m.

Notation "x <-- c ;; k" := (bindC c (fun x => k))
  (at level 61, c at next level, right associativity).

(** ** src/routes/transactions.ts: POST /api/transactions *)

Module TransactionsPost.
Section Routes.
Variable tza : Z.
Variable Json : Type.
Variable storeC : nat -> Call -> Reply Json.
Variable idOf : Json -> Z.
(** [createSchema.safeParse(req.body)]: the issues, or the parsed data. *)
Variable createSchema_safeParse : Json -> list string + TxCreate.

(** The date the new row gets: the one of the body when it is there and
    matches the pattern, today's otherwise. *)
Definition occurred_at (now : Z) (parsed : TxCreate) : string :=
  if truthyStr (c_occurred_at parsed)
     && YMD_test (orEmpty (c_occurred_at parsed))
  then orEmpty (c_occurred_at parsed)
  else Transactions.todayYmd tza now.

Definition create (now : Z) (req : Req Json) : MC (Response Json) :=
  match createSchema_safeParse (req_body req) with
  | inl issues => retC (status_json 400 (BIssues issues))
  | inr parsed =>
      userId <-- liftQ storeC
                   (fun st => getProfileIdByAuthId st idOf (user_id req)) ;;
      if falsyNum userId then
        retC (status_json 404 (BDetail "Perfil no encontrado"))
      else
        let payload :=
          {| n_user_id := userId;
             n_amount := c_amount parsed;
             n_type := c_type parsed;
             n_category_id := c_category_id parsed;
             n_description := c_description parsed;
             n_occurred_at := occurred_at now parsed |} in
        r <-- awaitC storeC
                (CInsert {| i_client := Anon; i_table := "transaction";
                            i_payload := PTx payload;
                            i_returning := Some Transactions.txColumns;
                            i_single := true |}) ;;
        match error r with
        | Some e => retC (status_json 400 (BDetail (message e)))
        | None => retC (status_json 201 (BData (data r)))
        end
  end.
End Routes.
End TransactionsPost.

(** ** src/routes/goals.ts: GET and POST /api/goals *)

Module GoalsEntry.
Section Routes.
Variable Json : Type.
Variable store : nat -> Request -> Reply Json.
Variable storeC : nat -> Call -> Reply Json.
Variable idOf : Json -> Z.
(** [createSchema.safeParse(req.body)]: the issues, or the parsed data. *)
Variable createSchema_safeParse : Json -> list string + GoalCreate.

(** *** GET /api/goals *)
Definition list_ (req : Req Json) : M (Response Json) :=
  userId <- getProfileIdByAuthId store idOf (user_id req) ;;
  if falsyNum userId then
    ret (status_json 404 (BDetail "Perfil no encontrado"))
  else
    r <- await store
           (order_ "created_at" false
              (eq_ "user_id" (VNum userId)
                 (from_ Anon "financial_goal" (Select "*")))) ;;
    match error r with
    | Some e => ret (status_json 400 (BDetail (message e)))
    | None => ret (json (BData (data r)))
    end.

(** *** POST /api/goals *)
Definition create (req : Req Json) : MC (Response Json) :=
  userId <-- liftQ storeC
               (fun st => getProfileIdByAuthId st idOf (user_id req)) ;;
  if falsyNum userId then
    retC (status_json 404 (BDetail "Perfil no encontrado"))
  else
    match createSchema_safeParse (req_body req) with
    | inl issues => retC (status_json 400 (BIssues issues))
    | inr parsed =>
        let payload :=
          {| gp_user_id := userId;
             gp_current_amount := 0;
             gp_title := gc_title parsed;
             gp_description := gc_description parsed;
             gp_target_amount := gc_target_amount parsed;
             gp_deadline := gc_deadline parsed |} in
        r <-- awaitC storeC
                (CInsert {| i_client := Anon; i_table := "financial_goal";
                            i_payload := PGoal payload;
                            i_returning := Some "*";
                            i_single := true |}) ;;
        match error r with
        | Some e => retC (status_json 400 (BDetail (message e)))
        | None => retC (status_json 201 (BData (data r)))
        end
    end.
End Routes.
End GoalsEntry.

(** Total of category [c] in a summary, 0 when it is not listed. *)
Definition totalOf (c : Z) (l : list CatTotal) : Z :=
  match find (fun x => ct_category_id x =? c) l with
  | Some x => total x
  | None => 0
  end.

(** ** Local time in a zone whose offset changes

    ECMAScript's [LocalTZA(t, isUTC)]: the offset of local time from UTC, in
    milliseconds, in force at a UTC time [t], and the one taken for a local
    time [t].  A zone with daylight saving time has different offsets at
    different dates; [JSDate]'s one offset is the zone [fixedZone]. *)
Record Zone := { atUTC : Z -> Z; atLocal : Z -> Z }.

Definition fixedZone (tza : Z) : Zone :=
  {| atUTC := fun _ => tza; atLocal := fun _ => tza |}.

(** The zone is on UTC or west of it at every date. *)
Definition neverEast (zone : Zone) : Prop :=
  forall t, - msPerDay < atLocal zone t <= 0.

Module Zoned.
Section Zone.
Variable zone : Zone.

Definition LocalTime (t : Z) : Z := t + atUTC zone t.
Definition UTC (t : Z) : Z := t - atLocal zone t.

(** [new Date(year, month, date)], the offset being the one of the date
    built. *)
Definition newDate (year month date : option Z) : option Z :=
  match year, month, date with
  | Some y, Some m, Some dt =>
      let yr := if (0 <=? y) && (y <=? 99) then 1900 + y else y in
      TimeClip (UTC (MakeDate (MakeDay yr m dt) (MakeTime 0 0 0 0)))
  | _, _, _ => None
  end.

Definition getFullYear (t : Z) : Z := YearFromTime (LocalTime t).
Definition getMonth (t : Z) : Z := MonthFromTime (LocalTime t).
Definition getDate (t : Z) : Z := DateFromTime (LocalTime t).

(** [todayYmd()], with [now] the time value of [new Date()]. *)
Definition todayYmd (now : Z) : string :=
  let y := getFullYear now in
  let m := padStart 2 "0" (ofNumber (getMonth now + 1)) in
  let dd := padStart 2 "0" (ofNumber (getDate now)) in
  ofNumber y ++ "-" ++ m ++ "-" ++ dd.

(** [firstLastDayOfMonth(ym)]. *)
Definition firstLastDayOfMonth (ym : string) : option Period :=
  let parts := map toNumber (split "-" ym) in
  let yy := nth 0 parts None in
  let mm := nth 1 parts None in
  let first := newDate yy (option_map (fun m => m - 1) mm) (Some 1) in
  let last := newDate yy mm (Some 0) in
  let fmt (d : option Z) := option_map (fun t => slice0 10 (toISOString t)) d in
  match fmt first, fmt last with
  | Some f, Some l => Some {| from := f; to := l |}
  | _, _ => None
  end.

(** The default month of [GET /summary/month]. *)
Definition currentMonth (now : Z) : string :=
  ofNumber (getFullYear now) ++ "-"
  ++ padStart 2 "0" (ofNumber (getMonth now + 1)).

Definition resolveMonth (now : Z) (m : option QVal) : string :=
  match m with
  | Some (QString s) => if YM_test s then s else currentMonth now
  | _ => currentMonth now
  end.
End Zone.
End Zoned.

(** The year [new Date(y, ...)] takes for the year field [y]. *)
Definition dateYear (y : Z) : Z :=
  if (0 <=? y) && (y <=? 99) then 1900 + y else y.

(** Year and month (1..12) that the digits of a token count to. *)
Definition countedYear (s : string) : Z :=
  dateYear (tokenYear s) + (tokenMonth s - 1) / 12.

Definition countedMonth (s : string) : Z := (tokenMonth s - 1) mod 12 + 1.

(** Two zones with daylight saving time, with the rules of 2024:
    America/New_York (UTC-5, UTC-4 from 10 March 07:00 UTC to 3 November
    06:00 UTC) and Europe/London (UTC, UTC+1 from 31 March 01:00 UTC to
    27 October 01:00 UTC). *)
Definition newYork : Zone :=
  {| atUTC := fun t =>
       if (1710054000000 <=? t) && (t <? 1730613600000)
       then - 14400000 else - 18000000;
     atLocal := fun t =>
       if (1710054000000 - 18000000 <=? t) && (t <? 1730613600000 - 14400000)
       then - 14400000 else - 18000000 |}.

Definition london : Zone :=
  {| atUTC := fun t =>
       if (1711846800000 <=? t) && (t <? 1729990800000) then 3600000 else 0;
     atLocal := fun t =>
       if (1711846800000 <=? t) && (t <? 1729990800000 + 3600000)
       then 3600000 else 0 |}.

(** ** Amounts as the numbers they are: IEEE 754 doubles

    A JavaScript number is a binary64 value, and [+] and [-] round to the
    nearest one, ties to even: [SFadd] and [SFsub] of the standard library's
    specification of floating-point arithmetic, at 53 bits of precision. *)
Definition double := spec_float.

(** The double of an integer (exact below 2^53 in absolute value). *)
Definition ofZ (n : Z) : double := binary_normalize 53 1024 n 0 false.

(** The double of a positive integer [n] below 2^53 with sign [s], written
    out: the mantissa has 53 digits. *)
Definition canon (s : bool) (n : positive) : double :=
  S754_finite s (Z.to_pos (Zpos n * 2 ^ (53 - Zpos (digits2_pos n))))
    (Zpos (digits2_pos n) - 53).

Module Doubles.

Definition add : double -> double -> double := SFadd 53 1024.
Definition sub : double -> double -> double := SFsub 53 1024.
Definition div : double -> double -> double := SFdiv 53 1024.
Definition opp : double -> double := SFopp.
Definition leb : double -> double -> bool := SFleb.
Definition zero : double := S754_zero false.

(** What [sort] reads from the result of its comparator: the sign, with
    NaN taken as [+0]. *)
Definition signOf (v : double) : Z :=
  match v with
  | S754_nan => 0
  | S754_zero _ => 0
  | S754_infinity s => if s then - 1 else 1
  | S754_finite s _ _ => if s then - 1 else 1
  end.

(** A row of the summary query, [Number(r.amount)] being a double. *)
Record Row := { type : string; amount : double; category_id : option Z }.

(** [Map<number, number>], keys in insertion order. *)
Definition JSMap := list (Z * double).

Fixpoint map_get (k : Z) (m : JSMap) : option double :=
  match m with
  | [] => None
  | (k', v) :: m' => if k' =? k then Some v else map_get k m'
  end.

Fixpoint map_set (k : Z) (v : double) (m : JSMap) : JSMap :=
  match m with
  | [] => [(k, v)]
  | (k', v') :: m' =>
      if k' =? k then (k, v) :: m' else (k', v') :: map_set k v m'
  end.

Definition entries (m : JSMap) : list (Z * double) := m.

Record Totals := { t_inc : double; t_exp : double; t_byCat : JSMap }.

(** One turn of [for (const r of rows ?? [])]. *)
Definition step (a : Totals) (r : Row) : Totals :=
  let amt := amount r in
  let inc' :=
    if String.eqb (type r) "income" then add (t_inc a) amt else t_inc a in
  let exp' :=
    if String.eqb (type r) "income" then t_exp a else add (t_exp a) amt in
  let byCat' :=
    match category_id r with
    | Some c =>
        map_set c (add (match map_get c (t_byCat a) with
                        | Some t => t
                        | None => zero
                        end) amt) (t_byCat a)
    | None => t_byCat a
    end in
  {| t_inc := inc'; t_exp := exp'; t_byCat := byCat' |}.

Definition loop (rows : list Row) : Totals :=
  fold_left step rows {| t_inc := zero; t_exp := zero; t_byCat := [] |}.

Record CatTotal := { ct_category_id : Z; total : double }.

Record Summary := {
  s_month : string;
  s_from : string;
  s_to : string;
  inc : double;
  exp : double;
  net : double;
  byCategory : list CatTotal
}.

(** Lines 200-217: the totals, [net] and the sorted [byCategory]. *)
Definition summarize (month : string) (p : Period) (rows : list Row)
  : Summary :=
  let a := loop rows in
  let net := sub (t_inc a) (t_exp a) in
  let byCategory :=
    sort (fun x y => signOf (sub (total y) (total x)))
      (map (fun e => {| ct_category_id := fst e; total := snd e |})
         (entries (t_byCat a))) in
  {| s_month := month; s_from := from p; s_to := to p;
     inc := t_inc a; exp := t_exp a; net := net; byCategory := byCategory |}.

(** The total [byCategory] gives for category [c], [0] for none. *)
Definition totalOf (c : Z) (l : list CatTotal) : double :=
  match find (fun x => ct_category_id x =? c) l with
  | Some x => total x
  | None => zero
  end.

(** The totals of [byCategory] added up from the first, as
    [reduce((s, c) => s + c.total, 0)] does. *)
Definition sumTotals (l : list CatTotal) : double :=
  fold_left (fun s c => add s (total c)) l zero.

(** A decimal literal [n/d], such as [0.1]: the double nearest to it. *)
Definition ratio (n d : Z) : double := div (ofZ n) (ofZ d).

End Doubles.

(** Rows and summaries with integer amounts, as doubles. *)
Definition rowOfZ (r : Row) : Doubles.Row :=
  {| Doubles.type := type r; Doubles.amount := ofZ (amount r);
     Doubles.category_id := category_id r |}.

Definition catTotalOfZ (c : CatTotal) : Doubles.CatTotal :=
  {| Doubles.ct_category_id := ct_category_id c;
     Doubles.total := ofZ (total c) |}.

Definition summaryOfZ (s : Summary) : Doubles.Summary :=
  {| Doubles.s_month := s_month s; Doubles.s_from := s_from s;
     Doubles.s_to := s_to s; Doubles.inc := ofZ (inc s);
     Doubles.exp := ofZ (exp s); Doubles.net := ofZ (net s);
     Doubles.byCategory := map catTotalOfZ (byCategory s) |}.

Definition mapOfZ (m : JSMap) : Doubles.JSMap :=
  map (fun e => (fst e, ofZ (snd e))) m.

Definition totalsOfZ (a : Transactions.Totals) : Doubles.Totals :=
  {| Doubles.t_inc := ofZ (Transactions.t_inc a);
     Doubles.t_exp := ofZ (Transactions.t_exp a);
     Doubles.t_byCat := mapOfZ (Transactions.t_byCat a) |}.

(** Sum of the absolute values of the amounts. *)
Definition sumAbs (rows : list Row) : Z :=
  fold_right (fun r s => Z.abs (amount r) + s) 0 rows.

(** The amounts are integers that the aggregation keeps exact: all the
    sums and differences it forms stay below 2^53 in absolute value. *)
Definition safeAmounts (rows : list Row) : Prop := 2 * sumAbs rows < 2 ^ 53.

Definition sumAbsTotals (l : list CatTotal) : Z :=
  fold_right (fun c s => Z.abs (total c) + s) 0 l.

Definition sumAbsValues (m : JSMap) : Z :=
  fold_right (fun e s => Z.abs (snd e) + s) 0 m.

(** The accumulators are bounded by [B]. *)
Definition within (B : Z) (a : Transactions.Totals) : Prop :=
  Z.abs (Transactions.t_inc a) + Z.abs (Transactions.t_exp a) <= B
  /\ Forall (fun e => Z.abs (snd e) <= B) (Transactions.t_byCat a).

(** Rows with amounts 0.1, 0.2 and 0.3. *)
Definition tenths (t1 t2 t3 : string) : list Doubles.Row :=
  [ {| Doubles.type := t1; Doubles.amount := Doubles.ratio 1 10;
       Doubles.category_id := Some 1 |};
    {| Doubles.type := t2; Doubles.amount := Doubles.ratio 2 10;
       Doubles.category_id := Some 1 |};
    {| Doubles.type := t3; Doubles.amount := Doubles.ratio 3 10;
       Doubles.category_id := Some 1 |} ].

(** * Theorems *)

Import Transactions.

(** ** The Map model *)

Lemma map_get_set_eq (k v : Z) (m : JSMap) :
  map_get k (map_set k v m) = Some v.
Proof.
  induction m as [|[k' v'] m IH]; simpl.
  - now rewrite Z.eqb_refl.
  - destruct (k' =? k) eqn:E; simpl.
    + now rewrite Z.eqb_refl.
    + now rewrite E.
Qed.

Lemma map_get_set_ne (k k' v : Z) (m : JSMap) :
  k <> k' -> map_get k' (map_set k v m) = map_get k' m.
Proof.
  intros Hne. induction m as [|[k0 v0] m IH]; simpl.
  - destruct (k =? k') eqn:E; [apply Z.eqb_eq in E; contradiction | reflexivity].
  - destruct (k0 =? k) eqn:E; simpl.
    + apply Z.eqb_eq in E. subst k0.
      destruct (k =? k') eqn:E'; [apply Z.eqb_eq in E'; contradiction | reflexivity].
    + now rewrite IH.
Qed.

Lemma map_set_keys_in (k v k0 : Z) (m : JSMap) :
  In k0 (map fst (map_set k v m)) -> k0 = k \/ In k0 (map fst m).
Proof.
  induction m as [|[k' v'] m IH]; simpl.
  - intros [H|[]]; auto.
  - destruct (k' =? k) eqn:E; simpl.
    + apply Z.eqb_eq in E. subst k'. intros [H|H]; auto.
    + intros [H|H]; auto. destruct (IH H); auto.
Qed.

Lemma map_set_NoDup (k v : Z) (m : JSMap) :
  NoDup (map fst m) -> NoDup (map fst (map_set k v m)).
Proof.
  induction m as [|[k' v'] m IH]; simpl; intros Hnd.
  - constructor; [intros [] | constructor].
  - inversion Hnd as [|? ? Hnotin Hnd']; subst.
    destruct (k' =? k) eqn:E; simpl.
    + apply Z.eqb_eq in E. subst k'. now constructor.
    + constructor; auto.
      intros Hin. apply map_set_keys_in in Hin as [->|Hin]; auto.
      now rewrite Z.eqb_refl in E.
Qed.

Lemma map_get_In (k v : Z) (m : JSMap) :
  map_get k m = Some v -> In (k, v) m.
Proof.
  induction m as [|[k' v'] m IH]; simpl; [discriminate|].
  destruct (k' =? k) eqn:E.
  - apply Z.eqb_eq in E. intros [= ->]. subst. now left.
  - intros H. right. auto.
Qed.

Lemma In_map_get (k v : Z) (m : JSMap) :
  NoDup (map fst m) -> In (k, v) m -> map_get k m = Some v.
Proof.
  induction m as [|[k' v'] m IH]; simpl; [intros _ []|].
  intros Hnd [Heq|Hin].
  - injection Heq as -> ->. now rewrite Z.eqb_refl.
  - inversion Hnd as [|? ? Hnotin Hnd']; subst.
    destruct (k' =? k) eqn:E.
    + apply Z.eqb_eq in E. subst k'. exfalso. apply Hnotin.
      change k with (fst (k, v)). now apply in_map.
    + auto.
Qed.

(** ** The sort model *)

Section SortFacts.
Context {A : Type}.
Variable cmp : A -> A -> Z.
Variable R : A -> A -> Prop.
Hypothesis R_trans : forall x y z, R x y -> R y z -> R x z.
Hypothesis cmp_le : forall x y, cmp x y <= 0 -> R x y.
Hypothesis cmp_gt : forall x y, 0 < cmp x y -> R y x.

Lemma insert_perm (x : A) (l : list A) : Permutation (insert cmp x l) (x :: l).
Proof.
  induction l as [|y l IH]; simpl.
  - apply Permutation_refl.
  - destruct (cmp x y <=? 0).
    + apply Permutation_refl.
    + eapply perm_trans; [apply perm_skip, IH | apply perm_swap].
Qed.

Lemma sort_perm (l : list A) : Permutation (sort cmp l) l.
Proof.
  induction l as [|x l IH]; simpl.
  - constructor.
  - eapply perm_trans; [apply insert_perm | now apply perm_skip].
Qed.

Lemma insert_sorted (x : A) (l : list A) :
  StronglySorted R l -> StronglySorted R (insert cmp x l).
Proof.
  induction l as [|y l IH]; simpl; intros Hs.
  - constructor; constructor.
  - inversion Hs as [|? ? Hs' Hall]; subst.
    destruct (cmp x y <=? 0) eqn:E.
    + apply Z.leb_le in E. constructor; auto.
      constructor; [now apply cmp_le|].
      eapply Forall_impl; [|exact Hall].
      intros z Hz. eapply R_trans; [apply cmp_le, E | exact Hz].
    + apply Z.leb_gt in E. constructor; auto.
      eapply Permutation_Forall.
      * apply Permutation_sym, insert_perm.
      * constructor; [now apply cmp_gt | exact Hall].
Qed.

Lemma sort_sorted (l : list A) : StronglySorted R (sort cmp l).
Proof.
  induction l as [|x l IH]; simpl.
  - constructor.
  - now apply insert_sorted.
Qed.
End SortFacts.

(** ** The aggregation loop *)

Lemma step_inc (a : Totals) (r : Row) :
  t_inc (step a r) = t_inc a + (if isIncome r then amount r else 0).
Proof. unfold step, isIncome; simpl. destruct (type r =? "income")%string; lia. Qed.

Lemma step_exp (a : Totals) (r : Row) :
  t_exp (step a r) = t_exp a + (if isIncome r then 0 else amount r).
Proof. unfold step, isIncome; simpl. destruct (type r =? "income")%string; lia. Qed.

Lemma fold_step_inc (rows : list Row) (a : Totals) :
  t_inc (fold_left step rows a) = t_inc a + sumAmounts (filter isIncome rows).
Proof.
  revert a. induction rows as [|r rows IH]; intros a; simpl.
  - lia.
  - rewrite IH, step_inc. destruct (isIncome r); simpl; lia.
Qed.

Lemma fold_step_exp (rows : list Row) (a : Totals) :
  t_exp (fold_left step rows a)
  = t_exp a + sumAmounts (filter (fun r => negb (isIncome r)) rows).
Proof.
  revert a. induction rows as [|r rows IH]; intros a; simpl.
  - lia.
  - rewrite IH, step_exp. destruct (isIncome r); simpl; lia.
Qed.


Lemma fold_step_NoDup (rows : list Row) (a : Totals) :
  NoDup (map fst (t_byCat a)) ->
  NoDup (map fst (t_byCat (fold_left step rows a))).
Proof.
  revert a. induction rows as [|r rows IH]; intros a H; simpl; auto.
  apply IH. unfold step; simpl.
  destruct (category_id r); auto using map_set_NoDup.
Qed.

Lemma step_get (a : Totals) (r : Row) (c : Z) :
  map_get c (t_byCat (step a r))
  = if inCategory c r
    then Some (match map_get c (t_byCat a) with
               | Some t => t
               | None => 0
               end + amount r)
    else map_get c (t_byCat a).
Proof.
  unfold step, inCategory; simpl.
  destruct (category_id r) as [c'|]; [|reflexivity].
  destruct (c' =? c) eqn:E.
  - apply Z.eqb_eq in E. subst c'. apply map_get_set_eq.
  - apply Z.eqb_neq in E. now apply map_get_set_ne.
Qed.

Lemma fold_step_get (rows : list Row) (a : Totals) (c : Z) :
  map_get c (t_byCat (fold_left step rows a))
  = match map_get c (t_byCat a) with
    | Some t => Some (t + sumAmounts (filter (inCategory c) rows))
    | None => if existsb (inCategory c) rows
              then Some (sumAmounts (filter (inCategory c) rows))
              else None
    end.
Proof.
  revert a. induction rows as [|r rows IH]; intros a; simpl.
  - destruct (map_get c (t_byCat a)); [f_equal; lia | reflexivity].
  - rewrite IH, step_get.
    destruct (inCategory c r), (map_get c (t_byCat a)); simpl;
      try reflexivity; f_equal; lia.
Qed.

Lemma loop_get (rows : list Row) (c : Z) :
  map_get c (t_byCat (loop rows))
  = if existsb (inCategory c) rows
    then Some (sumAmounts (filter (inCategory c) rows))
    else None.
Proof. unfold loop. now rewrite fold_step_get. Qed.

Lemma loop_NoDup (rows : list Row) : NoDup (map fst (t_byCat (loop rows))).
Proof. apply fold_step_NoDup. constructor. Qed.

Lemma byCategory_perm (month : string) (p : Period) (rows : list Row) :
  Permutation (byCategory (summarize month p rows))
    (map (fun e => {| ct_category_id := fst e; total := snd e |})
       (t_byCat (loop rows))).
Proof. apply sort_perm. Qed.

Lemma byCategory_In (month : string) (p : Period) (rows : list Row) (c t : Z) :
  In {| ct_category_id := c; total := t |} (byCategory (summarize month p rows))
  <-> map_get c (t_byCat (loop rows)) = Some t.
Proof.
  split.
  - intros H. apply (Permutation_in _ (byCategory_perm month p rows)) in H.
    apply in_map_iff in H as [[k v] [Heq Hin]]. simpl in Heq.
    injection Heq as -> ->. apply In_map_get; auto using loop_NoDup.
  - intros H. apply map_get_In in H.
    apply (Permutation_in _ (Permutation_sym (byCategory_perm month p rows))).
    apply in_map_iff. now exists (c, t).
Qed.

Lemma descTotal_trans (x y z : CatTotal) :
  descTotal x y -> descTotal y z -> descTotal x z.
Proof. unfold descTotal. lia. Qed.

Lemma sumAmounts_split (f : Row -> bool) (rows : list Row) :
  sumAmounts rows
  = sumAmounts (filter f rows) + sumAmounts (filter (fun r => negb (f r)) rows).
Proof.
  induction rows as [|r rows IH]; simpl; [reflexivity|].
  destruct (f r); simpl; lia.
Qed.

Lemma byCategory_keys_NoDup (month : string) (p : Period) (rows : list Row) :
  NoDup (map ct_category_id (byCategory (summarize month p rows))).
Proof.
  eapply Permutation_NoDup.
  - apply Permutation_sym, Permutation_map, byCategory_perm.
  - rewrite map_map. simpl. apply loop_NoDup.
Qed.

(** ** The monthly summary *)

Lemma summarize_inc (month : string) (p : Period) (rows : list Row) :
  inc (summarize month p rows) = sumAmounts (filter isIncome rows).
Proof. unfold summarize, loop; cbn [inc]. now rewrite fold_step_inc. Qed.

Lemma summarize_exp (month : string) (p : Period) (rows : list Row) :
  exp (summarize month p rows)
  = sumAmounts (filter (fun r => negb (isIncome r)) rows).
Proof. unfold summarize, loop; cbn [exp]. now rewrite fold_step_exp. Qed.

(** C3, as the code has it: [inc] is the sum of the amounts of exactly the
    rows whose type is income, and [exp] is the sum of the amounts of all
    the other rows, whatever their type. *)
Theorem summarize_inc_exp (month : string) (p : Period) (rows : list Row) :
  inc (summarize month p rows) = sumAmounts (filter isIncome rows)
  /\ exp (summarize month p rows)
     = sumAmounts (filter (fun r => negb (isIncome r)) rows).
Proof.
  unfold summarize, loop; simpl.
  now rewrite fold_step_inc, fold_step_exp.
Qed.

(** C3, as the claim states it, fails: a row that is neither income nor
    expense is added to [exp], which then differs from the sum over the
    expense rows. *)
Lemma summarize_other_kind_is_expense :
  let rows := [Example.row "transfer" 5 None] in
  let s := summarize "2024-02" {| from := "2024-02-01"; to := "2024-02-29" |} rows in
  exp s = 5 /\ sumAmounts (filter isExpense rows) = 0
  /\ exp s <> sumAmounts (filter isExpense rows).
Proof. repeat split. discriminate. Qed.

(** When every row is income or expense, [exp] is the expense sum. *)
Lemma summarize_exp_two_kinds (month : string) (p : Period) (rows : list Row) :
  Forall (fun r => isIncome r = true \/ isExpense r = true) rows ->
  exp (summarize month p rows) = sumAmounts (filter isExpense rows).
Proof.
  intros H. rewrite (summarize_exp month p rows).
  induction H as [|r rows Hr _ IH]; simpl; [reflexivity|].
  unfold isIncome, isExpense in *.
  destruct (String.eqb_spec (type r) "income") as [E|E];
    destruct (String.eqb_spec (type r) "expense") as [E'|E']; simpl;
    try (rewrite IH; reflexivity).
  - rewrite E in E'. discriminate.
  - destruct Hr; discriminate.
Qed.

(** A list in descending order of total that holds three entries of
    distinct totals holds them from the largest to the smallest. *)
Lemma sorted_three_unique (l : list CatTotal) (x y z : CatTotal) :
  total z < total y < total x ->
  StronglySorted descTotal l ->
  Permutation l [y; x; z] ->
  l = [x; y; z].
Proof.
  intros Ht Hs Hp.
  pose proof (Permutation_length Hp) as Hlen.
  destruct l as [|p [|q [|r [|]]]]; try discriminate Hlen.
  assert (Hin : forall e, In e [p; q; r] -> e = y \/ e = x \/ e = z).
  { intros e He. apply (Permutation_in _ Hp) in He. simpl in He.
    destruct He as [<-|[<-|[<-|[]]]]; auto. }
  assert (Hx : In x [p; q; r])
    by (apply (Permutation_in _ (Permutation_sym Hp)); simpl; auto).
  assert (Hy : In y [p; q; r])
    by (apply (Permutation_in _ (Permutation_sym Hp)); simpl; auto).
  assert (Hz : In z [p; q; r])
    by (apply (Permutation_in _ (Permutation_sym Hp)); simpl; auto).
  inversion Hs as [|? ? Hs1 Hall1]; subst.
  inversion Hs1 as [|? ? Hs2 Hall2]; subst.
  inversion Hall1 as [|? ? Hpq Hall1']; subst.
  inversion Hall1' as [|? ? Hpr _]; subst.
  inversion Hall2 as [|? ? Hqr _]; subst.
  unfold descTotal in *.
  assert (Ep : p = x).
  { destruct (Hin p ltac:(simpl; auto)) as [-> | [-> | ->]]; auto;
      simpl in Hx; destruct Hx as [<-|[<-|[<-|[]]]]; lia. }
  assert (Er : r = z).
  { destruct (Hin r ltac:(simpl; auto)) as [-> | [-> | ->]]; auto;
      simpl in Hz; destruct Hz as [<-|[<-|[<-|[]]]]; lia. }
  subst p r.
  assert (Eq : q = y).
  { simpl in Hy. destruct Hy as [<-|[<-|[<-|[]]]]; auto; lia. }
  now subst q.
Qed.

(** C4: [byCategory] is in descending order of total, and it holds the
    entries of the per-category map, each once; whenever the categories
    [a], [b], [c] have the totals 30, 50, 10, it is [b], [a], [c]. *)
Theorem byCategory_sorted_desc (month : string) (p : Period) (rows : list Row) :
  StronglySorted descTotal (byCategory (summarize month p rows))
  /\ Permutation (byCategory (summarize month p rows))
       (map (fun e => {| ct_category_id := fst e; total := snd e |})
          (entries (t_byCat (loop rows))))
  /\ (forall a b c,
        Permutation (entries (t_byCat (loop rows))) [(a, 30); (b, 50); (c, 10)] ->
        byCategory (summarize month p rows)
        = [ {| ct_category_id := b; total := 50 |};
            {| ct_category_id := a; total := 30 |};
            {| ct_category_id := c; total := 10 |} ]).
Proof.
  assert (Hsorted : StronglySorted descTotal (byCategory (summarize month p rows))).
  { unfold summarize; simpl. apply sort_sorted.
    - exact descTotal_trans.
    - unfold descTotal. intros x y. lia.
    - unfold descTotal. intros x y. lia. }
  split; [exact Hsorted|]. split; [apply byCategory_perm|].
  intros a b c Hperm. apply sorted_three_unique.
  - simpl. lia.
  - exact Hsorted.
  - eapply perm_trans; [apply byCategory_perm|].
    apply (Permutation_map (fun e => {| ct_category_id := fst e; total := snd e |}))
      in Hperm.
    exact Hperm.
Qed.

Lemma byCategory_sorted_desc_witness :
  byCategory (summarize "2024-02" {| from := "2024-02-01"; to := "2024-02-29" |}
                Example.threeCategories)
  = [ {| ct_category_id := 2; total := 50 |};
      {| ct_category_id := 1; total := 30 |};
      {| ct_category_id := 3; total := 10 |} ].
Proof.
  apply (byCategory_sorted_desc "2024-02"
           {| from := "2024-02-01"; to := "2024-02-29" |}
           Example.threeCategories).
  apply Permutation_refl.
Defined.

(** Categories with equal totals stay in the order the loop first met
    them. *)
Example byCategory_ties_first_seen :
  byCategory (summarize "2024-02" {| from := "2024-02-01"; to := "2024-02-29" |}
                [Example.row "expense" 5 (Some 9); Example.row "income" 5 (Some 4);
                 Example.row "expense" 7 (Some 6)])
  = [ {| ct_category_id := 6; total := 7 |};
      {| ct_category_id := 9; total := 5 |};
      {| ct_category_id := 4; total := 5 |} ].
Proof. reflexivity. Qed.



(** C7: [net] is [inc] minus [exp]. *)
Theorem net_is_inc_minus_exp (month : string) (p : Period) (rows : list Row) :
  net (summarize month p rows)
  = inc (summarize month p rows) - exp (summarize month p rows).
Proof. reflexivity. Qed.


(** An income of 3 and an expense of 4 in category 1 give the total 7. *)
Example byCategory_mixed_kinds :
  byCategory (summarize "2024-02" {| from := "2024-02-01"; to := "2024-02-29" |}
                [Example.row "income" 3 (Some 1); Example.row "expense" 4 (Some 1)])
  = [ {| ct_category_id := 1; total := 7 |} ].
Proof. reflexivity. Qed.

(** ** Running the handlers *)

Lemma getProfile_found {Json} (store : nat -> Request -> Reply Json)
  (idOf : Json -> Z) (a : string) (uid : Z) :
  profileFound store idOf a uid ->
  getProfileIdByAuthId store idOf a [] = (Some uid, [profileQuery a])
  /\ falsyNum (Some uid) = false.
Proof.
  intros (d & Hst & Hid & Hnz). split.
  - unfold getProfileIdByAuthId, bind, await. simpl.
    fold (profileQuery a). rewrite Hst. simpl. now rewrite Hid.
  - simpl. now apply Z.eqb_neq.
Qed.

Section Summary.
Variable tza : Z.
Variable Json : Type.
Variable store : nat -> Request -> Reply Json.
Variable idOf : Json -> Z.
Variable rowsOf : Json -> list Row.
Variables (now : Z) (req : Req Json) (uid : Z) (p : Period).
Hypothesis Hprofile : profileFound store idOf (user_id req) uid.
Hypothesis Hperiod :
  firstLastDayOfMonth tza (resolveMonth tza now (q_month (query req))) = Some p.

(** The summary handler, once the profile is found and the period resolved:
    one query, then the error branch or the aggregation. *)
Lemma summaryMonth_run :
  run (summaryMonth tza Json store idOf rowsOf now req)
  = (match error (store 1%nat (summaryQuery uid p)) with
     | Some e => Some (status_json 400 (BDetail (message e)))
     | None =>
         Some (json (BSummary
           (summarize (resolveMonth tza now (q_month (query req))) p
              match data (store 1%nat (summaryQuery uid p)) with
              | Some d => rowsOf d
              | None => []
              end)))
     end,
     [profileQuery (user_id req); summaryQuery uid p]).
Proof.
  destruct (getProfile_found store idOf _ _ Hprofile) as [Hget Hfalsy].
  unfold run, summaryMonth, bind. rewrite Hget, Hfalsy, Hperiod.
  unfold await. simpl. fold (summaryQuery uid p).
  destruct (error (store 1%nat (summaryQuery uid p))); reflexivity.
Qed.
End Summary.

(** C6: when the fetch fails, the response is the client error carrying
    the store's message, the log holds the one transaction query and
    nothing after it, and no totals are returned; what the store would
    answer to a second attempt plays no part. *)
Theorem summary_fetch_error (tza : Z) (Json : Type)
  (store : nat -> Request -> Reply Json) (idOf : Json -> Z)
  (rowsOf : Json -> list Row) (now : Z) (req : Req Json)
  (uid : Z) (p : Period) (e : StoreError) :
  profileFound store idOf (user_id req) uid ->
  firstLastDayOfMonth tza (resolveMonth tza now (q_month (query req))) = Some p ->
  error (store 1%nat (summaryQuery uid p)) = Some e ->
  run (summaryMonth tza Json store idOf rowsOf now req)
  = (Some (status_json 400 (BDetail (message e))),
     [profileQuery (user_id req); summaryQuery uid p]).
Proof.
  intros Hprofile Hperiod Herr.
  rewrite (summaryMonth_run tza Json store idOf rowsOf now req uid p Hprofile Hperiod).
  now rewrite Herr.
Qed.

Lemma summary_fetch_error_witness :
  run (summaryMonth 0 Example.J (Example.flakyStore Example.threeCategories)
         Example.idOf Example.rowsOf Example.now
         (Example.request "u1" "" (Example.monthQuery "2024-02")))
  = (Some (status_json 400 (BDetail "connection refused")),
     [profileQuery "u1";
      summaryQuery 7 {| from := "2024-02-01"; to := "2024-02-29" |}]).
Proof.
  apply (summary_fetch_error 0 Example.J
           (Example.flakyStore Example.threeCategories) Example.idOf
           Example.rowsOf Example.now
           (Example.request "u1" "" (Example.monthQuery "2024-02")) 7
           {| from := "2024-02-01"; to := "2024-02-29" |}
           {| message := "connection refused" |}).
  - exists (Example.JProfile 7). repeat split. discriminate.
  - reflexivity.
  - reflexivity.
Defined.

(** C8: when the fetch returns no rows (an empty array, or null), the
    summary has [inc = 0], [exp = 0], [net = 0] and an empty
    [byCategory]. *)
Theorem summary_empty (tza : Z) (Json : Type)
  (store : nat -> Request -> Reply Json) (idOf : Json -> Z)
  (rowsOf : Json -> list Row) (now : Z) (req : Req Json)
  (uid : Z) (p : Period) :
  profileFound store idOf (user_id req) uid ->
  firstLastDayOfMonth tza (resolveMonth tza now (q_month (query req))) = Some p ->
  error (store 1%nat (summaryQuery uid p)) = None ->
  match data (store 1%nat (summaryQuery uid p)) with
  | Some d => rowsOf d
  | None => []
  end = [] ->
  fst (run (summaryMonth tza Json store idOf rowsOf now req))
  = Some (json (BSummary
      {| s_month := resolveMonth tza now (q_month (query req));
         s_from := from p; s_to := to p;
         inc := 0; exp := 0; net := 0; byCategory := [] |})).
Proof.
  intros Hprofile Hperiod Herr Hrows.
  rewrite (summaryMonth_run tza Json store idOf rowsOf now req uid p Hprofile Hperiod).
  rewrite Herr, Hrows. reflexivity.
Qed.

Lemma summary_empty_witness :
  fst (run (summaryMonth 0 Example.J (Example.storeOf []) Example.idOf
              Example.rowsOf Example.now
              (Example.request "u1" "" (Example.monthQuery "2024-02"))))
  = Some (json (BSummary
      {| s_month := "2024-02"; s_from := "2024-02-01"; s_to := "2024-02-29";
         inc := 0; exp := 0; net := 0; byCategory := [] |})).
Proof.
  apply (summary_empty 0 Example.J (Example.storeOf []) Example.idOf
           Example.rowsOf Example.now
           (Example.request "u1" "" (Example.monthQuery "2024-02")) 7
           {| from := "2024-02-01"; to := "2024-02-29" |}).
  - exists (Example.JProfile 7). repeat split. discriminate.
  - reflexivity.
  - reflexivity.
  - reflexivity.
Defined.

(** ** A month token that fails the pattern *)

Lemma zStringRegex_bad (v : QVal) :
  badMonth v -> zStringRegex YM_test (Some v) = None.
Proof. destruct v as [s|]; simpl; [intros ->|]; reflexivity. Qed.

Lemma resolveMonth_bad (tza now : Z) (v : QVal) :
  badMonth v -> resolveMonth tza now (Some v) = currentMonth tza now.
Proof. destruct v as [s|]; simpl; [intros ->|]; reflexivity. Qed.

(** C2, as the claim states it, fails for the summary: the token [2024-2]
    does not match the pattern, and the response is no error but the
    summary of the current month (here November 2026). *)
Lemma summary_bad_month_no_error :
  YM_test "2024-2" = false
  /\ fst (run (summaryMonth 0 Example.J (Example.storeOf []) Example.idOf
                 Example.rowsOf Example.now
                 (Example.request "u1" "" (Example.monthQuery "2024-2"))))
     = Some {| status := 200;
               body := BSummary
                 {| s_month := "2026-11"; s_from := "2026-11-01";
                    s_to := "2026-11-30";
                    inc := 0; exp := 0; net := 0; byCategory := [] |} |}.
Proof. split; reflexivity. Qed.

(** C2, as the code has it: with a [month] that is not a string matching
    the pattern, the list handler answers 400 with an issue on [month] and
    sends no transaction query, while the summary handler takes the current
    month and does all it does when [month] is absent. *)
Theorem bad_month_handling (tza : Z) (Json : Type)
  (store : nat -> Request -> Reply Json) (idOf : Json -> Z)
  (rowsOf : Json -> list Row) (emptyArray : Json) (now : Z)
  (req : Req Json) (uid : Z) (v : QVal) :
  profileFound store idOf (user_id req) uid ->
  q_month (query req) = Some v ->
  badMonth v ->
  (exists issues,
      In "month" issues
      /\ run (list_ tza Json store idOf emptyArray req)
         = (Some (status_json 400 (BIssues issues)),
            [profileQuery (user_id req)]))
  /\ resolveMonth tza now (q_month (query req)) = currentMonth tza now
  /\ run (summaryMonth tza Json store idOf rowsOf now req)
     = run (summaryMonth tza Json store idOf rowsOf now (withoutMonth req)).
Proof.
  intros Hprofile Hm Hbad.
  destruct (getProfile_found store idOf _ _ Hprofile) as [Hget Hfalsy].
  split; [|split].
  - unfold run, list_, bind. rewrite Hget, Hfalsy.
    unfold listQuerySchema_safeParse. rewrite Hm, (zStringRegex_bad v Hbad).
    eexists. split; [|reflexivity]. simpl. now left.
  - rewrite Hm. now apply resolveMonth_bad.
  - unfold run, summaryMonth. simpl.
    rewrite Hm, (resolveMonth_bad tza now v Hbad). reflexivity.
Qed.

Lemma bad_month_handling_witness :
  (exists issues,
      In "month" issues
      /\ run (list_ 0 Example.J (Example.storeOf []) Example.idOf
                (Example.JRows [])
                (Example.request "u1" "" (Example.monthQuery "2024-2")))
         = (Some (status_json 400 (BIssues issues)), [profileQuery "u1"]))
  /\ resolveMonth 0 Example.now (Some (QString "2024-2")) = "2026-11"
  /\ run (summaryMonth 0 Example.J (Example.storeOf []) Example.idOf
            Example.rowsOf Example.now
            (Example.request "u1" "" (Example.monthQuery "2024-2")))
     = run (summaryMonth 0 Example.J (Example.storeOf []) Example.idOf
              Example.rowsOf Example.now
              (Example.request "u1" "" Example.noQuery)).
Proof.
  apply (bad_month_handling 0 Example.J (Example.storeOf []) Example.idOf
           Example.rowsOf (Example.JRows []) Example.now
           (Example.request "u1" "" (Example.monthQuery "2024-2")) 7
           (QString "2024-2")).
  - exists (Example.JProfile 7). repeat split. discriminate.
  - reflexivity.
  - reflexivity.
Defined.

(** ** Owner filters of the mutations *)

Lemma tx_delete_filters (Json : Type) (store : nat -> Request -> Reply Json)
  (idOf : Json -> Z) (Number_ : string -> option Z) (req : Req Json)
  (uid n : Z) (q : Request) :
  profileFound store idOf (user_id req) uid ->
  Number_ (params_id req) = Some n ->
  In q (snd (run (Transactions.delete Json store idOf Number_ req))) ->
  table q = "transaction" ->
  filters q = [Feq "id" (VNum (Some n)); Feq "user_id" (VNum (Some uid))].
Proof.
  intros Hprofile Hn.
  destruct (getProfile_found store idOf _ _ Hprofile) as [Hget Hfalsy].
  unfold run, Transactions.delete, bind. rewrite Hn, Hget, Hfalsy.
  unfold await. simpl.
  destruct (error _); simpl; intros [<-|[<-|[]]]; simpl;
    solve [discriminate | reflexivity].
Qed.

Lemma tx_patch_filters (Json : Type) (store : nat -> Request -> Reply Json)
  (idOf : Json -> Z) (Number_ : string -> option Z)
  (parse : Json -> list string + TxPatch) (req : Req Json)
  (uid n : Z) (q : Request) :
  profileFound store idOf (user_id req) uid ->
  Number_ (params_id req) = Some n ->
  In q (snd (run (Transactions.patch Json store idOf Number_ parse req))) ->
  table q = "transaction" ->
  filters q = [Feq "id" (VNum (Some n)); Feq "user_id" (VNum (Some uid))].
Proof.
  intros Hprofile Hn.
  destruct (getProfile_found store idOf _ _ Hprofile) as [Hget Hfalsy].
  unfold run, Transactions.patch, bind. rewrite Hn.
  destruct (parse (req_body req)) as [issues|patch]; simpl; [intros []|].
  rewrite Hget, Hfalsy.
  destruct (truthyStr (p_occurred_at patch) && _); simpl.
  - intros [<-|[]]. discriminate.
  - unfold await. simpl.
    destruct (error _); simpl; intros [<-|[<-|[]]]; simpl;
      solve [discriminate | reflexivity].
Qed.

(** C10: the goal PATCH and DELETE handlers do the same whoever the
    authenticated user is: two requests with the same goal id and body run
    alike on every log.  DELETE sends one query, the same for both users: a
    delete on the goal table filtered by [id] alone; PATCH sends one query
    when the body passes the schema, the same for both users: an update of
    the goal table with the parsed body, filtered by [id] alone (and no
    query when the body does not pass).  The transaction handlers, for
    contrast, look the caller's profile up and then send a delete or an
    update filtered by [id] and by that profile as [user_id]. *)
Theorem goal_mutation_ignores_owner (Json : Type)
  (store : nat -> Request -> Reply Json) (Number_ : string -> option Z)
  (parseGoal : Json -> list string + GoalPatch)
  (parseTx : Json -> list string + TxPatch) (idOf : Json -> Z)
  (r1 r2 : Req Json) :
  params_id r1 = params_id r2 ->
  req_body r1 = req_body r2 ->
  (forall log, Goals.patch Json store Number_ parseGoal r1 log
               = Goals.patch Json store Number_ parseGoal r2 log)
  /\ (forall log, Goals.delete Json store Number_ r1 log
                  = Goals.delete Json store Number_ r2 log)
  /\ (forall q, In q (snd (run (Goals.patch Json store Number_ parseGoal r1)))
                \/ In q (snd (run (Goals.delete Json store Number_ r1))) ->
                table q = "financial_goal"
                /\ filters q = [Feq "id" (VNum (Number_ (params_id r1)))])
  /\ (forall uid n q,
        profileFound store idOf (user_id r1) uid ->
        Number_ (params_id r1) = Some n ->
        In q (snd (run (Transactions.patch Json store idOf Number_ parseTx r1)))
        \/ In q (snd (run (Transactions.delete Json store idOf Number_ r1))) ->
        table q = "transaction" ->
        filters q = [Feq "id" (VNum (Some n)); Feq "user_id" (VNum (Some uid))])
  /\ (exists q,
        snd (run (Goals.delete Json store Number_ r1)) = [q]
        /\ snd (run (Goals.delete Json store Number_ r2)) = [q]
        /\ client q = Anon /\ table q = "financial_goal" /\ verb q = Delete
        /\ filters q = [Feq "id" (VNum (Number_ (params_id r1)))])
  /\ (forall parsed,
        parseGoal (req_body r1) = inr parsed ->
        exists q,
          snd (run (Goals.patch Json store Number_ parseGoal r1)) = [q]
          /\ snd (run (Goals.patch Json store Number_ parseGoal r2)) = [q]
          /\ client q = Anon /\ table q = "financial_goal"
          /\ verb q = UpdateGoal parsed
          /\ filters q = [Feq "id" (VNum (Number_ (params_id r1)))])
  /\ (forall issues,
        parseGoal (req_body r1) = inl issues ->
        snd (run (Goals.patch Json store Number_ parseGoal r1)) = []
        /\ snd (run (Goals.patch Json store Number_ parseGoal r2)) = [])
  /\ (forall uid n,
        profileFound store idOf (user_id r1) uid ->
        Number_ (params_id r1) = Some n ->
        (exists q,
            snd (run (Transactions.delete Json store idOf Number_ r1))
            = [profileQuery (user_id r1); q]
            /\ client q = Anon /\ table q = "transaction" /\ verb q = Delete
            /\ filters q = [Feq "id" (VNum (Some n));
                            Feq "user_id" (VNum (Some uid))])
        /\ (forall patch,
              parseTx (req_body r1) = inr patch ->
              truthyStr (p_occurred_at patch)
              && negb (YMD_test (match p_occurred_at patch with
                                 | Some s => s
                                 | None => ""
                                 end)) = false ->
              exists q,
                snd (run (Transactions.patch Json store idOf Number_ parseTx r1))
                = [profileQuery (user_id r1); q]
                /\ client q = Anon /\ table q = "transaction"
                /\ verb q = UpdateTx patch
                /\ filters q = [Feq "id" (VNum (Some n));
                                Feq "user_id" (VNum (Some uid))])).
Proof.
  intros Hid Hbody.
  split; [|split; [|split; [|split; [|split; [|split; [|split]]]]]].
  - intros log. unfold Goals.patch. now rewrite Hid, Hbody.
  - intros log. unfold Goals.delete. now rewrite Hid.
  - intros q [H|H]; revert H; unfold run, Goals.patch, Goals.delete, bind, await.
    + destruct (parseGoal (req_body r1)); simpl; [intros []|].
      destruct (error _); simpl; intros [<-|[]]; split; reflexivity.
    + simpl. destruct (error _); simpl; intros [<-|[]]; split; reflexivity.
  - intros uid n q Hprofile Hn [H|H] Ht.
    + eapply tx_patch_filters; eauto.
    + eapply tx_delete_filters; eauto.
  - unfold run, Goals.delete, bind, await. rewrite <- Hid. cbn [List.length app].
    eexists. split; [|split].
    + destruct (error _); cbn [snd]; reflexivity.
    + destruct (error _); cbn [snd]; reflexivity.
    + repeat split.
  - intros parsed Hparse. unfold run, Goals.patch, bind, await.
    rewrite <- Hid, <- Hbody, Hparse. cbn [List.length app].
    eexists. split; [|split].
    + destruct (error _); cbn [snd]; reflexivity.
    + destruct (error _); cbn [snd]; reflexivity.
    + repeat split.
  - intros issues Hparse. unfold run, Goals.patch.
    rewrite <- Hbody, Hparse. split; reflexivity.
  - intros uid n Hprofile Hn.
    destruct (getProfile_found store idOf _ _ Hprofile) as [Hget Hfalsy].
    split.
    + unfold run, Transactions.delete, bind. rewrite Hn, Hget, Hfalsy.
      unfold await. cbn [List.length app].
      eexists. split; [destruct (error _); cbn [snd]; reflexivity|].
      repeat split.
    + intros patch Hparse Hdate.
      unfold run, Transactions.patch, bind. rewrite Hn, Hparse, Hget, Hfalsy, Hdate.
      unfold await. cbn [List.length app].
      eexists. split; [destruct (error _); cbn [snd]; reflexivity|].
      repeat split.
Qed.

Lemma goal_mutation_ignores_owner_witness :
  let store := Example.storeOf [] in
  let num := fun _ : string => Some 42 in
  let patch := {| g_title := None; g_description := None;
                  g_target_amount := None; g_deadline := None;
                  g_current_amount := Some 0 |} in
  let parse := fun _ : Example.J => inr patch in
  let u1 := Example.request "u1" "42" Example.noQuery in
  let u2 := Example.request "u2" "42" Example.noQuery in
  run (Goals.patch Example.J store num parse u1)
  = run (Goals.patch Example.J store num parse u2)
  /\ run (Goals.delete Example.J store num u1)
     = run (Goals.delete Example.J store num u2)
  /\ (exists q,
        snd (run (Goals.delete Example.J store num u1)) = [q]
        /\ snd (run (Goals.delete Example.J store num u2)) = [q]
        /\ client q = Anon /\ table q = "financial_goal" /\ verb q = Delete
        /\ filters q = [Feq "id" (VNum (Some 42))])
  /\ (exists q,
        snd (run (Goals.patch Example.J store num parse u1)) = [q]
        /\ snd (run (Goals.patch Example.J store num parse u2)) = [q]
        /\ client q = Anon /\ table q = "financial_goal"
        /\ verb q = UpdateGoal patch
        /\ filters q = [Feq "id" (VNum (Some 42))]).
Proof.
  intros store num patch parse u1 u2.
  destruct (goal_mutation_ignores_owner Example.J store num parse
              (fun _ => inl []) Example.idOf u1 u2 eq_refl eq_refl)
    as (Hp & Hd & _ & _ & Hdel & Hpatch & _ & _).
  split; [apply Hp|]. split; [apply Hd|]. split; [exact Hdel|].
  exact (Hpatch patch eq_refl).
Defined.

(** The same DELETE sent by two users: the goal query is one and the same,
    the transaction queries differ by their owner filter. *)
Example delete_by_two_users :
  let store (uid : Z) (n : nat) (q : Request) : Reply Example.J :=
    {| data := Some (Example.JProfile uid); error := None |} in
  let num := fun _ : string => Some 42 in
  let r := Example.request "u" "42" Example.noQuery in
  map filters (snd (run (Goals.delete Example.J (store 7) num r)))
  = [[Feq "id" (VNum (Some 42))]]
  /\ map filters (snd (run (Goals.delete Example.J (store 8) num r)))
     = [[Feq "id" (VNum (Some 42))]]
  /\ map filters (snd (run (Transactions.delete Example.J (store 7) Example.idOf num r)))
     = [[Feq "id_supabase" (VStr "u")];
        [Feq "id" (VNum (Some 42)); Feq "user_id" (VNum (Some 7))]]
  /\ map filters (snd (run (Transactions.delete Example.J (store 8) Example.idOf num r)))
     = [[Feq "id_supabase" (VStr "u")];
        [Feq "id" (VNum (Some 42)); Feq "user_id" (VNum (Some 8))]].
Proof. repeat split. Qed.

(** ** The calendar of [Date] *)

Lemma DayFromYear_succ (y : Z) :
  DayFromYear (y + 1) = DayFromYear y + DaysInYear y.
Proof.
  unfold DayFromYear, DaysInYear, isLeapYear.
  destruct (Z.eqb_spec (y mod 4) 0), (Z.eqb_spec (y mod 100) 0),
    (Z.eqb_spec (y mod 400) 0); cbn [negb]; Z.div_mod_to_equations; lia.
Qed.

Lemma DaysInYear_bounds (y : Z) : 365 <= DaysInYear y <= 366.
Proof. unfold DaysInYear. destruct (isLeapYear y); lia. Qed.

Lemma DayFromYear_mono (y y' : Z) : y <= y' -> DayFromYear y <= DayFromYear y'.
Proof.
  intros H. unfold DayFromYear. Z.div_mod_to_equations. lia.
Qed.

Lemma climb_spec (fuel : nat) (d y0 y : Z) :
  y0 <= y -> y - y0 <= Z.of_nat fuel ->
  DayFromYear y <= d < DayFromYear (y + 1) ->
  climb fuel d y0 = y.
Proof.
  revert y0. induction fuel as [|fuel IH]; intros y0 Hle Hfuel Hd; simpl.
  - lia.
  - destruct (Z.leb_spec (DayFromYear (y0 + 1)) d) as [H|H].
    + apply IH; try lia.
      destruct (Z.eq_dec y0 y) as [->|]; lia.
    + destruct (Z.eq_dec y0 y) as [->|Hne]; [reflexivity|].
      pose proof (DayFromYear_mono (y0 + 1) y ltac:(lia)). lia.
Qed.

Lemma YearFromDay_spec (d y : Z) :
  DayFromYear y <= d < DayFromYear (y + 1) -> YearFromDay d = y.
Proof.
  intros Hd. unfold YearFromDay.
  apply climb_spec; [| |exact Hd];
  unfold DayFromYear in Hd; destruct (Z.leb_spec 0 d); cbv iota.
  - Z.div_mod_to_equations; lia.
  - Z.div_mod_to_equations; lia.
  - rewrite Z2Nat.id by (Z.div_mod_to_equations; lia). Z.div_mod_to_equations; lia.
  - rewrite Z2Nat.id by (Z.div_mod_to_equations; lia). Z.div_mod_to_equations; lia.
Qed.

Lemma YearFromDay_within (y k : Z) :
  0 <= k < DaysInYear y -> YearFromDay (DayFromYear y + k) = y.
Proof.
  intros Hk. apply YearFromDay_spec. rewrite DayFromYear_succ. lia.
Qed.

Ltac month_cases m :=
  let H := fresh in
  assert (H : m = 0 \/ m = 1 \/ m = 2 \/ m = 3 \/ m = 4 \/ m = 5 \/ m = 6
              \/ m = 7 \/ m = 8 \/ m = 9 \/ m = 10 \/ m = 11 \/ m = 12) by lia;
  repeat (destruct H as [H|H]); subst m; try lia.

(** Evaluate the calendar terms of the goal once month and leap flag are
    known. *)
Ltac is_bool_value b := match b with true => idtac | false => idtac end.

Ltac calc :=
  repeat match goal with
         | |- context [?k / 12] =>
             let v := eval vm_compute in (k / 12) in change (k / 12) with v
         | |- context [?k mod 12] =>
             let v := eval vm_compute in (k mod 12) in change (k mod 12) with v
         | |- context [?y + 0] => rewrite (Z.add_0_r y)
         | |- context [monthStart ?b 0] => change (monthStart b 0) with 0
         | |- context [monthStart ?b ?k] =>
             is_bool_value b;
             let v := eval vm_compute in (monthStart b k) in
             change (monthStart b k) with v
         | |- context [monthLength ?b ?k] =>
             is_bool_value b;
             let v := eval vm_compute in (monthLength b k) in
             change (monthLength b k) with v
         end;
  cbv iota.

Ltac split_ltb :=
  repeat match goal with
         | |- context [?a <? ?b] => destruct (Z.ltb_spec a b); try lia
         end.

(** The calendar fields of a time value whose day is day [dt] of month [m]
    (0..11) of year [y]. *)
Lemma fields_of_MakeDay (t y m dt : Z) :
  0 <= m <= 11 -> 1 <= dt <= daysInMonth y (m + 1) ->
  Day t = MakeDay y m dt ->
  YearFromTime t = y /\ MonthFromTime t = m /\ DateFromTime t = dt.
Proof.
  intros Hm Hdt Hday.
  assert (Hd : Day t = DayFromYear y + (monthStart (isLeapYear y) m + dt - 1)).
  { rewrite Hday. unfold MakeDay. month_cases m; calc; lia. }
  assert (Hy : YearFromTime t = y).
  { unfold YearFromTime. rewrite Hd. apply YearFromDay_within.
    revert Hdt. unfold daysInMonth, DaysInYear.
    month_cases m; destruct (isLeapYear y); calc; lia. }
  assert (Hw : DayWithinYear t = monthStart (isLeapYear y) m + dt - 1).
  { unfold DayWithinYear. rewrite Hy, Hd. lia. }
  assert (Hmo : MonthFromTime t = m).
  { unfold MonthFromTime, InLeapYear. rewrite Hy, Hw. revert Hdt.
    unfold daysInMonth.
    month_cases m; destruct (isLeapYear y); calc; intros Hdt; split_ltb. }
  repeat split; auto.
  unfold DateFromTime, InLeapYear. rewrite Hy, Hw, Hmo. lia.
Qed.

(** Day zero of the following month is the last day of the month. *)
Lemma MakeDay_zero (y m : Z) :
  1 <= m <= 12 -> MakeDay y m 0 = MakeDay y (m - 1) (daysInMonth y m).
Proof.
  intros Hm. unfold MakeDay, daysInMonth.
  month_cases m; calc; rewrite ?DayFromYear_succ;
    unfold DaysInYear; destruct (isLeapYear y); calc; lia.
Qed.

(** ** Month tokens *)

Lemma isDigit_inv (c : ascii) :
  isDigit c = true ->
  0 <= digitVal c <= 9 /\ digitChar (digitVal c) = c
  /\ Ascii.eqb c "-" = false.
Proof.
  destruct c as [[] [] [] [] [] [] [] []]; intros H;
    try discriminate H; repeat split; discriminate.
Qed.

Lemma Day_local_midnight (tza D : Z) :
  - msPerDay < tza <= 0 ->
  Day (UTC tza (MakeDate D (MakeTime 0 0 0 0))) = D.
Proof.
  unfold Day, UTC, MakeDate, MakeTime, msPerDay, msPerHour, msPerMinute,
    msPerSecond.
  intros H. Z.div_mod_to_equations. lia.
Qed.

Lemma MakeDay_bounds (y m dt : Z) :
  0 <= y <= 9999 -> 0 <= m <= 11 -> 1 <= dt <= 31 ->
  - 720000 <= MakeDay y m dt <= 2940000.
Proof.
  intros Hy Hm Hdt. unfold MakeDay.
  month_cases m; calc; destruct (isLeapYear y); calc;
    unfold DayFromYear; Z.div_mod_to_equations; lia.
Qed.

Lemma daysInMonth_bounds (y m : Z) : 28 <= daysInMonth y m <= 31.
Proof.
  unfold daysInMonth, monthLength.
  destruct (m =? 2), (isLeapYear y),
    ((m =? 4) || (m =? 6) || (m =? 9) || (m =? 11)); lia.
Qed.

Lemma slice_ymd (y m d : Z) (rest : string) :
  slice0 10 (dec4 y ++ "-" ++ dec2 m ++ "-" ++ dec2 d ++ rest)
  = dec4 y ++ "-" ++ dec2 m ++ "-" ++ dec2 d.
Proof.
  unfold slice0, dec4, dec3, dec2. cbn [append substring].
  now destruct rest.
Qed.

Lemma Day_local_midnight_east (tza D : Z) :
  0 < tza < msPerDay ->
  Day (UTC tza (MakeDate D (MakeTime 0 0 0 0))) = D - 1.
Proof.
  unfold Day, UTC, MakeDate, MakeTime, msPerDay, msPerHour, msPerMinute,
    msPerSecond.
  intros H. Z.div_mod_to_equations. lia.
Qed.

(** A time value on day [dt] of month [m] (0..11) of a four-digit year is
    written by [toISOString] with that date in its first ten characters. *)
Lemma fmt_day (t y m dt : Z) :
  0 <= y <= 9999 -> 0 <= m <= 11 -> 1 <= dt <= daysInMonth y (m + 1) ->
  Day t = MakeDay y m dt ->
  option_map (fun t => slice0 10 (toISOString t)) (TimeClip t)
  = Some (dec4 y ++ "-" ++ dec2 (m + 1) ++ "-" ++ dec2 dt).
Proof.
  intros Hy Hm Hdt Hday.
  pose proof (daysInMonth_bounds y (m + 1)) as Hb.
  pose proof (MakeDay_bounds y m dt Hy Hm ltac:(lia)) as HD.
  destruct (fields_of_MakeDay t y m dt Hm Hdt Hday) as (HY & HM & HDt).
  assert (Hclip : TimeClip t = Some t).
  { unfold TimeClip.
    destruct (Z.leb_spec (Z.abs t) 8640000000000000) as [|Hbig]; [reflexivity|].
    exfalso. revert Hbig. rewrite <- Hday in HD. revert HD.
    unfold Day, msPerDay. intros HD. Z.div_mod_to_equations. lia. }
  rewrite Hclip. simpl. f_equal. unfold toISOString.
  rewrite HY, HM, HDt.
  replace ((0 <=? y) && (y <=? 9999)) with true
    by (symmetry; apply andb_true_iff; split; apply Z.leb_le; lia).
  apply slice_ymd.
Qed.

Lemma YM_test_inv (s : string) :
  YM_test s = true ->
  exists c1 c2 c3 c4 c5 c6,
    s = String c1 (String c2 (String c3 (String c4 (String "-"
          (String c5 (String c6 EmptyString))))))
    /\ isDigit c1 = true /\ isDigit c2 = true /\ isDigit c3 = true
    /\ isDigit c4 = true /\ isDigit c5 = true /\ isDigit c6 = true.
Proof.
  destruct s as [|c1 [|c2 [|c3 [|c4 [|dash [|c5 [|c6 [|]]]]]]]];
    try discriminate. unfold YM_test.
  rewrite !andb_true_iff. intros [[[[[[H1 H2] H3] H4] Hd] H5] H6].
  apply Ascii.eqb_eq in Hd. subst dash.
  exists c1, c2, c3, c4, c5, c6. auto 10.
Qed.

Section Token.
Variables c1 c2 c3 c4 c5 c6 : ascii.
Hypothesis H1 : isDigit c1 = true.
Hypothesis H2 : isDigit c2 = true.
Hypothesis H3 : isDigit c3 = true.
Hypothesis H4 : isDigit c4 = true.
Hypothesis H5 : isDigit c5 = true.
Hypothesis H6 : isDigit c6 = true.

Local Notation "'token'" :=
  (String c1 (String c2 (String c3 (String c4 (String "-"
     (String c5 (String c6 EmptyString))))))).

Lemma token_year :
  tokenYear token
  = 1000 * digitVal c1 + 100 * digitVal c2 + 10 * digitVal c3 + digitVal c4.
Proof.
  unfold tokenYear, slice0, toNumber. cbn [substring digitsValue].
  rewrite H1, H2, H3, H4. lia.
Qed.

Lemma token_month : tokenMonth token = 10 * digitVal c5 + digitVal c6.
Proof.
  unfold tokenMonth, toNumber. cbn [substring digitsValue].
  rewrite H5, H6. lia.
Qed.

Lemma token_year_bounds : 0 <= tokenYear token <= 9999.
Proof.
  rewrite token_year.
  destruct (isDigit_inv c1 H1) as (B1 & _).
  destruct (isDigit_inv c2 H2) as (B2 & _).
  destruct (isDigit_inv c3 H3) as (B3 & _).
  destruct (isDigit_inv c4 H4) as (B4 & _).
  lia.
Qed.

(** Splitting the token at its dash and converting the pieces gives its
    year and its month. *)
Lemma token_split :
  map toNumber (split "-" token)
  = [Some (tokenYear token); Some (tokenMonth token)].
Proof.
  rewrite token_year, token_month.
  destruct (isDigit_inv c1 H1) as (_ & _ & E1).
  destruct (isDigit_inv c2 H2) as (_ & _ & E2).
  destruct (isDigit_inv c3 H3) as (_ & _ & E3).
  destruct (isDigit_inv c4 H4) as (_ & _ & E4).
  destruct (isDigit_inv c5 H5) as (_ & _ & E5).
  destruct (isDigit_inv c6 H6) as (_ & _ & E6).
  unfold split. cbn [splitAux].
  rewrite E1, E2, E3, E4, E5, E6. cbn [Ascii.eqb Bool.eqb splitAux append map].
  unfold toNumber. cbn [digitsValue].
  rewrite H1, H2, H3, H4, H5, H6.
  apply f_equal2; [apply f_equal; lia|].
  apply f_equal2; [apply f_equal; lia | reflexivity].
Qed.

(** The token is its year on four digits, a dash, its month on two. *)
Lemma token_dec : token = dec4 (tokenYear token) ++ "-" ++ dec2 (tokenMonth token).
Proof.
  rewrite token_year, token_month.
  destruct (isDigit_inv c1 H1) as (B1 & E1 & _).
  destruct (isDigit_inv c2 H2) as (B2 & E2 & _).
  destruct (isDigit_inv c3 H3) as (B3 & E3 & _).
  destruct (isDigit_inv c4 H4) as (B4 & E4 & _).
  destruct (isDigit_inv c5 H5) as (B5 & E5 & _).
  destruct (isDigit_inv c6 H6) as (B6 & E6 & _).
  unfold dec4, dec3, dec2. cbn [append].
  set (y := 1000 * digitVal c1 + 100 * digitVal c2 + 10 * digitVal c3
            + digitVal c4).
  set (m := 10 * digitVal c5 + digitVal c6).
  replace (y / 1000 mod 10) with (digitVal c1)
    by (unfold y; Z.div_mod_to_equations; lia).
  replace (y / 100 mod 10) with (digitVal c2)
    by (unfold y; Z.div_mod_to_equations; lia).
  replace (y / 10 mod 10) with (digitVal c3)
    by (unfold y; Z.div_mod_to_equations; lia).
  replace (y mod 10) with (digitVal c4)
    by (unfold y; Z.div_mod_to_equations; lia).
  replace (m / 10 mod 10) with (digitVal c5)
    by (unfold m; Z.div_mod_to_equations; lia).
  replace (m mod 10) with (digitVal c6)
    by (unfold m; Z.div_mod_to_equations; lia).
  now rewrite E1, E2, E3, E4, E5, E6.
Qed.
End Token.

(** With the process clock on UTC or west of it, a token of a year from
    0100 on and a month 01..12 resolves to the first and the last day of
    that month. *)
Lemma firstLastDayOfMonth_west (tza : Z) (s : string) :
  - msPerDay < tza <= 0 ->
  YM_test s = true ->
  100 <= tokenYear s ->
  1 <= tokenMonth s <= 12 ->
  firstLastDayOfMonth tza s
  = Some {| from := s ++ "-01";
            to := s ++ "-"
                  ++ dec2 (daysInMonth (tokenYear s) (tokenMonth s)) |}.
Proof.
  intros Htz Hs.
  destruct (YM_test_inv s Hs)
    as (c1 & c2 & c3 & c4 & c5 & c6 & -> & H1 & H2 & H3 & H4 & H5 & H6).
  pose proof (token_split c1 c2 c3 c4 c5 c6 H1 H2 H3 H4 H5 H6) as Hsplit.
  pose proof (token_dec c1 c2 c3 c4 c5 c6 H1 H2 H3 H4 H5 H6) as Hdec.
  pose proof (token_year_bounds c1 c2 c3 c4 c5 c6 H1 H2 H3 H4) as Hy'.
  revert Hsplit Hdec Hy'.
  generalize (tokenYear (String c1 (String c2 (String c3 (String c4
                (String "-" (String c5 (String c6 EmptyString)))))))).
  generalize (tokenMonth (String c1 (String c2 (String c3 (String c4
                (String "-" (String c5 (String c6 EmptyString)))))))).
  intros m y Hsplit Hdec Hy' Hy Hm.
  unfold firstLastDayOfMonth. rewrite Hsplit. cbn [nth option_map].
  unfold newDate.
  replace ((0 <=? y) && (y <=? 99)) with false
    by (symmetry; apply andb_false_iff; right; apply Z.leb_gt; lia).
  rewrite (MakeDay_zero y m Hm).
  pose proof (daysInMonth_bounds y m) as Hb.
  rewrite (fmt_day _ y (m - 1) 1 Hy' ltac:(lia)
             ltac:(replace (m - 1 + 1) with m by lia; lia)
             (Day_local_midnight tza _ Htz)).
  rewrite (fmt_day _ y (m - 1) (daysInMonth y m) Hy' ltac:(lia)
             ltac:(replace (m - 1 + 1) with m by lia; lia)
             (Day_local_midnight tza _ Htz)).
  replace (m - 1 + 1) with m by lia.
  rewrite Hdec. unfold dec4, dec3, dec2. cbn [append]. reflexivity.
Qed.

Lemma firstLastDayOfMonth_west_witness :
  firstLastDayOfMonth (- 14400000) "2024-02"
  = Some {| from := "2024-02-01"; to := "2024-02-29" |}.
Proof.
  apply (firstLastDayOfMonth_west (- 14400000) "2024-02").
  - unfold msPerDay. lia.
  - reflexivity.
  - vm_compute. discriminate.
  - split; vm_compute; discriminate.
Defined.

(** The day before the first of a month, and the day before day zero of the
    following month. *)
Lemma MakeDay_first_pred (y m : Z) :
  1 <= m <= 12 ->
  MakeDay y (m - 1) 1 - 1
  = if m =? 1 then MakeDay (y - 1) 11 31
    else MakeDay y (m - 2) (daysInMonth y (m - 1)).
Proof.
  intros Hm. destruct (Z.eqb_spec m 1) as [->|Hne].
  - unfold MakeDay. calc.
    replace (DayFromYear y) with (DayFromYear (y - 1 + 1)) by (f_equal; lia).
    rewrite DayFromYear_succ. unfold DaysInYear.
    destruct (isLeapYear (y - 1)); calc; lia.
  - replace (m - 2) with (m - 1 - 1) by lia.
    rewrite <- (MakeDay_zero y (m - 1)) by lia. unfold MakeDay. lia.
Qed.

Lemma MakeDay_last_pred (y m : Z) :
  1 <= m <= 12 ->
  MakeDay y m 0 - 1 = MakeDay y (m - 1) (daysInMonth y m - 1).
Proof.
  intros Hm. rewrite (MakeDay_zero y m Hm). unfold MakeDay. lia.
Qed.

(** With the process clock east of Greenwich, every such token resolves
    one day early at both ends: [from] is the last day of the month before
    and [to] the last day but one of the month. *)
Lemma firstLastDayOfMonth_east (tza : Z) (s : string) :
  0 < tza < msPerDay ->
  YM_test s = true ->
  100 <= tokenYear s ->
  1 <= tokenMonth s <= 12 ->
  firstLastDayOfMonth tza s
  = Some {| from :=
              if tokenMonth s =? 1
              then dec4 (tokenYear s - 1) ++ "-12-31"
              else dec4 (tokenYear s) ++ "-" ++ dec2 (tokenMonth s - 1) ++ "-"
                   ++ dec2 (daysInMonth (tokenYear s) (tokenMonth s - 1));
            to := s ++ "-"
                  ++ dec2 (daysInMonth (tokenYear s) (tokenMonth s) - 1) |}.
Proof.
  intros Htz Hs.
  destruct (YM_test_inv s Hs)
    as (c1 & c2 & c3 & c4 & c5 & c6 & -> & H1 & H2 & H3 & H4 & H5 & H6).
  pose proof (token_split c1 c2 c3 c4 c5 c6 H1 H2 H3 H4 H5 H6) as Hsplit.
  pose proof (token_dec c1 c2 c3 c4 c5 c6 H1 H2 H3 H4 H5 H6) as Hdec.
  pose proof (token_year_bounds c1 c2 c3 c4 c5 c6 H1 H2 H3 H4) as Hy'.
  revert Hsplit Hdec Hy'.
  generalize (tokenYear (String c1 (String c2 (String c3 (String c4
                (String "-" (String c5 (String c6 EmptyString)))))))).
  generalize (tokenMonth (String c1 (String c2 (String c3 (String c4
                (String "-" (String c5 (String c6 EmptyString)))))))).
  intros m y Hsplit Hdec Hy' Hy Hm.
  unfold firstLastDayOfMonth. rewrite Hsplit. cbn [nth option_map].
  unfold newDate.
  replace ((0 <=? y) && (y <=? 99)) with false
    by (symmetry; apply andb_false_iff; right; apply Z.leb_gt; lia).
  pose proof (daysInMonth_bounds y m) as Hb.
  pose proof (daysInMonth_bounds y (m - 1)) as Hb'.
  pose proof (Day_local_midnight_east tza (MakeDay y (m - 1) 1) Htz) as Hf.
  pose proof (Day_local_midnight_east tza (MakeDay y m 0) Htz) as Hl.
  rewrite (MakeDay_first_pred y m Hm) in Hf.
  rewrite (MakeDay_last_pred y m Hm) in Hl.
  rewrite (fmt_day _ y (m - 1) (daysInMonth y m - 1) Hy' ltac:(lia)
             ltac:(replace (m - 1 + 1) with m by lia; lia) Hl).
  replace (m - 1 + 1) with m by lia.
  destruct (Z.eqb_spec m 1) as [->|Hne].
  - rewrite (fmt_day _ (y - 1) 11 31 ltac:(lia) ltac:(lia)
               ltac:(unfold daysInMonth; calc;
                     destruct (isLeapYear (y - 1)); calc; lia) Hf).
    rewrite Hdec. unfold dec4, dec3, dec2. cbn [append]. reflexivity.
  - rewrite (fmt_day _ y (m - 2) (daysInMonth y (m - 1)) Hy' ltac:(lia)
               ltac:(replace (m - 2 + 1) with (m - 1) by lia; lia) Hf).
    replace (m - 2 + 1) with (m - 1) by lia.
    rewrite Hdec. unfold dec4, dec3, dec2. cbn [append]. reflexivity.
Qed.

Lemma firstLastDayOfMonth_east_witness :
  firstLastDayOfMonth 3600000 "2024-01"
  = Some {| from := "2023-12-31"; to := "2024-01-30" |}.
Proof.
  apply (firstLastDayOfMonth_east 3600000 "2024-01").
  - unfold msPerDay. lia.
  - reflexivity.
  - vm_compute. discriminate.
  - split; vm_compute; discriminate.
Defined.

(** ** C1 *)

(** On UTC the two tokens of the claim resolve as it says. *)
Example february_on_utc :
  firstLastDayOfMonth 0 "2024-02"
  = Some {| from := "2024-02-01"; to := "2024-02-29" |}
  /\ firstLastDayOfMonth 0 "2023-02"
     = Some {| from := "2023-02-01"; to := "2023-02-28" |}.
Proof. split; reflexivity. Qed.

(** C1 fails on the code: with the process clock one hour east of
    Greenwich, [2024-02] resolves to the day before the first and the day
    before the last of February; and on any clock, the token [0024-02] of
    the year 24 resolves to February 1924. *)
Theorem firstLastDayOfMonth_off_by_one_east :
  firstLastDayOfMonth 3600000 "2024-02"
  = Some {| from := "2024-01-31"; to := "2024-02-28" |}
  /\ firstLastDayOfMonth 0 "0024-02"
     = Some {| from := "1924-02-01"; to := "1924-02-29" |}
  /\ YM_test "2024-02" = true /\ YM_test "0024-02" = true.
Proof. repeat split; reflexivity. Qed.

(** ** Calendar fields of any time value *)

Lemma climb_sound (fuel : nat) (d y0 : Z) :
  DayFromYear y0 <= d ->
  d < DayFromYear (y0 + Z.of_nat fuel + 1) ->
  DayFromYear (climb fuel d y0) <= d < DayFromYear (climb fuel d y0 + 1).
Proof.
  revert y0. induction fuel as [|fuel IH]; intros y0 Hlo Hhi; simpl.
  - replace (y0 + Z.of_nat 0 + 1) with (y0 + 1) in Hhi by lia. lia.
  - destruct (Z.leb_spec (DayFromYear (y0 + 1)) d) as [H|H].
    + apply IH; [exact H|].
      replace (y0 + 1 + Z.of_nat fuel + 1) with (y0 + Z.of_nat (S fuel) + 1) by lia.
      exact Hhi.
    + lia.
Qed.

(** [YearFromDay d] is the year that day [d] falls in, for every [d]. *)
Lemma YearFromDay_bounds (d : Z) :
  DayFromYear (YearFromDay d) <= d < DayFromYear (YearFromDay d + 1).
Proof.
  unfold YearFromDay. apply climb_sound;
    [|rewrite Z2Nat.id by (Z.div_mod_to_equations; lia)];
    unfold DayFromYear; destruct (Z.leb_spec 0 d); cbv iota;
    Z.div_mod_to_equations; lia.
Qed.

Lemma DayWithinYear_bounds (t : Z) :
  0 <= DayWithinYear t < DaysInYear (YearFromTime t).
Proof.
  unfold DayWithinYear, YearFromTime.
  pose proof (YearFromDay_bounds (Day t)) as H.
  rewrite DayFromYear_succ in H. lia.
Qed.

Lemma MonthFromTime_spec (t : Z) :
  0 <= MonthFromTime t <= 11
  /\ monthStart (InLeapYear t) (MonthFromTime t) <= DayWithinYear t
     < monthStart (InLeapYear t) (MonthFromTime t + 1).
Proof.
  pose proof (DayWithinYear_bounds t) as Hw.
  unfold MonthFromTime. unfold DaysInYear in Hw. fold (InLeapYear t) in Hw.
  generalize dependent (DayWithinYear t). intros w Hw.
  destruct (InLeapYear t);
    repeat match goal with
           | |- context [w <? ?b] => destruct (Z.ltb_spec w b)
           end;
    repeat match goal with
           | H : context [monthStart _ _] |- _ => revert H
           end; calc; intros; lia.
Qed.

(** The fields of a time value name its day: the date lies in the month,
    and [MakeDay] of the fields is the day of the time value. *)
Lemma fields_roundtrip (t : Z) :
  0 <= MonthFromTime t <= 11
  /\ 1 <= DateFromTime t <= daysInMonth (YearFromTime t) (MonthFromTime t + 1)
  /\ MakeDay (YearFromTime t) (MonthFromTime t) (DateFromTime t) = Day t.
Proof.
  destruct (MonthFromTime_spec t) as (Hm & Hw).
  unfold DateFromTime, daysInMonth, MakeDay.
  assert (Hd : Day t = DayFromYear (YearFromTime t) + DayWithinYear t)
    by (unfold DayWithinYear; lia).
  rewrite Hd. unfold InLeapYear in *.
  generalize dependent (DayWithinYear t). intros w Hw.
  generalize dependent (MonthFromTime t). intros m Hm Hw.
  revert Hw.
  month_cases m; calc; destruct (isLeapYear (YearFromTime t)); calc;
    intros; lia.
Qed.

(** ** Decimal fields *)

Lemma range_In (lo n x : Z) :
  lo <= x < lo + n -> In x (range lo n).
Proof.
  intros H. unfold range. apply in_map_iff.
  exists (Z.to_nat (x - lo)). split; [lia|].
  apply in_seq. lia.
Qed.

(** [String(n)] of a four-digit number is its four digits. *)
Lemma ofNumber_dec4 (n : Z) : 1000 <= n <= 9999 -> ofNumber n = dec4 n.
Proof.
  intros H.
  assert (Hall : forallb (fun k => String.eqb (ofNumber k) (dec4 k))
                   (range 1000 9000) = true) by (vm_compute; reflexivity).
  rewrite forallb_forall in Hall.
  apply String.eqb_eq, Hall, range_In. lia.
Qed.

(** [String(n).padStart(2, '0')] of a number below 100 is its two digits. *)
Lemma padStart_dec2 (n : Z) :
  0 <= n <= 99 -> padStart 2 "0" (ofNumber n) = dec2 n.
Proof.
  intros H.
  assert (Hall : forallb (fun k => String.eqb (padStart 2 "0" (ofNumber k)) (dec2 k))
                   (range 0 100) = true) by (vm_compute; reflexivity).
  rewrite forallb_forall in Hall.
  apply String.eqb_eq, Hall, range_In. lia.
Qed.

Lemma isDigit_digitChar (d : Z) : 0 <= d <= 9 -> isDigit (digitChar d) = true.
Proof.
  intros H.
  assert (E : d = 0 \/ d = 1 \/ d = 2 \/ d = 3 \/ d = 4 \/ d = 5 \/ d = 6
              \/ d = 7 \/ d = 8 \/ d = 9) by lia.
  repeat (destruct E as [E|E]); subst d; reflexivity.
Qed.

Lemma isDigit_mod10 (n : Z) : isDigit (digitChar (n mod 10)) = true.
Proof. apply isDigit_digitChar. Z.div_mod_to_equations. lia. Qed.

Lemma YM_test_dec (y m : Z) : YM_test (dec4 y ++ "-" ++ dec2 m) = true.
Proof.
  unfold dec4, dec3, dec2. cbn [append YM_test].
  now rewrite !isDigit_mod10.
Qed.

Lemma YMD_test_dec (y m d : Z) :
  YMD_test (dec4 y ++ "-" ++ dec2 m ++ "-" ++ dec2 d) = true.
Proof.
  unfold dec4, dec3, dec2. cbn [append YMD_test].
  now rewrite !isDigit_mod10.
Qed.

(** ** [todayYmd] *)

Lemma toISOString_date (t : Z) :
  0 <= YearFromTime t <= 9999 ->
  slice0 10 (toISOString t)
  = dec4 (YearFromTime t) ++ "-" ++ dec2 (MonthFromTime t + 1) ++ "-"
    ++ dec2 (DateFromTime t).
Proof.
  intros Hy. unfold toISOString.
  replace ((0 <=? YearFromTime t) && (YearFromTime t <=? 9999)) with true
    by (symmetry; apply andb_true_iff; split; apply Z.leb_le; lia).
  apply slice_ymd.
Qed.

(** X1: while the local year has four digits, [todayYmd] is the date part
    of the ISO string of the local time, and it matches the YYYY-MM-DD
    pattern. *)
Theorem todayYmd_local_date (tza now : Z) :
  1000 <= getFullYear tza now <= 9999 ->
  todayYmd tza now = slice0 10 (toISOString (LocalTime tza now))
  /\ YMD_test (todayYmd tza now) = true.
Proof.
  intros Hy. unfold getFullYear in Hy.
  destruct (fields_roundtrip (LocalTime tza now)) as (Hm & Hd & _).
  pose proof (daysInMonth_bounds (YearFromTime (LocalTime tza now))
                (MonthFromTime (LocalTime tza now) + 1)) as Hb.
  assert (E : todayYmd tza now
              = dec4 (YearFromTime (LocalTime tza now)) ++ "-"
                ++ dec2 (MonthFromTime (LocalTime tza now) + 1) ++ "-"
                ++ dec2 (DateFromTime (LocalTime tza now))).
  { unfold todayYmd, getFullYear, getMonth, getDate.
    rewrite (ofNumber_dec4 _ Hy), !padStart_dec2 by lia. reflexivity. }
  split.
  - rewrite E, toISOString_date by lia. reflexivity.
  - rewrite E. apply YMD_test_dec.
Qed.

Lemma todayYmd_local_date_witness :
  todayYmd (- 14400000) Example.now
  = slice0 10 (toISOString (LocalTime (- 14400000) Example.now))
  /\ YMD_test (todayYmd (- 14400000) Example.now) = true.
Proof.
  apply (todayYmd_local_date (- 14400000) Example.now).
  split; vm_compute; discriminate.
Defined.

(** ** Month tokens with any two month digits *)

Lemma token_month_bounds (c1 c2 c3 c4 c5 c6 : ascii) :
  isDigit c5 = true -> isDigit c6 = true ->
  0 <= tokenMonth (String c1 (String c2 (String c3 (String c4 (String "-"
         (String c5 (String c6 EmptyString))))))) <= 99.
Proof.
  intros H5 H6. rewrite (token_month c1 c2 c3 c4 c5 c6 H5 H6).
  destruct (isDigit_inv c5 H5) as (B5 & _).
  destruct (isDigit_inv c6 H6) as (B6 & _).
  lia.
Qed.

(** What a token that passed the YM test is made of. *)
Lemma YM_token_facts (s : string) :
  YM_test s = true ->
  map toNumber (split "-" s) = [Some (tokenYear s); Some (tokenMonth s)]
  /\ s = dec4 (tokenYear s) ++ "-" ++ dec2 (tokenMonth s)
  /\ 0 <= tokenYear s <= 9999 /\ 0 <= tokenMonth s <= 99.
Proof.
  intros Hs.
  destruct (YM_test_inv s Hs)
    as (c1 & c2 & c3 & c4 & c5 & c6 & -> & H1 & H2 & H3 & H4 & H5 & H6).
  repeat split.
  - apply token_split; assumption.
  - apply token_dec; assumption.
  - apply (token_year_bounds c1 c2 c3 c4 c5 c6); assumption.
  - apply (token_year_bounds c1 c2 c3 c4 c5 c6); assumption.
  - apply (token_month_bounds c1 c2 c3 c4 c5 c6); assumption.
  - apply (token_month_bounds c1 c2 c3 c4 c5 c6); assumption.
Qed.

(** [MakeDay] carries the months beyond a year into the year. *)
Lemma MakeDay_norm (y m dt : Z) :
  MakeDay y m dt = MakeDay (y + m / 12) (m mod 12) dt.
Proof.
  unfold MakeDay.
  rewrite Z.mod_mod by lia.
  rewrite (Z.div_small (m mod 12) 12) by (apply Z.mod_pos_bound; lia).
  now rewrite Z.add_0_r.
Qed.

Lemma MakeDay_norm_zero (y m : Z) :
  MakeDay y m 0 = MakeDay (y + (m - 1) / 12) ((m - 1) mod 12 + 1) 0.
Proof.
  unfold MakeDay.
  assert (E1 : y + m / 12 = y + (m - 1) / 12 + ((m - 1) mod 12 + 1) / 12)
    by (Z.div_mod_to_equations; lia).
  assert (E2 : m mod 12 = ((m - 1) mod 12 + 1) mod 12)
    by (Z.div_mod_to_equations; lia).
  now rewrite E1, E2.
Qed.

Lemma west_of_Greenwich_witness_zone : - msPerDay < - 14400000 <= 0.
Proof. unfold msPerDay. lia. Qed.

(** ** String order of dates *)

Lemma compare_append (p a b : string) :
  String.compare (p ++ a) (p ++ b) = String.compare a b.
Proof.
  induction p as [|c p IH]; simpl; [reflexivity|].
  unfold Ascii.compare. now rewrite N.compare_refl.
Qed.

Lemma digitChar_compare (x y : Z) :
  0 <= x <= 9 -> 0 <= y <= 9 ->
  Ascii.compare (digitChar x) (digitChar y) = (x ?= y).
Proof.
  intros Hx Hy. unfold Ascii.compare, digitChar.
  rewrite !N_ascii_embedding by lia.
  rewrite Z2N.inj_compare by lia.
  rewrite (Z.add_comm x), (Z.add_comm y). apply Z.add_compare_mono_l.
Qed.

Lemma dec2_compare (a b : Z) :
  0 <= a <= 99 -> 0 <= b <= 99 ->
  String.compare (dec2 a) (dec2 b) = (a ?= b).
Proof.
  intros Ha Hb. unfold dec2. cbn [String.compare].
  rewrite !digitChar_compare by (Z.div_mod_to_equations; lia).
  destruct (Z.compare_spec (a / 10 mod 10) (b / 10 mod 10));
    destruct (Z.compare_spec (a mod 10) (b mod 10));
    destruct (Z.compare_spec a b); try reflexivity; exfalso;
    Z.div_mod_to_equations; lia.
Qed.

(** Two dates of one month compare as their days do. *)
Lemma leb_same_month (p : string) (a b : Z) :
  0 <= a <= b -> b <= 99 ->
  String.leb (p ++ "-" ++ dec2 a) (p ++ "-" ++ dec2 b) = true.
Proof.
  intros Ha Hb. unfold String.leb.
  rewrite compare_append. cbn [append String.compare].
  replace (Ascii.compare "-" "-") with Eq by reflexivity.
  rewrite dec2_compare by lia.
  destruct (Z.compare_spec a b); try reflexivity. lia.
Qed.

(** ** The default month *)

Lemma digitVal_digitChar (d : Z) : 0 <= d <= 9 -> digitVal (digitChar d) = d.
Proof.
  intros H. unfold digitVal, digitChar.
  rewrite N_ascii_embedding by lia. lia.
Qed.

Lemma tokenYear_dec (y m : Z) :
  0 <= y <= 9999 -> tokenYear (dec4 y ++ "-" ++ dec2 m) = y.
Proof.
  intros Hy. unfold tokenYear, slice0, toNumber, dec4, dec3, dec2.
  cbn [append substring digitsValue].
  rewrite !isDigit_digitChar, !digitVal_digitChar
    by (Z.div_mod_to_equations; lia).
  Z.div_mod_to_equations. lia.
Qed.

Lemma tokenMonth_dec (y m : Z) :
  0 <= m <= 99 -> tokenMonth (dec4 y ++ "-" ++ dec2 m) = m.
Proof.
  intros Hm. unfold tokenMonth, toNumber, dec4, dec3, dec2.
  cbn [append substring digitsValue].
  rewrite !isDigit_digitChar, !digitVal_digitChar
    by (Z.div_mod_to_equations; lia).
  Z.div_mod_to_equations. lia.
Qed.

Lemma currentMonth_dec (tza now : Z) :
  1000 <= getFullYear tza now <= 9999 ->
  currentMonth tza now
  = dec4 (getFullYear tza now) ++ "-" ++ dec2 (getMonth tza now + 1).
Proof.
  intros Hy. unfold currentMonth.
  destruct (fields_roundtrip (LocalTime tza now)) as (Hm & _).
  rewrite (ofNumber_dec4 _ Hy). unfold getMonth.
  now rewrite padStart_dec2 by lia.
Qed.

Lemma todayYmd_dec (tza now : Z) :
  1000 <= getFullYear tza now <= 9999 ->
  todayYmd tza now
  = currentMonth tza now ++ "-" ++ dec2 (getDate tza now).
Proof.
  intros Hy. rewrite (currentMonth_dec tza now Hy).
  destruct (fields_roundtrip (LocalTime tza now)) as (Hm & Hd & _).
  pose proof (daysInMonth_bounds (YearFromTime (LocalTime tza now))
                (MonthFromTime (LocalTime tza now) + 1)) as Hb.
  unfold todayYmd. rewrite (ofNumber_dec4 _ Hy).
  unfold getMonth, getDate. rewrite !padStart_dec2 by lia.
  unfold dec4, dec3, dec2. cbn [append]. reflexivity.
Qed.

(** ** The handlers answer every request *)

Lemma monthStart_bounds (leap : bool) (m : Z) : 0 <= monthStart leap m <= 366.
Proof.
  unfold monthStart.
  destruct leap;
    repeat match goal with
           | |- context [if ?c then _ else _] => destruct c
           end; lia.
Qed.

(** Local midnight of any day a token can name is a valid time value. *)
Lemma newDate_valid (tza y m dt : Z) :
  - msPerDay < tza < msPerDay ->
  0 <= y <= 9999 -> - 1 <= m <= 99 -> 0 <= dt <= 1 ->
  exists t, newDate tza (Some y) (Some m) (Some dt) = Some t.
Proof.
  intros Htz Hy Hm Hdt. unfold newDate, TimeClip.
  set (yr := if (0 <=? y) && (y <=? 99) then 1900 + y else y).
  assert (Hyr : 100 <= yr <= 9999).
  { unfold yr. destruct (Z.leb_spec 0 y), (Z.leb_spec y 99); cbn [andb]; lia. }
  match goal with
  | |- context [Z.abs ?t <=? ?b] => destruct (Z.leb_spec (Z.abs t) b) as [|Hbig]
  end; [eexists; reflexivity|].
  exfalso. revert Hbig.
  unfold UTC, MakeDate, MakeTime, MakeDay.
  pose proof (monthStart_bounds (isLeapYear (yr + m / 12)) (m mod 12)) as Hs.
  assert (Hyear : 99 <= yr + m / 12 <= 10007)
    by (Z.div_mod_to_equations; lia).
  assert (HD : - 700000 <= DayFromYear (yr + m / 12) <= 3000000).
  { generalize dependent (yr + m / 12). intros Y _ HY.
    unfold DayFromYear. Z.div_mod_to_equations. lia. }
  unfold msPerDay, msPerHour, msPerMinute, msPerSecond in *. lia.
Qed.

(** A token that passed the YM test never makes [firstLastDayOfMonth]
    throw. *)
Lemma firstLastDayOfMonth_total (tza : Z) (s : string) :
  - msPerDay < tza < msPerDay ->
  YM_test s = true ->
  exists p, firstLastDayOfMonth tza s = Some p.
Proof.
  intros Htz Hs.
  destruct (YM_token_facts s Hs) as (Hsplit & _ & Hy & Hm).
  unfold firstLastDayOfMonth. rewrite Hsplit. cbn [nth option_map].
  destruct (newDate_valid tza (tokenYear s) (tokenMonth s - 1) 1 Htz Hy
              ltac:(lia) ltac:(lia)) as (t1 & ->).
  destruct (newDate_valid tza (tokenYear s) (tokenMonth s) 0 Htz Hy
              ltac:(lia) ltac:(lia)) as (t2 & ->).
  eexists. reflexivity.
Qed.

(** X5: the list handler answers every request, whatever the store does;
    the summary handler answers every request while the local year has four
    digits.  Neither is left without a response by an exception of the date
    helper. *)
Theorem list_and_summary_respond (tza : Z) (Json : Type)
  (store : nat -> Request -> Reply Json) (idOf : Json -> Z)
  (rowsOf : Json -> list Row) (emptyArray : Json) (now : Z) (req : Req Json) :
  - msPerDay < tza < msPerDay ->
  (exists r, fst (run (list_ tza Json store idOf emptyArray req)) = Some r)
  /\ (1000 <= getFullYear tza now <= 9999 ->
      exists r,
        fst (run (summaryMonth tza Json store idOf rowsOf now req)) = Some r).
Proof.
  intros Htz. split.
  - unfold run, list_, bind.
    destruct (getProfileIdByAuthId store idOf (user_id req) []) as [userId log].
    destruct (falsyNum userId); [eexists; reflexivity|].
    unfold listQuerySchema_safeParse.
    destruct (q_month (query req)) as [[m|]|]; cbn [zStringRegex];
      try (destruct (YM_test m) eqn:Hm);
      destruct (zStringRegex YMD_test (q_from (query req))) as [f|];
      destruct (zStringRegex YMD_test (q_to (query req))) as [t|];
      destruct (zKind (q_type (query req))) as [k|];
      try (eexists; reflexivity); cbn [l_month l_from l_to l_type truthyStr].
    + destruct (firstLastDayOfMonth_total tza m Htz Hm) as (p & Hp).
      destruct (negb (m =? "")%string); [rewrite Hp|];
        unfold await; cbn; destruct (error _); eexists; reflexivity.
    + unfold await; cbn; destruct (error _); eexists; reflexivity.
  - intros Hy. unfold run, summaryMonth, bind.
    destruct (getProfileIdByAuthId store idOf (user_id req) []) as [userId log].
    destruct (falsyNum userId); [eexists; reflexivity|].
    assert (Hok : YM_test (resolveMonth tza now (q_month (query req))) = true).
    { unfold resolveMonth.
      destruct (q_month (query req)) as [[m|]|];
        try (destruct (YM_test m) eqn:Hm; [exact Hm|]);
        rewrite (currentMonth_dec tza now Hy); apply YM_test_dec. }
    destruct (firstLastDayOfMonth_total tza _ Htz Hok) as (p & ->).
    unfold await; cbn. destruct (error _); eexists; reflexivity.
Qed.

Lemma list_and_summary_respond_witness :
  (exists r,
      fst (run (list_ 0 Example.J (Example.storeOf []) Example.idOf
                  (Example.JRows [])
                  (Example.request "u1" "" (Example.monthQuery "2024-13"))))
      = Some r)
  /\ (1000 <= getFullYear 0 Example.now <= 9999 ->
      exists r,
        fst (run (summaryMonth 0 Example.J (Example.storeOf []) Example.idOf
                    Example.rowsOf Example.now
                    (Example.request "u1" "" (Example.monthQuery "2024-13"))))
        = Some r).
Proof.
  apply (list_and_summary_respond 0 Example.J (Example.storeOf [])
           Example.idOf Example.rowsOf (Example.JRows []) Example.now
           (Example.request "u1" "" (Example.monthQuery "2024-13"))).
  unfold msPerDay. lia.
Defined.

(** ** The list handler *)

Lemma getProfile_log {Json} (store : nat -> Request -> Reply Json)
  (idOf : Json -> Z) (a : string) :
  snd (getProfileIdByAuthId store idOf a []) = [profileQuery a].
Proof.
  unfold getProfileIdByAuthId, bind, await. simpl. fold (profileQuery a).
  destruct (error (store 0%nat (profileQuery a)));
    [|destruct (data (store 0%nat (profileQuery a)))]; reflexivity.
Qed.

(** X6: a month that passes validation replaces the range: the list
    handler does with [from] and [to] parameters in the YYYY-MM-DD pattern
    what it does without them. *)
Theorem month_overrides_range (tza : Z) (Json : Type)
  (store : nat -> Request -> Reply Json) (idOf : Json -> Z)
  (emptyArray : Json) (req : Req Json) (m : string) :
  q_month (query req) = Some (QString m) ->
  YM_test m = true ->
  zStringRegex YMD_test (q_from (query req)) <> None ->
  zStringRegex YMD_test (q_to (query req)) <> None ->
  run (list_ tza Json store idOf emptyArray req)
  = run (list_ tza Json store idOf emptyArray (withoutRange req)).
Proof.
  intros Hm Hok Hf Ht. unfold run, list_, bind. cbn [withoutRange user_id query].
  destruct (getProfileIdByAuthId store idOf (user_id req) []) as [userId log].
  destruct (falsyNum userId); [reflexivity|].
  unfold listQuerySchema_safeParse. cbn [q_month q_from q_to q_type].
  rewrite Hm. cbn [zStringRegex]. rewrite Hok.
  destruct (zStringRegex YMD_test (q_from (query req))) as [f|]; [|contradiction].
  destruct (zStringRegex YMD_test (q_to (query req))) as [t|]; [|contradiction].
  destruct (zKind (q_type (query req))) as [k|]; [|reflexivity].
  cbn [l_month l_from l_to l_type truthyStr].
  assert (Hne : negb (m =? "")%string = true).
  { destruct (String.eqb_spec m ""); [subst m; discriminate Hok | reflexivity]. }
  rewrite Hne. reflexivity.
Qed.

Lemma month_overrides_range_witness :
  let q := {| q_month := Some (QString "2024-02");
              q_from := Some (QString "1999-01-01");
              q_to := Some (QString "1999-12-31"); q_type := None |} in
  run (list_ 0 Example.J (Example.storeOf Example.threeCategories)
         Example.idOf (Example.JRows []) (Example.request "u1" "" q))
  = run (list_ 0 Example.J (Example.storeOf Example.threeCategories)
           Example.idOf (Example.JRows [])
           (Example.request "u1" "" (Example.monthQuery "2024-02"))).
Proof.
  intros q.
  apply (month_overrides_range 0 Example.J
           (Example.storeOf Example.threeCategories) Example.idOf
           (Example.JRows []) (Example.request "u1" "" q) "2024-02").
  - reflexivity.
  - reflexivity.
  - discriminate.
  - discriminate.
Defined.

(** ** Owner isolation of the reads *)

Lemma addFilter_table (f : Filter) (q : Request) : table (addFilter f q) = table q.
Proof. reflexivity. Qed.

Lemma addFilter_filters (f : Filter) (q : Request) :
  filters (addFilter f q) = (filters q ++ [f])%list.
Proof. reflexivity. Qed.

Lemma addFilter_client (f : Filter) (q : Request) : client (addFilter f q) = client q.
Proof. reflexivity. Qed.

(** X7: every query the list and the summary handlers send to the
    transaction table goes through the anonymous client and is filtered by
    the profile of the caller as [user_id]. *)
Theorem reads_filter_by_owner (tza : Z) (Json : Type)
  (store : nat -> Request -> Reply Json) (idOf : Json -> Z)
  (rowsOf : Json -> list Row) (emptyArray : Json) (now : Z)
  (req : Req Json) (uid : Z) (q : Request) :
  profileFound store idOf (user_id req) uid ->
  In q (snd (run (list_ tza Json store idOf emptyArray req)))
  \/ In q (snd (run (summaryMonth tza Json store idOf rowsOf now req))) ->
  table q = "transaction" ->
  In (Feq "user_id" (VNum (Some uid))) (filters q) /\ client q = Anon.
Proof.
  intros Hprofile Hin Ht.
  destruct (getProfile_found store idOf _ _ Hprofile) as [Hget Hfalsy].
  destruct Hin as [Hin|Hin]; revert Hin.
  - unfold run, list_, bind. rewrite Hget, Hfalsy.
    destruct (listQuerySchema_safeParse (query req)) as [issues|parsed].
    { simpl. intros [<-|[]]. discriminate Ht. }
    destruct (if truthyStr (l_month parsed) then _ else _) as [[f t]|].
    2:{ simpl. intros [<-|[]]. discriminate Ht. }
    unfold await. cbn [fst snd].
    match goal with
    | |- context [store _ ?Q] => set (query := Q)
    end.
    assert (Hq : In (Feq "user_id" (VNum (Some uid))) (filters query)
                 /\ client query = Anon).
    { subst query.
      destruct (truthyStr f), (truthyStr t), (truthyStr (l_type parsed));
        unfold gte, lte, eq_; rewrite ?addFilter_filters, ?addFilter_client;
        cbn; auto 10. }
    destruct (error (store _ query)); cbn [snd app];
      intros [<-|[<-|[]]]; solve [discriminate Ht | exact Hq].
  - rewrite (surjective_pairing (run _)).
    unfold run, summaryMonth, bind. rewrite Hget, Hfalsy.
    destruct (firstLastDayOfMonth tza _) as [p|].
    2:{ simpl. intros [<-|[]]. discriminate Ht. }
    unfold await. cbn [fst snd].
    destruct (error _); cbn; intros [<-|[<-|[]]];
      solve [discriminate Ht | cbn; auto].
Qed.

Lemma reads_filter_by_owner_witness :
  In (Feq "user_id" (VNum (Some 7))) (filters (summaryQuery 7 {| from := "2024-02-01"; to := "2024-02-29" |}))
  /\ client (summaryQuery 7 {| from := "2024-02-01"; to := "2024-02-29" |}) = Anon.
Proof.
  apply (reads_filter_by_owner 0 Example.J (Example.storeOf []) Example.idOf
           Example.rowsOf (Example.JRows []) Example.now
           (Example.request "u1" "" (Example.monthQuery "2024-02")) 7).
  - exists (Example.JProfile 7). repeat split. discriminate.
  - right. cbn. right. left. reflexivity.
  - reflexivity.
Defined.

(** ** A caller without a profile *)

Lemma profileQuery_table (a : string) : table (profileQuery a) = "user_profile".
Proof. reflexivity. Qed.

Lemma getProfile_run {Json} (store : nat -> Request -> Reply Json)
  (idOf : Json -> Z) (a : string) :
  getProfileIdByAuthId store idOf a []
  = (fst (getProfileIdByAuthId store idOf a []), [profileQuery a]).
Proof.
  rewrite <- (getProfile_log store idOf a). apply surjective_pairing.
Qed.

(** X8: when the profile lookup comes back empty, the four transaction
    handlers that reach it answer 404 and send nothing to the transaction
    table: no row is read, updated or deleted. *)
Theorem no_profile_no_access (tza : Z) (Json : Type)
  (store : nat -> Request -> Reply Json) (idOf : Json -> Z)
  (rowsOf : Json -> list Row) (emptyArray : Json)
  (Number_ : string -> option Z) (parse : Json -> list string + TxPatch)
  (now : Z) (req : Req Json) :
  profileMissing store idOf (user_id req) ->
  let notFound := status_json 404 (BDetail "Perfil no encontrado") in
  run (list_ tza Json store idOf emptyArray req)
  = (Some notFound, [profileQuery (user_id req)])
  /\ run (summaryMonth tza Json store idOf rowsOf now req)
     = (Some notFound, [profileQuery (user_id req)])
  /\ (forall n patch,
        Number_ (params_id req) = Some n -> parse (req_body req) = inr patch ->
        run (Transactions.patch Json store idOf Number_ parse req)
        = (notFound, [profileQuery (user_id req)]))
  /\ (forall n,
        Number_ (params_id req) = Some n ->
        run (Transactions.delete Json store idOf Number_ req)
        = (notFound, [profileQuery (user_id req)]))
  /\ untouched "transaction" [profileQuery (user_id req)].
Proof.
  intros Hmiss. unfold profileMissing in Hmiss. cbv zeta.
  pose proof (getProfile_run store idOf (user_id req)) as Hrun.
  split; [|split; [|split; [|split]]].
  - unfold run, list_, bind. rewrite Hrun, Hmiss. reflexivity.
  - unfold run, summaryMonth, bind. rewrite Hrun, Hmiss. reflexivity.
  - intros n patch Hn Hp. unfold run, Transactions.patch, bind.
    rewrite Hn, Hp, Hrun, Hmiss. reflexivity.
  - intros n Hn. unfold run, Transactions.delete, bind.
    rewrite Hn, Hrun, Hmiss. reflexivity.
  - intros q [<-|[]]. discriminate.
Qed.

Lemma no_profile_no_access_witness :
  let store (n : nat) (q : Request) : Reply Example.J :=
    {| data := None; error := Some {| message := "no rows" |} |} in
  run (summaryMonth 0 Example.J store Example.idOf Example.rowsOf Example.now
         (Example.request "u1" "" Example.noQuery))
  = (Some (status_json 404 (BDetail "Perfil no encontrado")), [profileQuery "u1"]).
Proof.
  intros store.
  apply (no_profile_no_access 0 Example.J store Example.idOf Example.rowsOf
           (Example.JRows []) (fun _ => None) (fun _ => inl [])
           Example.now (Example.request "u1" "" Example.noQuery)).
  reflexivity.
Defined.

(** ** Validation before the store *)

(** X9: a transaction PATCH whose id is not a number or whose body fails
    the schema is answered 400 before anything is sent to the store, and so
    is a DELETE whose id is not a number: the log stays empty. *)
Theorem tx_mutation_validates_first (Json : Type)
  (store : nat -> Request -> Reply Json) (idOf : Json -> Z)
  (Number_ : string -> option Z) (parse : Json -> list string + TxPatch)
  (req : Req Json) :
  Number_ (params_id req) = None
  \/ (exists issues, parse (req_body req) = inl issues) ->
  status (fst (run (Transactions.patch Json store idOf Number_ parse req))) = 400
  /\ snd (run (Transactions.patch Json store idOf Number_ parse req)) = []
  /\ (Number_ (params_id req) = None ->
      run (Transactions.delete Json store idOf Number_ req)
      = (status_json 400 (BDetail "id inválido"), [])).
Proof.
  intros H. unfold run, Transactions.patch, Transactions.delete.
  destruct (Number_ (params_id req)) as [n|].
  - destruct H as [H|[issues H]]; [discriminate H|].
    rewrite H. repeat split. discriminate.
  - repeat split.
Qed.

Lemma tx_mutation_validates_first_witness :
  status (fst (run (Transactions.patch Example.J (Example.storeOf [])
                      Example.idOf (fun _ => None) (fun _ => inl [])
                      (Example.request "u1" "abc" Example.noQuery)))) = 400
  /\ snd (run (Transactions.patch Example.J (Example.storeOf [])
                 Example.idOf (fun _ => None) (fun _ => inl [])
                 (Example.request "u1" "abc" Example.noQuery))) = []
  /\ ((fun _ : string => @None Z) "abc" = None ->
      run (Transactions.delete Example.J (Example.storeOf []) Example.idOf
             (fun _ => None) (Example.request "u1" "abc" Example.noQuery))
      = (status_json 400 (BDetail "id inválido"), [])).
Proof.
  apply (tx_mutation_validates_first Example.J (Example.storeOf [])
           Example.idOf (fun _ => None) (fun _ => inl [])
           (Example.request "u1" "abc" Example.noQuery)).
  left. reflexivity.
Defined.

(** ** The summary and the order of the rows *)





(** ** Nothing is counted twice *)

Lemma sumValues_set (k a : Z) (m : JSMap) :
  fold_right (fun e s => snd e + s) 0
    (map_set k (match map_get k m with Some t => t | None => 0 end + a) m)
  = fold_right (fun e s => snd e + s) 0 m + a.
Proof.
  induction m as [|[k' v'] m IH]; simpl; [lia|].
  destruct (k' =? k); simpl; lia.
Qed.

Lemma fold_step_sumValues (rows : list Row) (a : Totals) :
  fold_right (fun e s => snd e + s) 0 (t_byCat (fold_left step rows a))
  = fold_right (fun e s => snd e + s) 0 (t_byCat a)
    + sumAmounts (filter hasCategory rows).
Proof.
  revert a. induction rows as [|r rows IH]; intros a; simpl; [lia|].
  rewrite IH. unfold step at 1, hasCategory at 2. simpl.
  destruct (category_id r) as [c|]; simpl; [rewrite sumValues_set|]; lia.
Qed.

Lemma sumTotals_perm (l l' : list CatTotal) :
  Permutation l l' -> sumTotals l = sumTotals l'.
Proof. induction 1; simpl; lia. Qed.

(** ** The authentication middleware *)

Lemma substring_all (s : string) : substring 0 (String.length s) s = s.
Proof. induction s as [|c s IH]; simpl; [reflexivity|]. now rewrite IH. Qed.

Lemma dropPrefix_spec (p s rest : string) :
  dropPrefix p s = Some rest <-> s = p ++ rest.
Proof.
  revert s. induction p as [|a p IH]; intros s; simpl.
  - split; [intros [= ->]; reflexivity | intros ->; reflexivity].
  - destruct s as [|b s]; [split; discriminate|].
    destruct (Ascii.eqb_spec a b) as [->|Hne].
    + rewrite IH. split; [intros ->; reflexivity | intros [= ->]; reflexivity].
    + split; [discriminate | intros [= E _]; congruence].
Qed.

(** [startsWith] and [slice] together take the prefix off. *)
Lemma prefix_slice (p s : string) :
  (if prefix p s
   then Some (substring (String.length p) (String.length s - String.length p) s)
   else None)
  = dropPrefix p s.
Proof.
  revert s. induction p as [|a p IH]; intros s.
  - destruct s; simpl; [reflexivity|].
    now rewrite substring_all.
  - destruct s as [|b s]; [reflexivity|]. simpl.
    destruct (ascii_dec a b) as [->|Hne].
    + rewrite Ascii.eqb_refl. apply IH.
    + apply Ascii.eqb_neq in Hne. now rewrite Hne.
Qed.

Lemma bearerToken_dropPrefix (auth : string) :
  AuthPrefix.bearerToken auth = dropPrefix "Bearer " auth.
Proof. exact (prefix_slice "Bearer " auth). Qed.

Lemma noLineTerminator_app (a b : string) :
  noLineTerminator (a ++ b) = noLineTerminator a && noLineTerminator b.
Proof.
  induction a as [|c a IH]; simpl; [reflexivity|].
  now rewrite IH, andb_assoc.
Qed.

Lemma orEmpty_eq (h : option string) (p t : string) :
  p <> "" -> orEmpty h = p ++ t -> h = Some (p ++ t).
Proof.
  destruct h as [s|]; simpl; [now intros _ ->|].
  destruct p; [congruence | discriminate].
Qed.

(** X12: the middleware hands a request on exactly when its
    [Authorization] header is [Bearer] followed by a token that is not
    empty and that Supabase answers with a user and no error; [req.user] is
    that user, and nothing but that token is ever sent to Supabase. *)
Theorem requireAuth_passes_iff (User : Type)
  (getUser : string -> GetUserReply User) (h : option string)
  (u : User) (tk : option string) :
  (fst (AuthPrefix.requireAuth User getUser h) = Next u tk
   <-> tk = None
       /\ exists t, h = Some ("Bearer " ++ t) /\ t <> ""
                    /\ au_error (getUser t) = None
                    /\ au_user (getUser t) = Some u)
  /\ (forall t, In t (snd (AuthPrefix.requireAuth User getUser h)) ->
                t <> "" /\ h = Some ("Bearer " ++ t)).
Proof.
  unfold AuthPrefix.requireAuth, AuthPrefix.getUserFromToken.
  rewrite bearerToken_dropPrefix.
  destruct (dropPrefix "Bearer " (orEmpty h)) as [t|] eqn:Hd.
  - apply dropPrefix_spec in Hd. apply orEmpty_eq in Hd; [|discriminate].
    cbn [truthyStr orEmpty].
    destruct (String.eqb_spec t "") as [->|Hne]; cbn [negb].
    + split.
      * split; [discriminate|].
        intros (_ & t' & Ht' & Hne' & _). rewrite Hd in Ht'.
        injection Ht' as <-. congruence.
      * intros t' [].
    + split.
      * destruct (au_error (getUser t)) as [e|] eqn:He;
          [|destruct (au_user (getUser t)) as [u'|] eqn:Hu]; cbn [fst].
        -- split; [discriminate|].
           intros (_ & t' & Ht' & _ & He' & _). rewrite Hd in Ht'.
           injection Ht' as <-. congruence.
        -- split.
           ++ intros [= <- <-]. split; [reflexivity|]. exists t. auto.
           ++ intros (-> & t' & Ht' & _ & _ & Hu'). rewrite Hd in Ht'.
              injection Ht' as <-. congruence.
        -- split; [discriminate|].
           intros (_ & t' & Ht' & _ & _ & Hu'). rewrite Hd in Ht'.
           injection Ht' as <-. congruence.
      * intros t' Hin.
        assert (t' = t).
        { destruct (au_error (getUser t)); [|destruct (au_user (getUser t))];
            simpl in Hin; destruct Hin as [<-|[]]; reflexivity. }
        subst t'. auto.
  - cbn [truthyStr negb fst snd]. split.
    + split; [discriminate|].
      intros (_ & t & Ht & _). subst h. simpl in Hd. discriminate Hd.
    + intros t [].
Qed.

(** X13: on a header without line breaks the two variants of the
    middleware do the same: the same answer, the same user and the same
    token sent to Supabase.  The first variant also keeps the token it sent
    as [req.token]. *)
Theorem requireAuth_variants_agree (User : Type)
  (getUser : string -> GetUserReply User) (h : option string) :
  noLineTerminator (orEmpty h) = true ->
  forgetToken (fst (AuthRegex.requireAuth User getUser h))
  = fst (AuthPrefix.requireAuth User getUser h)
  /\ snd (AuthRegex.requireAuth User getUser h)
     = snd (AuthPrefix.requireAuth User getUser h)
  /\ (forall u tk,
        fst (AuthRegex.requireAuth User getUser h) = Next u tk ->
        exists t, tk = Some t
                  /\ snd (AuthRegex.requireAuth User getUser h) = [t]).
Proof.
  intros Hnl.
  unfold AuthRegex.requireAuth, AuthRegex.matchBearer, AuthPrefix.requireAuth,
    AuthPrefix.getUserFromToken.
  rewrite bearerToken_dropPrefix.
  destruct (dropPrefix "Bearer " (orEmpty h)) as [t|] eqn:Hd.
  - pose proof Hd as Hs. apply dropPrefix_spec in Hs.
    rewrite Hs, noLineTerminator_app in Hnl.
    apply andb_true_iff in Hnl as [_ Hnl]. rewrite Hnl, andb_true_r.
    cbn [truthyStr orEmpty].
    destruct (negb (t =? "")%string); cbn [negb].
    + destruct (au_error (getUser t)) as [e|];
        [|destruct (au_user (getUser t)) as [usr|]];
        cbn [fst snd forgetToken]; repeat split; try discriminate.
      intros u' tk [= <- <-]. exists t. auto.
    + cbn [fst snd forgetToken]. repeat split. discriminate.
  - cbn [truthyStr negb fst snd forgetToken]. repeat split. discriminate.
Qed.

Lemma requireAuth_variants_agree_witness :
  let getUser (t : string) : GetUserReply Z :=
    if String.eqb t "abc" then {| au_user := Some 7; au_error := None |}
    else {| au_user := None; au_error := Some {| message := "invalid JWT" |} |} in
  forgetToken (fst (AuthRegex.requireAuth Z getUser (Some "Bearer abc")))
  = fst (AuthPrefix.requireAuth Z getUser (Some "Bearer abc"))
  /\ snd (AuthRegex.requireAuth Z getUser (Some "Bearer abc"))
     = snd (AuthPrefix.requireAuth Z getUser (Some "Bearer abc"))
  /\ (forall u tk,
        fst (AuthRegex.requireAuth Z getUser (Some "Bearer abc")) = Next u tk ->
        exists t, tk = Some t
                  /\ snd (AuthRegex.requireAuth Z getUser (Some "Bearer abc")) = [t]).
Proof.
  intros getUser.
  apply (requireAuth_variants_agree Z getUser (Some "Bearer abc")).
  reflexivity.
Defined.

(** A token with a line feed in it: the first variant answers 401 without
    asking Supabase, the second sends the token on. *)
Example requireAuth_variants_differ :
  let getUser (t : string) : GetUserReply Z :=
    {| au_user := Some 7; au_error := None |} in
  let h := Some ("Bearer a" ++ String (ascii_of_nat 10) "b") in
  AuthRegex.requireAuth Z getUser h = (Reject 401 "Falta token", [])
  /\ AuthPrefix.requireAuth Z getUser h
     = (Next 7 None, ["a" ++ String (ascii_of_nat 10) "b"]).
Proof. split; reflexivity. Qed.

(** ** Creating a transaction *)

Lemma liftQ_getProfile {Json} (storeC : nat -> Call -> Reply Json)
  (idOf : Json -> Z) (a : string) :
  liftQ storeC (fun st => getProfileIdByAuthId st idOf a) []
  = (fst (getProfileIdByAuthId (queryStore storeC 0) idOf a []),
     [CQuery (profileQuery a)]).
Proof.
  unfold liftQ. cbn [List.length].
  rewrite (getProfile_run (queryStore storeC 0) idOf a). reflexivity.
Qed.

(** X15: POST /api/transactions inserts nothing for a body that fails the
    schema, which is answered 400 before any call to the store, nor for a
    caller whose profile lookup comes back empty, who is answered 404. *)
Theorem create_without_insert (tza : Z) (Json : Type)
  (storeC : nat -> Call -> Reply Json) (idOf : Json -> Z)
  (parse : Json -> list string + TxCreate) (now : Z) (req : Req Json) :
  (exists issues, parse (req_body req) = inl issues)
  \/ profileMissing (queryStore storeC 0) idOf (user_id req) ->
  (forall issues, parse (req_body req) = inl issues ->
     runC (TransactionsPost.create tza Json storeC idOf parse now req)
     = (status_json 400 (BIssues issues), []))
  /\ (forall parsed, parse (req_body req) = inr parsed ->
        runC (TransactionsPost.create tza Json storeC idOf parse now req)
        = (status_json 404 (BDetail "Perfil no encontrado"),
           [CQuery (profileQuery (user_id req))]))
  /\ (forall i,
        ~ In (CInsert i)
            (snd (runC (TransactionsPost.create tza Json storeC idOf parse
                          now req)))).
Proof.
  intros H. unfold runC, TransactionsPost.create, bindC.
  destruct (parse (req_body req)) as [issues|parsed].
  - split; [|split].
    + intros issues' [= <-]. reflexivity.
    + intros parsed' [=].
    + intros i [].
  - destruct H as [[issues H]|H]; [discriminate H|].
    unfold profileMissing in H. rewrite liftQ_getProfile. cbn [fst]. rewrite H.
    split; [|split].
    + intros issues [=].
    + intros parsed' _. reflexivity.
    + intros i [Hin|[]]. discriminate Hin.
Qed.

Lemma create_without_insert_witness :
  let storeC (n : nat) (c : Call) : Reply Example.J :=
    {| data := Some (Example.JProfile 7); error := None |} in
  runC (TransactionsPost.create 0 Example.J storeC Example.idOf
          (fun _ => inl ["amount"]) Example.now
          (Example.request "u1" "" Example.noQuery))
  = (status_json 400 (BIssues ["amount"]), []).
Proof.
  intros storeC.
  apply (create_without_insert 0 Example.J storeC Example.idOf
           (fun _ => inl ["amount"]) Example.now
           (Example.request "u1" "" Example.noQuery)).
  - left. exists ["amount"]. reflexivity.
  - reflexivity.
Defined.

(** ** Goals of the caller *)

(** X16: GET /api/goals reads only the goals of the caller: its one query
    to the goal table is filtered by the caller's profile as [user_id];
    POST /api/goals inserts a goal of the caller with nothing saved yet
    ([current_amount] 0). *)
Theorem goals_bound_to_caller (Json : Type)
  (store : nat -> Request -> Reply Json) (storeC : nat -> Call -> Reply Json)
  (idOf : Json -> Z) (parse : Json -> list string + GoalCreate)
  (req : Req Json) (uid : Z) (parsed : GoalCreate) :
  profileFound store idOf (user_id req) uid ->
  profileFound (queryStore storeC 0) idOf (user_id req) uid ->
  parse (req_body req) = inr parsed ->
  (exists q,
      snd (run (GoalsEntry.list_ Json store idOf req))
      = [profileQuery (user_id req); q]
      /\ table q = "financial_goal"
      /\ filters q = [Feq "user_id" (VNum (Some uid))])
  /\ (exists p,
        snd (runC (GoalsEntry.create Json storeC idOf parse req))
        = [CQuery (profileQuery (user_id req));
           CInsert {| i_client := Anon; i_table := "financial_goal";
                      i_payload := PGoal p; i_returning := Some "*";
                      i_single := true |}]
        /\ gp_user_id p = Some uid /\ gp_current_amount p = 0).
Proof.
  intros Hprofile HprofileC Hparse.
  destruct (getProfile_found _ idOf _ _ Hprofile) as [Hget Hfalsy].
  destruct (getProfile_found _ idOf _ _ HprofileC) as [HgetC _].
  split.
  - unfold run, GoalsEntry.list_, bind. rewrite Hget, Hfalsy.
    unfold await. cbn [List.length app].
    eexists. split; [destruct (error _); cbn [snd]; reflexivity|].
    split; reflexivity.
  - unfold runC, GoalsEntry.create, bindC.
    rewrite liftQ_getProfile, HgetC. cbn [fst]. rewrite Hfalsy, Hparse.
    unfold awaitC. cbn [List.length app].
    eexists. split; [destruct (error _); cbn [snd]; reflexivity|].
    split; reflexivity.
Qed.

Lemma goals_bound_to_caller_witness :
  let store (n : nat) (q : Request) : Reply Example.J :=
    {| data := Some (Example.JProfile 7); error := None |} in
  let storeC (n : nat) (c : Call) : Reply Example.J :=
    {| data := Some (Example.JProfile 7); error := None |} in
  let parsed := {| gc_title := "Viaje"; gc_description := None;
                   gc_target_amount := 500; gc_deadline := None |} in
  let req := Example.request "u1" "" Example.noQuery in
  (exists q,
      snd (run (GoalsEntry.list_ Example.J store Example.idOf req))
      = [profileQuery "u1"; q]
      /\ table q = "financial_goal"
      /\ filters q = [Feq "user_id" (VNum (Some 7))])
  /\ (exists p,
        snd (runC (GoalsEntry.create Example.J storeC Example.idOf
                     (fun _ => inr parsed) req))
        = [CQuery (profileQuery "u1");
           CInsert {| i_client := Anon; i_table := "financial_goal";
                      i_payload := PGoal p; i_returning := Some "*";
                      i_single := true |}]
        /\ gp_user_id p = Some 7 /\ gp_current_amount p = 0).
Proof.
  intros store storeC parsed req.
  apply (goals_bound_to_caller Example.J store storeC Example.idOf
           (fun _ => inr parsed) req 7 parsed).
  - exists (Example.JProfile 7). repeat split. discriminate.
  - exists (Example.JProfile 7). repeat split. discriminate.
  - reflexivity.
Defined.

(** ** Summaries of parts and bounds *)

Lemma sumAmounts_app (a b : list Row) :
  sumAmounts (a ++ b) = sumAmounts a + sumAmounts b.
Proof. induction a as [|r a IH]; simpl; lia. Qed.

Lemma sumAmounts_nonneg (rows : list Row) :
  Forall (fun r => 0 <= amount r) rows -> 0 <= sumAmounts rows.
Proof. induction 1; simpl; lia. Qed.

Lemma Forall_filter {A} (P : A -> Prop) (f : A -> bool) (l : list A) :
  Forall P l -> Forall P (filter f l).
Proof.
  induction 1; simpl; [constructor|]. destruct (f x); auto.
Qed.

Lemma find_In_NoDup (c t : Z) (l : list CatTotal) :
  NoDup (map ct_category_id l) ->
  In {| ct_category_id := c; total := t |} l ->
  find (fun x => ct_category_id x =? c) l
  = Some {| ct_category_id := c; total := t |}.
Proof.
  induction l as [|x l IH]; simpl; [intros _ []|].
  intros Hnd [->|Hin].
  - simpl. now rewrite Z.eqb_refl.
  - inversion Hnd as [|? ? Hnotin Hnd']; subst.
    destruct (Z.eqb_spec (ct_category_id x) c) as [E|E]; [|auto].
    exfalso. apply Hnotin. rewrite E.
    change c with (ct_category_id {| ct_category_id := c; total := t |}).
    now apply in_map.
Qed.

Lemma find_none_not_In (c : Z) (l : list CatTotal) :
  find (fun x => ct_category_id x =? c) l = None ->
  forall t, ~ In {| ct_category_id := c; total := t |} l.
Proof.
  intros H t Hin. apply (find_none _ _ H) in Hin. simpl in Hin.
  now rewrite Z.eqb_refl in Hin.
Qed.

(** The total of a category in the summary is the sum of the amounts of
    the rows that carry it, listed or not. *)
Lemma totalOf_byCategory (month : string) (p : Period) (rows : list Row) (c : Z) :
  totalOf c (byCategory (summarize month p rows))
  = sumAmounts (filter (inCategory c) rows).
Proof.
  unfold totalOf.
  destruct (existsb (inCategory c) rows) eqn:He.
  - assert (Hin : In {| ct_category_id := c;
                        total := sumAmounts (filter (inCategory c) rows) |}
                    (byCategory (summarize month p rows))).
    { apply byCategory_In. rewrite loop_get, He. reflexivity. }
    rewrite (find_In_NoDup _ _ _ (byCategory_keys_NoDup month p rows) Hin).
    reflexivity.
  - destruct (find _ _) as [[c' t]|] eqn:Hf.
    + apply find_some in Hf as [Hin Hc]. simpl in Hc.
      apply Z.eqb_eq in Hc. subst c'.
      apply byCategory_In in Hin. rewrite loop_get, He in Hin. discriminate.
    + assert (Hnone : filter (inCategory c) rows = []).
      { clear Hf. induction rows as [|r rows IH]; [reflexivity|].
        simpl in He. apply orb_false_iff in He as [Hr He].
        simpl. rewrite Hr. auto. }
      now rewrite Hnone.
Qed.


(** ** Zones with a changing offset *)

Lemma MakeDay_bounds_wide (y m dt : Z) :
  0 <= y <= 10100 -> 0 <= m <= 11 -> 1 <= dt <= 31 ->
  - 720000 <= MakeDay y m dt <= 2980000.
Proof.
  intros Hy Hm Hdt. unfold MakeDay.
  month_cases m; calc; destruct (isLeapYear y); calc;
    unfold DayFromYear; Z.div_mod_to_equations; lia.
Qed.

Lemma slice_expanded (sign : string) (y m : Z) (rest : string) :
  String.length sign = 1%nat ->
  slice0 10 (sign ++ dec6 y ++ "-" ++ dec2 m ++ "-" ++ rest)
  = sign ++ dec6 y ++ "-" ++ dec2 m.
Proof.
  destruct sign as [|c [|c' sign]]; try discriminate. intros _.
  unfold slice0, dec6, dec4, dec3, dec2. cbn [append substring].
  reflexivity.
Qed.

(** The date part of the ISO string of a day beyond year 9999: the first
    ten characters end with the month. *)
Lemma fmt_day_expanded (t y m dt : Z) :
  10000 <= y <= 10100 -> 0 <= m <= 11 -> 1 <= dt <= daysInMonth y (m + 1) ->
  Day t = MakeDay y m dt ->
  option_map (fun t => slice0 10 (toISOString t)) (TimeClip t)
  = Some ("+" ++ dec6 y ++ "-" ++ dec2 (m + 1)).
Proof.
  intros Hy Hm Hdt Hday.
  pose proof (daysInMonth_bounds y (m + 1)) as Hb.
  pose proof (MakeDay_bounds_wide y m dt ltac:(lia) Hm ltac:(lia)) as HD.
  destruct (fields_of_MakeDay t y m dt Hm Hdt Hday) as (HY & HM & HDt).
  assert (Hclip : TimeClip t = Some t).
  { unfold TimeClip.
    destruct (Z.leb_spec (Z.abs t) 8640000000000000) as [|Hbig]; [reflexivity|].
    exfalso. revert Hbig. rewrite <- Hday in HD. revert HD.
    unfold Day, msPerDay. intros HD. Z.div_mod_to_equations. lia. }
  rewrite Hclip. simpl. f_equal. unfold toISOString.
  rewrite HY, HM, HDt.
  replace ((0 <=? y) && (y <=? 9999)) with false
    by (symmetry; apply andb_false_iff; right; apply Z.leb_gt; lia).
  replace (y <? 0) with false by (symmetry; apply Z.ltb_ge; lia).
  rewrite Z.abs_eq by lia.
  apply (slice_expanded "+" y (m + 1)). reflexivity.
Qed.

Lemma leb_refl (s : string) : String.leb s s = true.
Proof.
  unfold String.leb.
  replace (String.compare s s) with Eq; [reflexivity|].
  induction s as [|c s IH]; simpl; [reflexivity|].
  unfold Ascii.compare. now rewrite N.compare_refl.
Qed.

Lemma counted_bounds (s : string) :
  YM_test s = true ->
  99 <= countedYear s <= 10007 /\ 1 <= countedMonth s <= 12.
Proof.
  intros Hs. destruct (YM_token_facts s Hs) as (_ & _ & Hy & Hm).
  unfold countedYear, countedMonth, dateYear.
  destruct (Z.leb_spec 0 (tokenYear s)), (Z.leb_spec (tokenYear s) 99);
    cbn [andb]; split; Z.div_mod_to_equations; lia.
Qed.

Lemma Day_zoned_midnight (zone : Zone) (D : Z) :
  neverEast zone ->
  Day (Zoned.UTC zone (MakeDate D (MakeTime 0 0 0 0))) = D.
Proof.
  intros Hz. exact (Day_local_midnight (atLocal zone _) D (Hz _)).
Qed.

(** In a zone never east of UTC, a token resolves to the first and the last
    day of the month its digits count to; past year 9999 the ISO string has
    a sign and six digits of year, and its first ten characters stop at the
    month. *)
Lemma firstLastDayOfMonth_counted (zone : Zone) (s : string) :
  neverEast zone ->
  YM_test s = true ->
  let Y := countedYear s in
  let M := countedMonth s in
  Zoned.firstLastDayOfMonth zone s
  = Some (if Y <=? 9999
          then {| from := dec4 Y ++ "-" ++ dec2 M ++ "-01";
                  to := dec4 Y ++ "-" ++ dec2 M ++ "-"
                        ++ dec2 (daysInMonth Y M) |}
          else {| from := "+" ++ dec6 Y ++ "-" ++ dec2 M;
                  to := "+" ++ dec6 Y ++ "-" ++ dec2 M |}).
Proof.
  intros Hz Hs Y M.
  destruct (counted_bounds s Hs) as [HY HM].
  destruct (YM_token_facts s Hs) as (Hsplit & _ & _ & _).
  fold Y in HY. fold M in HM.
  unfold Zoned.firstLastDayOfMonth. rewrite Hsplit. cbn [nth option_map].
  unfold Zoned.newDate. fold (dateYear (tokenYear s)).
  rewrite (MakeDay_norm (dateYear (tokenYear s)) (tokenMonth s - 1) 1).
  rewrite (MakeDay_norm_zero (dateYear (tokenYear s)) (tokenMonth s)).
  change (dateYear (tokenYear s) + (tokenMonth s - 1) / 12) with Y.
  change ((tokenMonth s - 1) mod 12 + 1) with M.
  replace ((tokenMonth s - 1) mod 12) with (M - 1)
    by (unfold M, countedMonth; lia).
  rewrite (MakeDay_zero Y M HM).
  pose proof (daysInMonth_bounds Y M) as Hb.
  destruct (Z.leb_spec Y 9999) as [Hsmall|Hbig].
  - rewrite (fmt_day _ Y (M - 1) 1 ltac:(lia) ltac:(lia)
               ltac:(replace (M - 1 + 1) with M by lia; lia)
               (Day_zoned_midnight zone _ Hz)).
    rewrite (fmt_day _ Y (M - 1) (daysInMonth Y M) ltac:(lia) ltac:(lia)
               ltac:(replace (M - 1 + 1) with M by lia; lia)
               (Day_zoned_midnight zone _ Hz)).
    replace (M - 1 + 1) with M by lia.
    unfold dec4, dec3, dec2. cbn [append]. reflexivity.
  - rewrite (fmt_day_expanded _ Y (M - 1) 1 ltac:(lia) ltac:(lia)
               ltac:(replace (M - 1 + 1) with M by lia; lia)
               (Day_zoned_midnight zone _ Hz)).
    rewrite (fmt_day_expanded _ Y (M - 1) (daysInMonth Y M) ltac:(lia)
               ltac:(lia)
               ltac:(replace (M - 1 + 1) with M by lia; lia)
               (Day_zoned_midnight zone _ Hz)).
    replace (M - 1 + 1) with M by lia. reflexivity.
Qed.

Lemma newYork_neverEast : neverEast newYork.
Proof.
  intros t. unfold newYork, atLocal, msPerDay.
  destruct (_ && _); lia.
Qed.

(** With one offset at all dates the zoned functions are those of
    [JSDate] and [Transactions]. *)
Lemma Zoned_fixedZone (tza : Z) :
  (forall y m d, Zoned.newDate (fixedZone tza) y m d = newDate tza y m d)
  /\ (forall s, Zoned.firstLastDayOfMonth (fixedZone tza) s
                = firstLastDayOfMonth tza s)
  /\ (forall now, Zoned.todayYmd (fixedZone tza) now = todayYmd tza now)
  /\ (forall now m, Zoned.resolveMonth (fixedZone tza) now m
                    = resolveMonth tza now m).
Proof. repeat split. Qed.

(** At one instant the zoned clock reads as [JSDate]'s does with the
    offset in force then. *)
Lemma Zoned_now (zone : Zone) (now : Z) :
  Zoned.getFullYear zone now = getFullYear (atUTC zone now) now
  /\ Zoned.getMonth zone now = getMonth (atUTC zone now) now
  /\ Zoned.getDate zone now = getDate (atUTC zone now) now
  /\ Zoned.currentMonth zone now = currentMonth (atUTC zone now) now
  /\ Zoned.todayYmd zone now = todayYmd (atUTC zone now) now.
Proof. repeat split. Qed.

(** X2: in a time zone that is on UTC or west of it at every date (its
    offset may change with daylight saving time), [firstLastDayOfMonth]
    resolves every token that passes the YYYY-MM test to the month its
    digits count to, under the rules of the [Date] constructor: a year
    [0000] to [0099] is 1900 to 1999, a month [00] is December of the year
    before, a month [13] to [99] runs on into the following years.  While
    that month lies in a year up to 9999 the period goes from its first to
    its last day; beyond (tokens [9999-13] to [9999-99]) both ends are the
    first ten characters of an ISO string with a six-digit year, that is
    [+01YYYY-MM] without a day. *)
Theorem firstLastDayOfMonth_rollover (zone : Zone) (s : string) :
  neverEast zone ->
  YM_test s = true ->
  let Y := countedYear s in
  let M := countedMonth s in
  Zoned.firstLastDayOfMonth zone s
  = Some (if Y <=? 9999
          then {| from := dec4 Y ++ "-" ++ dec2 M ++ "-01";
                  to := dec4 Y ++ "-" ++ dec2 M ++ "-"
                        ++ dec2 (daysInMonth Y M) |}
          else {| from := "+" ++ dec6 Y ++ "-" ++ dec2 M;
                  to := "+" ++ dec6 Y ++ "-" ++ dec2 M |}).
Proof. exact (firstLastDayOfMonth_counted zone s). Qed.

Lemma firstLastDayOfMonth_rollover_witness :
  Zoned.firstLastDayOfMonth newYork "2024-13"
  = Some {| from := "2025-01-01"; to := "2025-01-31" |}
  /\ Zoned.firstLastDayOfMonth newYork "2024-00"
     = Some {| from := "2023-12-01"; to := "2023-12-31" |}
  /\ Zoned.firstLastDayOfMonth newYork "0050-02"
     = Some {| from := "1950-02-01"; to := "1950-02-28" |}
  /\ Zoned.firstLastDayOfMonth newYork "9999-13"
     = Some {| from := "+010000-01"; to := "+010000-01" |}.
Proof.
  split; [|split; [|split]].
  - apply (firstLastDayOfMonth_rollover newYork "2024-13");
      [exact newYork_neverEast | reflexivity].
  - apply (firstLastDayOfMonth_rollover newYork "2024-00");
      [exact newYork_neverEast | reflexivity].
  - apply (firstLastDayOfMonth_rollover newYork "0050-02");
      [exact newYork_neverEast | reflexivity].
  - apply (firstLastDayOfMonth_rollover newYork "9999-13");
      [exact newYork_neverEast | reflexivity].
Defined.

(** X3: in a time zone that is on UTC or west of it at every date, the
    period a validated token resolves to has [from] not after [to] in the
    order of strings, the order the date filters are written for; and while
    the month the token counts to lies in a year up to 9999, both ends
    match YYYY-MM-DD (beyond, neither does). *)
Theorem period_from_le_to (zone : Zone) (s : string) (p : Period) :
  neverEast zone ->
  YM_test s = true ->
  Zoned.firstLastDayOfMonth zone s = Some p ->
  String.leb (from p) (to p) = true
  /\ (countedYear s <= 9999 ->
      YMD_test (from p) = true /\ YMD_test (to p) = true)
  /\ (9999 < countedYear s ->
      YMD_test (from p) = false /\ YMD_test (to p) = false).
Proof.
  intros Hz Hs Hp.
  rewrite (firstLastDayOfMonth_counted zone s Hz Hs) in Hp.
  injection Hp as <-.
  set (Y := countedYear s). set (M := countedMonth s).
  pose proof (daysInMonth_bounds Y M) as Hb.
  destruct (Z.leb_spec Y 9999) as [Hsmall|Hbig]; cbn [from to].
  - split; [|split; [|lia]].
    + pose proof (leb_same_month (dec4 Y ++ "-" ++ dec2 M) 1 (daysInMonth Y M)
                    ltac:(lia) ltac:(lia)) as H.
      unfold dec4, dec3, dec2 in *. cbn [append] in *. exact H.
    + intros _. split; [apply (YMD_test_dec Y M 1)|apply YMD_test_dec].
  - split; [|split; [lia|]].
    + apply leb_refl.
    + intros _. split; reflexivity.
Qed.

Lemma period_from_le_to_witness :
  String.leb "2024-02-01" "2024-02-29" = true
  /\ YMD_test "2024-02-01" = true /\ YMD_test "2024-02-29" = true.
Proof.
  destruct (period_from_le_to newYork "2024-02"
              {| from := "2024-02-01"; to := "2024-02-29" |}
              newYork_neverEast eq_refl eq_refl) as (Hle & Hymd & _).
  split; [exact Hle|]. apply Hymd. vm_compute. discriminate.
Defined.

Lemma london_not_neverEast : ~ neverEast london.
Proof.
  intros H. specialize (H 1721044800000). revert H.
  unfold london, atLocal, msPerDay. cbn. lia.
Qed.

Lemma counted_currentMonth (y m : Z) :
  1000 <= y <= 9999 -> 1 <= m <= 12 ->
  countedYear (dec4 y ++ "-" ++ dec2 m) = y
  /\ countedMonth (dec4 y ++ "-" ++ dec2 m) = m.
Proof.
  intros Hy Hm. unfold countedYear, countedMonth, dateYear.
  rewrite tokenYear_dec, tokenMonth_dec by lia.
  replace ((0 <=? y) && (y <=? 99)) with false
    by (symmetry; apply andb_false_iff; right; apply Z.leb_gt; lia).
  split; Z.div_mod_to_equations; lia.
Qed.

(** X4: in a time zone that is on UTC or west of it at every date (its
    offset may change with daylight saving time) and while the local year
    has four digits, the summary of a request without a month covers the
    current local month from its first to its last day, and today's local
    date lies in that period. *)
Theorem default_month_period (zone : Zone) (now : Z) :
  neverEast zone ->
  1000 <= Zoned.getFullYear zone now <= 9999 ->
  exists p,
    Zoned.firstLastDayOfMonth zone (Zoned.resolveMonth zone now None) = Some p
    /\ from p = Zoned.currentMonth zone now ++ "-01"
    /\ to p = Zoned.currentMonth zone now ++ "-"
              ++ dec2 (daysInMonth (Zoned.getFullYear zone now)
                         (Zoned.getMonth zone now + 1))
    /\ String.leb (from p) (Zoned.todayYmd zone now) = true
    /\ String.leb (Zoned.todayYmd zone now) (to p) = true.
Proof.
  intros Hz Hy. cbn [Zoned.resolveMonth].
  destruct (Zoned_now zone now) as (Hyear & Hmonth & Hdate & Hcur & Htoday).
  rewrite Htoday, Hcur, Hyear, Hmonth. rewrite Hyear in Hy.
  set (tza := atUTC zone now) in *.
  destruct (fields_roundtrip (JSDate.LocalTime tza now)) as (Hm & Hd & _).
  fold (getMonth tza now) in Hm, Hd. fold (getDate tza now) in Hd.
  fold (getFullYear tza now) in Hd.
  pose proof (daysInMonth_bounds (getFullYear tza now) (getMonth tza now + 1))
    as Hb.
  pose proof (currentMonth_dec tza now Hy) as Hdec.
  destruct (counted_currentMonth (getFullYear tza now) (getMonth tza now + 1)
              Hy ltac:(lia)) as [HcY HcM].
  eexists. split; [|split; [|split; [|split]]].
  - rewrite Hdec.
    rewrite (firstLastDayOfMonth_counted zone _ Hz (YM_test_dec _ _)).
    rewrite HcY, HcM.
    replace (getFullYear tza now <=? 9999) with true
      by (symmetry; apply Z.leb_le; lia).
    reflexivity.
  - cbn [from]. rewrite Hdec. unfold dec4, dec3, dec2. cbn [append].
    reflexivity.
  - cbn [to]. rewrite Hdec. unfold dec4, dec3, dec2. cbn [append].
    reflexivity.
  - cbn [from]. rewrite (todayYmd_dec tza now Hy), Hdec.
    pose proof (leb_same_month
                  (dec4 (getFullYear tza now) ++ "-"
                   ++ dec2 (getMonth tza now + 1)) 1 (getDate tza now)
                  ltac:(lia) ltac:(lia)) as H.
    unfold dec4, dec3, dec2 in *. cbn [append] in *. exact H.
  - cbn [to]. rewrite (todayYmd_dec tza now Hy), Hdec.
    pose proof (leb_same_month
                  (dec4 (getFullYear tza now) ++ "-"
                   ++ dec2 (getMonth tza now + 1)) (getDate tza now)
                  (daysInMonth (getFullYear tza now) (getMonth tza now + 1))
                  ltac:(lia) ltac:(lia)) as H.
    unfold dec4, dec3, dec2 in *. cbn [append] in *. exact H.
Qed.

(** 2024-07-04T02:30:00Z, still 3 July on the clocks of New York. *)
Lemma default_month_period_witness :
  exists p,
    Zoned.firstLastDayOfMonth newYork
      (Zoned.resolveMonth newYork 1720060200000 None) = Some p
    /\ from p = "2024-07-01" /\ to p = "2024-07-31"
    /\ Zoned.todayYmd newYork 1720060200000 = "2024-07-03"
    /\ String.leb (from p) (Zoned.todayYmd newYork 1720060200000) = true
    /\ String.leb (Zoned.todayYmd newYork 1720060200000) (to p) = true.
Proof.
  destruct (default_month_period newYork 1720060200000 newYork_neverEast)
    as (p & Hp & Hfrom & Hto & Hle1 & Hle2).
  - split; vm_compute; discriminate.
  - exists p. split; [exact Hp|]. split; [exact Hfrom|]. split; [exact Hto|].
    split; [reflexivity|]. split; [exact Hle1|exact Hle2].
Defined.

(** X19: where the zone is east of UTC for a part of the year only, the
    default period of a month in the other part can still start a day
    early.  With the rules of Europe/London in 2024, a request without a
    month on 28 October (clocks on UTC) gets the period from 30 September
    to 31 October: 1 October began at 23:00 UTC of the day before, under
    summer time, and [toISOString] reads the date in UTC. *)
Theorem default_month_period_summer_time :
  Zoned.todayYmd london 1730116800000 = "2024-10-28"
  /\ atUTC london 1730116800000 = 0
  /\ Zoned.firstLastDayOfMonth london
       (Zoned.resolveMonth london 1730116800000 None)
     = Some {| from := "2024-09-30"; to := "2024-10-31" |}.
Proof. repeat split. Qed.

(** ** The row a POST creates *)

Lemma YMD_test_empty : YMD_test "" = false.
Proof. reflexivity. Qed.

Lemma occurred_at_spec (tza now : Z) (parsed : TxCreate) :
  TransactionsPost.occurred_at tza now parsed
  = match c_occurred_at parsed with
    | Some d => if YMD_test d then d else todayYmd tza now
    | None => todayYmd tza now
    end.
Proof.
  unfold TransactionsPost.occurred_at.
  destruct (c_occurred_at parsed) as [d|]; cbn [truthyStr orEmpty andb];
    [|reflexivity].
  destruct (d =? "")%string eqn:Hd; cbn [negb andb]; [|reflexivity].
  apply String.eqb_eq in Hd. subst d. now rewrite YMD_test_empty.
Qed.

Lemma todayYmd_YMD (tza now : Z) :
  1000 <= getFullYear tza now <= 9999 -> YMD_test (todayYmd tza now) = true.
Proof.
  intros Hy. rewrite (todayYmd_dec tza now Hy), (currentMonth_dec tza now Hy).
  apply YMD_test_dec.
Qed.

(** X14: for a body that passes the schema and a caller with a profile,
    POST /api/transactions sends one insert after the profile lookup, for a
    row that belongs to the caller and carries the amount and kind of the
    body.  The date of the row is the date of the body when the body has
    one that matches YYYY-MM-DD (the only dates the schema lets through),
    and today's local date when the body has none (or one that does not
    match); while the local year has four digits the date of the row
    matches YYYY-MM-DD in all cases. *)
Theorem created_transaction (tza : Z) (Json : Type)
  (storeC : nat -> Call -> Reply Json) (idOf : Json -> Z)
  (parse : Json -> list string + TxCreate) (now : Z) (req : Req Json)
  (uid : Z) (parsed : TxCreate) :
  profileFound (queryStore storeC 0) idOf (user_id req) uid ->
  parse (req_body req) = inr parsed ->
  exists p,
    snd (runC (TransactionsPost.create tza Json storeC idOf parse now req))
    = [CQuery (profileQuery (user_id req));
       CInsert {| i_client := Anon; i_table := "transaction";
                  i_payload := PTx p; i_returning := Some txColumns;
                  i_single := true |}]
    /\ n_user_id p = Some uid
    /\ n_amount p = c_amount parsed /\ n_type p = c_type parsed
    /\ n_category_id p = c_category_id parsed
    /\ n_description p = c_description parsed
    /\ (forall d, c_occurred_at parsed = Some d -> YMD_test d = true ->
                  n_occurred_at p = d)
    /\ (c_occurred_at parsed = None -> n_occurred_at p = todayYmd tza now)
    /\ (forall d, c_occurred_at parsed = Some d -> YMD_test d = false ->
                  n_occurred_at p = todayYmd tza now)
    /\ (1000 <= getFullYear tza now <= 9999 ->
        YMD_test (n_occurred_at p) = true).
Proof.
  intros Hprofile Hparse.
  destruct (getProfile_found _ idOf _ _ Hprofile) as [Hget Hfalsy].
  unfold runC, TransactionsPost.create, bindC. rewrite Hparse.
  rewrite liftQ_getProfile, Hget. cbn [fst]. rewrite Hfalsy.
  unfold awaitC. cbn [List.length app].
  eexists. split.
  - destruct (error _); cbn [snd]; reflexivity.
  - cbn [n_user_id n_amount n_type n_category_id n_description n_occurred_at].
    rewrite occurred_at_spec.
    repeat (split; [reflexivity|]).
    split; [|split; [|split]].
    + intros d -> ->. reflexivity.
    + intros ->. reflexivity.
    + intros d -> ->. reflexivity.
    + intros Hy. destruct (c_occurred_at parsed) as [d|].
      * destruct (YMD_test d) eqn:Hd; [exact Hd|now apply todayYmd_YMD].
      * now apply todayYmd_YMD.
Qed.

Lemma created_transaction_witness :
  let storeC (n : nat) (c : Call) : Reply Example.J :=
    {| data := Some (Example.JProfile 7); error := None |} in
  let dated := {| c_amount := 12; c_type := "expense"; c_category_id := None;
                  c_description := None;
                  c_occurred_at := Some "2024-02-10" |} in
  let undated := {| c_amount := 12; c_type := "expense";
                    c_category_id := None; c_description := None;
                    c_occurred_at := None |} in
  let post parsed :=
    snd (runC (TransactionsPost.create 0 Example.J storeC Example.idOf
                 (fun _ => inr parsed) Example.now
                 (Example.request "u1" "" Example.noQuery))) in
  let sent p :=
    [CQuery (profileQuery "u1");
     CInsert {| i_client := Anon; i_table := "transaction";
                i_payload := PTx p; i_returning := Some txColumns;
                i_single := true |}] in
  (exists p, post dated = sent p /\ n_user_id p = Some 7
             /\ n_occurred_at p = "2024-02-10")
  /\ (exists p, post undated = sent p /\ n_user_id p = Some 7
                /\ n_occurred_at p = "2026-11-02").
Proof.
  intros storeC dated undated post sent. split.
  - destruct (created_transaction 0 Example.J storeC Example.idOf
                (fun _ => inr dated) Example.now
                (Example.request "u1" "" Example.noQuery) 7 dated)
      as (p & Hlog & Hu & _ & _ & _ & _ & Hd & _).
    + exists (Example.JProfile 7). repeat split. discriminate.
    + reflexivity.
    + exists p. split; [exact Hlog|]. split; [exact Hu|].
      apply Hd; reflexivity.
  - destruct (created_transaction 0 Example.J storeC Example.idOf
                (fun _ => inr undated) Example.now
                (Example.request "u1" "" Example.noQuery) 7 undated)
      as (p & Hlog & Hu & _ & _ & _ & _ & _ & Hn & _).
    + exists (Example.JProfile 7). repeat split. discriminate.
    + reflexivity.
    + exists p. split; [exact Hlog|]. split; [exact Hu|].
      rewrite (Hn eq_refl). reflexivity.
Defined.

(** ** Arithmetic of doubles on safe integers *)

Lemma digits2_pos_size (p : positive) : digits2_pos p = Pos.size p.
Proof. induction p; simpl; congruence. Qed.

Lemma digits2_bounds (p : positive) :
  2 ^ (Zpos (digits2_pos p) - 1) <= Zpos p < 2 ^ Zpos (digits2_pos p).
Proof.
  induction p as [p IH|p IH|]; cbn [digits2_pos].
  - rewrite Pos2Z.inj_succ.
    replace (Z.succ (Zpos (digits2_pos p)) - 1) with (Zpos (digits2_pos p)) by lia.
    rewrite Z.pow_succ_r by lia.
    replace (2 ^ Zpos (digits2_pos p))
      with (2 * 2 ^ (Zpos (digits2_pos p) - 1)) in *
      by (rewrite <- Z.pow_succ_r by lia; f_equal; lia).
    lia.
  - rewrite Pos2Z.inj_succ.
    replace (Z.succ (Zpos (digits2_pos p)) - 1) with (Zpos (digits2_pos p)) by lia.
    rewrite Z.pow_succ_r by lia.
    replace (2 ^ Zpos (digits2_pos p))
      with (2 * 2 ^ (Zpos (digits2_pos p) - 1)) in *
      by (rewrite <- Z.pow_succ_r by lia; f_equal; lia).
    lia.
  - cbn. lia.
Qed.

Lemma digits2_unique (p : positive) (d : Z) :
  2 ^ (d - 1) <= Zpos p < 2 ^ d -> Zpos (digits2_pos p) = d.
Proof.
  intros [Hlo Hhi]. pose proof (digits2_bounds p) as [Hlo' Hhi'].
  assert (0 < d).
  { destruct (Z.ltb_spec 0 d); [assumption|].
    exfalso. assert (2 ^ d <= 2 ^ 0) by (apply Z.pow_le_mono_r; lia || (destruct (Z.ltb_spec d 0); lia)).
    simpl in *. lia. }
  destruct (Z.lt_trichotomy (Zpos (digits2_pos p)) d) as [Hlt|[Heq|Hgt]];
    [exfalso|assumption|exfalso].
  - assert (2 ^ Zpos (digits2_pos p) <= 2 ^ (d - 1))
      by (apply Z.pow_le_mono_r; lia). lia.
  - assert (2 ^ d <= 2 ^ (Zpos (digits2_pos p) - 1))
      by (apply Z.pow_le_mono_r; lia). lia.
Qed.

Lemma digits2_shift (p q : positive) (j : Z) :
  0 <= j -> Zpos q = Zpos p * 2 ^ j ->
  Zpos (digits2_pos q) = Zpos (digits2_pos p) + j.
Proof.
  intros Hj Hq. apply digits2_unique. rewrite Hq.
  pose proof (digits2_bounds p) as [Hlo Hhi].
  replace (Zpos (digits2_pos p) + j - 1) with (Zpos (digits2_pos p) - 1 + j) by lia.
  rewrite !Z.pow_add_r by lia.
  assert (0 < 2 ^ j) by (apply Z.pow_pos_nonneg; lia).
  nia.
Qed.

Lemma iter_xO (m k : positive) :
  Zpos (Pos.iter xO m k) = Zpos m * 2 ^ Zpos k.
Proof.
  revert m. induction k using Pos.peano_ind; intros m.
  - change (2 ^ 1) with 2. simpl Pos.iter. lia.
  - rewrite Pos.iter_succ, Pos2Z.inj_succ, Z.pow_succ_r by lia.
    rewrite Pos2Z.inj_xO, IHk. lia.
Qed.

Lemma pow2_xO (k : positive) : 2 ^ Zpos k~0 = 2 ^ Zpos k * 2 ^ Zpos k.
Proof.
  replace (Zpos k~0) with (Zpos k + Zpos k) by lia. apply Z.pow_add_r; lia.
Qed.

Lemma pow2_xI (k : positive) : 2 ^ Zpos k~1 = 2 * (2 ^ Zpos k * 2 ^ Zpos k).
Proof.
  replace (Zpos k~1) with (Z.succ (Zpos k + Zpos k)) by lia.
  rewrite Z.pow_succ_r, Z.pow_add_r by lia. reflexivity.
Qed.

Lemma shr_1_even (m : positive) :
  shr_1 {| shr_m := Zpos (xO m); shr_r := false; shr_s := false |}
  = {| shr_m := Zpos m; shr_r := false; shr_s := false |}.
Proof. reflexivity. Qed.

Lemma iter_shr_exact (k : positive) (m : positive) (q : positive) :
  Zpos q = Zpos m * 2 ^ Zpos k ->
  iter_pos shr_1 k {| shr_m := Zpos q; shr_r := false; shr_s := false |}
  = {| shr_m := Zpos m; shr_r := false; shr_s := false |}.
Proof.
  revert m q. induction k as [k IH|k IH|]; intros m q Hq; cbn [iter_pos].
  - assert (Hq' : Zpos q = 2 * (Zpos m * 2 ^ Zpos k * 2 ^ Zpos k)).
    { rewrite Hq, pow2_xI. lia. }
    assert (0 < 2 ^ Zpos k) by (apply Z.pow_pos_nonneg; lia).
    destruct q as [q|q|]; try lia.
    rewrite shr_1_even.
    rewrite (IH (Z.to_pos (Zpos m * 2 ^ Zpos k)) q).
    + apply IH. rewrite Z2Pos.id by nia. reflexivity.
    + rewrite Z2Pos.id by nia. lia.
  - assert (Hq' : Zpos q = Zpos m * 2 ^ Zpos k * 2 ^ Zpos k).
    { rewrite Hq, pow2_xO. lia. }
    assert (0 < 2 ^ Zpos k) by (apply Z.pow_pos_nonneg; lia).
    rewrite (IH (Z.to_pos (Zpos m * 2 ^ Zpos k)) q).
    + apply IH. rewrite Z2Pos.id by nia. reflexivity.
    + rewrite Z2Pos.id by nia. lia.
  - change (2 ^ 1) with 2 in Hq. destruct q as [q|q|]; try lia.
    rewrite shr_1_even. do 2 f_equal. lia.
Qed.

Lemma fexp_normal (x : Z) : - 1021 <= x -> fexp 53 1024 x = x - 53.
Proof. unfold fexp, emin. lia. Qed.

Lemma digits2_pos_lt (n : positive) :
  Zpos n < 2 ^ 53 -> 1 <= Zpos (digits2_pos n) <= 53.
Proof.
  intros Hn. pose proof (digits2_bounds n) as [Hlo _]. split; [lia|].
  destruct (Z.leb_spec (Zpos (digits2_pos n)) 53); [assumption|exfalso].
  assert (2 ^ 53 <= 2 ^ (Zpos (digits2_pos n) - 1))
    by (apply Z.pow_le_mono_r; lia).
  lia.
Qed.

Lemma shl_align_spec (m : positive) (e e' : Z) :
  (e' < e ->
   Zpos (fst (shl_align m e e')) = Zpos m * 2 ^ (e - e')
   /\ snd (shl_align m e e') = e')
  /\ (e <= e' -> shl_align m e e' = (m, e)).
Proof.
  unfold shl_align. destruct (e' - e) as [|k|k] eqn:Hk; split; intros H;
    try lia; try reflexivity.
  cbn [fst snd]. split; [|reflexivity].
  rewrite iter_xO. f_equal. f_equal. lia.
Qed.

Lemma shr_exact (q m : positive) (e k : Z) :
  0 <= k -> Zpos q = Zpos m * 2 ^ k ->
  shr {| shr_m := Zpos q; shr_r := false; shr_s := false |} e k
  = ({| shr_m := Zpos m; shr_r := false; shr_s := false |}, e + k).
Proof.
  intros Hk Hq. unfold shr. destruct k as [|k|k]; try lia.
  - rewrite Z.pow_0_r, Z.mul_1_r in Hq. injection Hq as ->.
    now rewrite Z.add_0_r.
  - now rewrite (iter_shr_exact k m q Hq).
Qed.

Lemma canon_mantissa (n : positive) :
  Zpos n < 2 ^ 53 ->
  Zpos (Z.to_pos (Zpos n * 2 ^ (53 - Zpos (digits2_pos n))))
  = Zpos n * 2 ^ (53 - Zpos (digits2_pos n))
  /\ Zpos (digits2_pos (Z.to_pos (Zpos n * 2 ^ (53 - Zpos (digits2_pos n)))))
     = 53.
Proof.
  intros Hn. pose proof (digits2_pos_lt n Hn) as Hd.
  assert (0 < 2 ^ (53 - Zpos (digits2_pos n)))
    by (apply Z.pow_pos_nonneg; lia).
  assert (Hid : Zpos (Z.to_pos (Zpos n * 2 ^ (53 - Zpos (digits2_pos n))))
                = Zpos n * 2 ^ (53 - Zpos (digits2_pos n)))
    by (rewrite Z2Pos.id; [reflexivity|nia]).
  split; [exact Hid|].
  rewrite (digits2_shift n _ (53 - Zpos (digits2_pos n)) ltac:(lia) Hid). lia.
Qed.

(** Rounding a mantissa that holds an integer below 2^53, with at least
    53 digits, gives the double of the integer. *)
Lemma binary_round_aux_exact (s : bool) (q n : positive) (e : Z) :
  Zpos n < 2 ^ 53 ->
  e <= Zpos (digits2_pos n) - 53 ->
  Zpos q = Zpos n * 2 ^ (- e) ->
  binary_round_aux 53 1024 s (Zpos q) e loc_Exact = canon s n.
Proof.
  intros Hn He Hq. pose proof (digits2_pos_lt n Hn) as Hd.
  destruct (canon_mantissa n Hn) as [Hid Hdig].
  set (d := Zpos (digits2_pos n)) in *.
  set (c := Z.to_pos (Zpos n * 2 ^ (53 - d))) in *.
  assert (Hdq : Zpos (digits2_pos q) = d - e)
    by (rewrite (digits2_shift n q (- e) ltac:(lia) Hq); fold d; lia).
  assert (Hqc : Zpos q = Zpos c * 2 ^ (d - 53 - e)).
  { rewrite Hq, Hid, <- Z.mul_assoc, <- Z.pow_add_r by lia.
    f_equal. f_equal. lia. }
  unfold binary_round_aux, shr_fexp. cbn [Zdigits2 shr_record_of_loc].
  rewrite Hdq, fexp_normal by lia.
  replace (d - e + e - 53 - e) with (d - 53 - e) by lia.
  rewrite (shr_exact q c e (d - 53 - e) ltac:(lia) Hqc).
  cbn [shr_m loc_of_shr_record round_nearest_even Zdigits2 shr_record_of_loc].
  rewrite Hdig, fexp_normal by lia.
  replace (53 + (e + (d - 53 - e)) - 53 - (e + (d - 53 - e))) with 0 by lia.
  cbn [shr shr_m].
  replace (e + (d - 53 - e) <=? 1024 - 53) with true
    by (symmetry; apply Z.leb_le; lia).
  unfold canon. fold d. fold c. f_equal. lia.
Qed.

Lemma binary_round_exact (s : bool) (m n : positive) (e : Z) :
  Zpos n < 2 ^ 53 ->
  e <= 0 ->
  Zpos m = Zpos n * 2 ^ (- e) ->
  binary_round 53 1024 s m e = canon s n.
Proof.
  intros Hn He Hm. pose proof (digits2_pos_lt n Hn) as Hd.
  unfold binary_round.
  rewrite (digits2_shift n m (- e) ltac:(lia) Hm), fexp_normal by lia.
  set (d := Zpos (digits2_pos n)) in *.
  replace (d + - e + e - 53) with (d - 53) by lia.
  destruct (shl_align_spec m e (d - 53)) as [Hshift Hsame].
  destruct (Z.ltb_spec (d - 53) e) as [Hlt|Hge].
  - destruct (Hshift Hlt) as [Hmz Hez].
    destruct (shl_align m e (d - 53)) as [mz ez]. cbn [fst snd] in *. subst ez.
    apply binary_round_aux_exact; [assumption|fold d; lia|].
    rewrite Hmz, Hm, <- Z.mul_assoc, <- Z.pow_add_r by lia.
    f_equal. f_equal. lia.
  - rewrite (Hsame Hge).
    apply binary_round_aux_exact; [assumption|fold d; lia|assumption].
Qed.

Lemma ofZ_pos (n : positive) :
  Zpos n < 2 ^ 53 -> ofZ (Zpos n) = canon false n.
Proof.
  intros Hn. unfold ofZ, binary_normalize.
  apply binary_round_exact; [assumption|lia|]. cbn. lia.
Qed.

Lemma ofZ_neg (n : positive) :
  Zpos n < 2 ^ 53 -> ofZ (Zneg n) = canon true n.
Proof.
  intros Hn. unfold ofZ, binary_normalize.
  apply binary_round_exact; [assumption|lia|]. cbn. lia.
Qed.

(** A mantissa and an exponent that hold an integer in the safe range
    normalise to the double of that integer. *)
Lemma binary_normalize_exact (v n e : Z) :
  Z.abs n < 2 ^ 53 -> e <= 0 -> v = n * 2 ^ (- e) ->
  binary_normalize 53 1024 v e false = ofZ n.
Proof.
  intros Hn He Hv.
  assert (0 < 2 ^ (- e)) by (apply Z.pow_pos_nonneg; lia).
  destruct n as [|n|n].
  - subst v. reflexivity.
  - rewrite (ofZ_pos n) by lia.
    destruct v as [|v|v]; try nia.
    unfold binary_normalize. apply binary_round_exact; [lia|lia|assumption].
  - rewrite (ofZ_neg n) by lia.
    destruct v as [|v|v]; try nia.
    unfold binary_normalize. apply binary_round_exact; [lia|lia|].
    change (Zneg v) with (- Zpos v) in Hv. change (Zneg n) with (- Zpos n) in Hv.
    lia.
Qed.

Lemma shl_align_fst (m : positive) (e e' : Z) :
  e' <= e -> Zpos (fst (shl_align m e e')) = Zpos m * 2 ^ (e - e').
Proof.
  intros He. destruct (shl_align_spec m e e') as [Hshift Hsame].
  destruct (Z.ltb_spec e' e) as [Hlt|Hge].
  - now destruct (Hshift Hlt).
  - rewrite (Hsame Hge). cbn [fst]. replace (e - e') with 0 by lia.
    rewrite Z.pow_0_r. lia.
Qed.

(** The signed integer a safe double holds, and the double as mantissa
    and exponent. *)
Lemma ofZ_cases (n : Z) :
  Z.abs n < 2 ^ 53 ->
  (n = 0 /\ ofZ n = S754_zero false)
  \/ (exists s m e,
        ofZ n = S754_finite s m e /\ - 52 <= e <= 0
        /\ forall e', e' <= e ->
             cond_Zopp s (Zpos (fst (shl_align m e e'))) = n * 2 ^ (- e')).
Proof.
  intros Hn. destruct n as [|n|n]; [left; split; reflexivity|right|right].
  - pose proof (digits2_pos_lt n ltac:(lia)) as Hd.
    destruct (canon_mantissa n ltac:(lia)) as [Hid _].
    rewrite (ofZ_pos n) by lia. unfold canon. do 3 eexists.
    split; [reflexivity|]. split; [lia|]. intros e' He'.
    rewrite shl_align_fst, Hid by lia. cbn [cond_Zopp].
    rewrite <- Z.mul_assoc, <- Z.pow_add_r by lia. f_equal. f_equal. lia.
  - pose proof (digits2_pos_lt n ltac:(lia)) as Hd.
    destruct (canon_mantissa n ltac:(lia)) as [Hid _].
    rewrite (ofZ_neg n) by lia. unfold canon. do 3 eexists.
    split; [reflexivity|]. split; [lia|]. intros e' He'.
    rewrite shl_align_fst, Hid by lia. cbn [cond_Zopp].
    rewrite <- Z.mul_assoc, <- Z.pow_add_r by lia.
    change (Zneg n) with (- Zpos n).
    replace (53 - Zpos (digits2_pos n) + (Zpos (digits2_pos n) - 53 - e'))
      with (- e') by lia.
    lia.
Qed.

(** Adding two doubles that hold integers is exact while the integers and
    their sum are below 2^53 in absolute value. *)
Lemma add_exact (a b : Z) :
  Z.abs a < 2 ^ 53 -> Z.abs b < 2 ^ 53 -> Z.abs (a + b) < 2 ^ 53 ->
  SFadd 53 1024 (ofZ a) (ofZ b) = ofZ (a + b).
Proof.
  intros Ha Hb Hab.
  destruct (ofZ_cases a Ha) as [[-> Ea]|(sa & ma & ea & Ea & Hea & Va)];
    destruct (ofZ_cases b Hb) as [[-> Eb]|(sb & mb & eb & Eb & Heb & Vb)].
  - reflexivity.
  - rewrite Ea, Z.add_0_l, Eb. reflexivity.
  - rewrite Eb, Z.add_0_r, Ea. reflexivity.
  - rewrite Ea, Eb. cbn [SFadd].
    rewrite (Va (Z.min ea eb)), (Vb (Z.min ea eb)) by lia.
    apply binary_normalize_exact; [assumption|lia|lia].
Qed.

Lemma sub_exact (a b : Z) :
  Z.abs a < 2 ^ 53 -> Z.abs b < 2 ^ 53 -> Z.abs (a - b) < 2 ^ 53 ->
  SFsub 53 1024 (ofZ a) (ofZ b) = ofZ (a - b).
Proof.
  intros Ha Hb Hab.
  destruct (ofZ_cases a Ha) as [[-> Ea]|(sa & ma & ea & Ea & Hea & Va)];
    destruct (ofZ_cases b Hb) as [[-> Eb]|(sb & mb & eb & Eb & Heb & Vb)].
  - reflexivity.
  - destruct b as [|b|b]; [discriminate Eb| |].
    + rewrite (ofZ_pos b) by lia. change (0 - Zpos b) with (Zneg b).
      rewrite (ofZ_neg b) by lia. reflexivity.
    + rewrite (ofZ_neg b) by lia. change (0 - Zneg b) with (Zpos b).
      rewrite (ofZ_pos b) by lia. reflexivity.
  - rewrite Eb, Z.sub_0_r, Ea. reflexivity.
  - rewrite Ea, Eb. cbn [SFsub].
    rewrite (Va (Z.min ea eb)), (Vb (Z.min ea eb)) by lia.
    apply binary_normalize_exact; [assumption|lia|lia].
Qed.

Lemma signOf_ofZ (n : Z) :
  Z.abs n < 2 ^ 53 -> Doubles.signOf (ofZ n) = Z.sgn n.
Proof.
  intros Hn. destruct n as [|n|n].
  - reflexivity.
  - rewrite (ofZ_pos n) by lia. reflexivity.
  - rewrite (ofZ_neg n) by lia. reflexivity.
Qed.

Lemma Pos_compare_cont_Z (a b : positive) :
  Pos.compare_cont Eq a b = (Zpos a ?= Zpos b).
Proof. reflexivity. Qed.

Lemma canon_compare (a b : positive) :
  Zpos a < 2 ^ 53 -> Zpos b < 2 ^ 53 ->
  match Zpos (digits2_pos a) - 53 ?= Zpos (digits2_pos b) - 53 with
  | Lt => Lt
  | Gt => Gt
  | Eq => Pos.compare_cont Eq
            (Z.to_pos (Zpos a * 2 ^ (53 - Zpos (digits2_pos a))))
            (Z.to_pos (Zpos b * 2 ^ (53 - Zpos (digits2_pos b))))
  end = (Zpos a ?= Zpos b).
Proof.
  intros Ha Hb.
  pose proof (digits2_pos_lt a Ha) as Hda. pose proof (digits2_pos_lt b Hb) as Hdb.
  pose proof (digits2_bounds a) as [Hla Hua].
  pose proof (digits2_bounds b) as [Hlb Hub].
  destruct (canon_mantissa a Ha) as [Hia _].
  destruct (canon_mantissa b Hb) as [Hib _].
  destruct (Z.compare_spec (Zpos (digits2_pos a) - 53) (Zpos (digits2_pos b) - 53))
    as [Heq|Hlt|Hgt].
  - rewrite Pos_compare_cont_Z, Hia, Hib.
    replace (Zpos (digits2_pos b)) with (Zpos (digits2_pos a)) by lia.
    assert (0 < 2 ^ (53 - Zpos (digits2_pos a)))
      by (apply Z.pow_pos_nonneg; lia).
    destruct (Z.compare_spec (Zpos a) (Zpos b)).
    + apply Z.compare_eq_iff. congruence.
    + apply Z.compare_lt_iff. nia.
    + apply Z.compare_gt_iff. nia.
  - symmetry. apply Z.compare_lt_iff.
    assert (2 ^ Zpos (digits2_pos a) <= 2 ^ (Zpos (digits2_pos b) - 1))
      by (apply Z.pow_le_mono_r; lia).
    lia.
  - symmetry. apply Z.compare_gt_iff.
    assert (2 ^ Zpos (digits2_pos b) <= 2 ^ (Zpos (digits2_pos a) - 1))
      by (apply Z.pow_le_mono_r; lia).
    lia.
Qed.

(** Safe doubles compare as the integers they hold. *)
Lemma compare_ofZ (a b : Z) :
  Z.abs a < 2 ^ 53 -> Z.abs b < 2 ^ 53 ->
  SFcompare (ofZ a) (ofZ b) = Some (a ?= b).
Proof.
  intros Ha Hb.
  destruct a as [|a|a], b as [|b|b];
    rewrite ?(ofZ_pos a), ?(ofZ_neg a), ?(ofZ_pos b), ?(ofZ_neg b) by lia;
    try reflexivity.
  - unfold canon. cbn [SFcompare]. f_equal. apply canon_compare; lia.
  - unfold canon. cbn [SFcompare]. f_equal.
    change (Zneg a ?= Zneg b) with (CompOpp (Zpos a ?= Zpos b)).
    rewrite <- (canon_compare a b) by lia.
    now destruct (Zpos (digits2_pos a) - 53 ?= Zpos (digits2_pos b) - 53).
Qed.

Lemma leb_ofZ (a b : Z) :
  Z.abs a < 2 ^ 53 -> Z.abs b < 2 ^ 53 ->
  Doubles.leb (ofZ a) (ofZ b) = (a <=? b).
Proof.
  intros Ha Hb. unfold Doubles.leb, SFleb. rewrite compare_ofZ by assumption.
  unfold Z.leb. now destruct (a ?= b).
Qed.

(** ** The aggregation on doubles that hold safe integers *)

Lemma map_get_ofZ (k : Z) (m : JSMap) :
  Doubles.map_get k (mapOfZ m) = option_map ofZ (map_get k m).
Proof.
  induction m as [|[k' v] m IH]; simpl; [reflexivity|].
  destruct (k' =? k); [reflexivity|exact IH].
Qed.

Lemma map_set_ofZ (k v : Z) (m : JSMap) :
  Doubles.map_set k (ofZ v) (mapOfZ m) = mapOfZ (map_set k v m).
Proof.
  induction m as [|[k' v'] m IH]; simpl; [reflexivity|].
  destruct (k' =? k); simpl; [reflexivity|]. now rewrite IH.
Qed.

Lemma map_get_Forall (P : Z * Z -> Prop) (k v : Z) (m : JSMap) :
  Forall P m -> map_get k m = Some v -> exists k', P (k', v).
Proof.
  induction 1 as [|[k' v'] m Hx Hm IH]; simpl; [discriminate|].
  destruct (k' =? k); [|exact IH].
  intros [= <-]. now exists k'.
Qed.

Lemma map_set_Forall (P : Z * Z -> Prop) (k v : Z) (m : JSMap) :
  Forall P m -> P (k, v) -> Forall P (map_set k v m).
Proof.
  intros Hm Hkv. induction Hm as [|[k' v'] m Hx Hm IH]; simpl.
  - constructor; [assumption|constructor].
  - destruct (k' =? k); constructor; assumption.
Qed.

Lemma Forall_abs_le (B B' : Z) (m : JSMap) :
  B <= B' -> Forall (fun e => Z.abs (snd e) <= B) m ->
  Forall (fun e => Z.abs (snd e) <= B') m.
Proof.
  intros HB. apply Forall_impl. intros e He. lia.
Qed.

(** One turn of the loop on doubles is the turn on the integers, while the
    accumulators stay safe. *)
Lemma step_ofZ (B : Z) (a : Totals) (r : Row) :
  within B a -> B + Z.abs (amount r) < 2 ^ 53 ->
  Doubles.step (totalsOfZ a) (rowOfZ r) = totalsOfZ (step a r)
  /\ within (B + Z.abs (amount r)) (step a r).
Proof.
  intros [Hie Hcat] HB.
  assert (Hamt : Z.abs (amount r) < 2 ^ 53) by lia.
  assert (Hget : forall c,
             Z.abs (match map_get c (t_byCat a) with
                    | Some t => t
                    | None => 0
                    end) <= B).
  { intros c. destruct (map_get c (t_byCat a)) as [t|] eqn:Ht; [|lia].
    destruct (map_get_Forall _ c t _ Hcat Ht) as [k' Hk']. exact Hk'. }
  split.
  - unfold Doubles.step, step, totalsOfZ, rowOfZ.
    cbn [Doubles.type Doubles.amount Doubles.category_id Doubles.t_inc
           Doubles.t_exp Doubles.t_byCat t_inc t_exp t_byCat].
    f_equal.
    + destruct (String.eqb (type r) "income"); [|reflexivity].
      apply add_exact; lia.
    + destruct (String.eqb (type r) "income"); [reflexivity|].
      apply add_exact; lia.
    + destruct (category_id r) as [c|]; [|reflexivity].
      rewrite map_get_ofZ. specialize (Hget c).
      destruct (map_get c (t_byCat a)) as [t|]; cbn [option_map].
      * unfold Doubles.add. rewrite add_exact by lia. apply map_set_ofZ.
      * change Doubles.zero with (ofZ 0).
        unfold Doubles.add. rewrite add_exact by lia. apply map_set_ofZ.
  - unfold within, step. cbn [t_inc t_exp t_byCat]. split.
    + destruct (String.eqb (type r) "income"); lia.
    + destruct (category_id r) as [c|].
      * apply map_set_Forall.
        -- eapply Forall_abs_le; [|exact Hcat]. lia.
        -- cbn [snd]. specialize (Hget c). lia.
      * eapply Forall_abs_le; [|exact Hcat]. lia.
Qed.

Lemma sumAbs_nonneg (rows : list Row) : 0 <= sumAbs rows.
Proof. induction rows as [|r rows IH]; simpl; lia. Qed.

Lemma fold_step_ofZ (rows : list Row) (B : Z) (a : Totals) :
  within B a -> B + sumAbs rows < 2 ^ 53 ->
  fold_left Doubles.step (map rowOfZ rows) (totalsOfZ a)
  = totalsOfZ (fold_left step rows a)
  /\ within (B + sumAbs rows) (fold_left step rows a).
Proof.
  revert B a. induction rows as [|r rows IH]; intros B a Ha HB.
  - simpl. rewrite Z.add_0_r. split; [reflexivity|assumption].
  - simpl in HB. pose proof (sumAbs_nonneg rows) as Hnn.
    destruct (step_ofZ B a r Ha ltac:(lia)) as [Hstep Hwithin].
    cbn [map fold_left]. rewrite Hstep.
    destruct (IH _ _ Hwithin ltac:(lia)) as [Hfold Hw].
    split; [exact Hfold|].
    simpl. replace (B + (Z.abs (amount r) + sumAbs rows))
      with (B + Z.abs (amount r) + sumAbs rows) by lia.
    exact Hw.
Qed.

Lemma loop_ofZ (rows : list Row) :
  sumAbs rows < 2 ^ 53 ->
  Doubles.loop (map rowOfZ rows) = totalsOfZ (loop rows)
  /\ within (sumAbs rows) (loop rows).
Proof.
  intros HB.
  destruct (fold_step_ofZ rows 0 {| t_inc := 0; t_exp := 0; t_byCat := [] |})
    as [Hfold Hw].
  - split; [simpl; lia|constructor].
  - lia.
  - split; [exact Hfold|exact Hw].
Qed.

Section SortMap.
Context {A A' : Type}.
Variable f : A -> A'.
Variable cmp : A -> A -> Z.
Variable cmp' : A' -> A' -> Z.
Variable P : A -> Prop.
Hypothesis agree : forall x y, P x -> P y ->
  (cmp' (f x) (f y) <=? 0) = (cmp x y <=? 0).

Lemma insert_Forall (x : A) (l : list A) :
  P x -> Forall P l -> Forall P (insert cmp x l).
Proof.
  intros Hx Hl. induction Hl as [|y l Hy Hl IH]; simpl.
  - constructor; [assumption|constructor].
  - destruct (cmp x y <=? 0); repeat (constructor; try assumption).
Qed.

Lemma sort_Forall (l : list A) : Forall P l -> Forall P (sort cmp l).
Proof.
  induction 1 as [|x l Hx Hl IH]; [constructor|].
  change (Forall P (insert cmp x (sort cmp l))).
  now apply insert_Forall.
Qed.

Lemma insert_map (x : A) (l : list A) :
  P x -> Forall P l ->
  insert cmp' (f x) (map f l) = map f (insert cmp x l).
Proof.
  intros Hx Hl. induction Hl as [|y l Hy Hl IH]; simpl; [reflexivity|].
  rewrite (agree x y Hx Hy). destruct (cmp x y <=? 0); simpl; [reflexivity|].
  now rewrite IH.
Qed.

Lemma sort_map (l : list A) :
  Forall P l -> sort cmp' (map f l) = map f (sort cmp l).
Proof.
  induction 1 as [|x l Hx Hl IH]; [reflexivity|].
  change (insert cmp' (f x) (sort cmp' (map f l))
          = map f (insert cmp x (sort cmp l))).
  rewrite IH. apply insert_map; [assumption|]. now apply sort_Forall.
Qed.
End SortMap.

(** For amounts that are safe integers, the summary computed on doubles
    is the summary computed on the integers. *)
Lemma summarize_ofZ (month : string) (p : Period) (rows : list Row) :
  safeAmounts rows ->
  Doubles.summarize month p (map rowOfZ rows)
  = summaryOfZ (summarize month p rows).
Proof.
  unfold safeAmounts. intros Hsafe. pose proof (sumAbs_nonneg rows) as Hnn.
  destruct (loop_ofZ rows ltac:(lia)) as [Hloop [Hie Hcat]].
  unfold Doubles.summarize, summarize, summaryOfZ. rewrite Hloop.
  cbn [Doubles.t_inc Doubles.t_exp Doubles.t_byCat totalsOfZ s_month s_from
         s_to inc exp net byCategory].
  f_equal.
  - apply sub_exact; lia.
  - unfold Doubles.entries, entries, mapOfZ. rewrite map_map.
    rewrite <- (sort_map catTotalOfZ (fun x y => total y - total x)
                  (fun x y => Doubles.signOf
                                (Doubles.sub (Doubles.total y) (Doubles.total x)))
                  (fun x => Z.abs (total x) <= sumAbs rows)).
    + now rewrite map_map.
    + intros x y Hx Hy. cbn [catTotalOfZ Doubles.total].
      unfold Doubles.sub. rewrite sub_exact, signOf_ofZ by lia.
      destruct (Z.leb_spec (total y - total x) 0),
        (Z.leb_spec (Z.sgn (total y - total x)) 0); lia.
    + apply Forall_map. cbn [total]. exact Hcat.
Qed.

(** ** Bounds on the integer totals *)


Lemma sumAbs_app (a b : list Row) : sumAbs (a ++ b) = sumAbs a + sumAbs b.
Proof. induction a as [|r a IH]; simpl; lia. Qed.

Lemma sumAmounts_filter_abs (f : Row -> bool) (rows : list Row) :
  Z.abs (sumAmounts (filter f rows)) <= sumAbs rows.
Proof.
  induction rows as [|r rows IH]; simpl; [lia|].
  destruct (f r); simpl; lia.
Qed.

Lemma sumAmounts_abs (rows : list Row) : Z.abs (sumAmounts rows) <= sumAbs rows.
Proof. induction rows as [|r rows IH]; simpl; lia. Qed.

Lemma sumAmounts_filter_split_abs (f : Row -> bool) (rows : list Row) :
  Z.abs (sumAmounts (filter f rows))
  + Z.abs (sumAmounts (filter (fun r => negb (f r)) rows)) <= sumAbs rows.
Proof.
  induction rows as [|r rows IH]; simpl; [lia|].
  destruct (f r); simpl; lia.
Qed.

Lemma summarize_net (month : string) (p : Period) (rows : list Row) :
  net (summarize month p rows)
  = inc (summarize month p rows) - exp (summarize month p rows).
Proof. reflexivity. Qed.

Lemma sumAbsValues_set (k d : Z) (m : JSMap) :
  sumAbsValues (map_set k (match map_get k m with
                           | Some t => t
                           | None => 0
                           end + d) m)
  <= sumAbsValues m + Z.abs d.
Proof.
  induction m as [|[k' v'] m IH]; simpl; [lia|].
  destruct (k' =? k); simpl; lia.
Qed.

Lemma fold_step_sumAbsValues (rows : list Row) (a : Totals) :
  sumAbsValues (t_byCat (fold_left step rows a))
  <= sumAbsValues (t_byCat a) + sumAbs rows.
Proof.
  revert a. induction rows as [|r rows IH]; intros a; simpl; [lia|].
  specialize (IH (step a r)).
  assert (sumAbsValues (t_byCat (step a r))
          <= sumAbsValues (t_byCat a) + Z.abs (amount r)).
  { unfold step. cbn [t_byCat]. destruct (category_id r) as [c|].
    - apply sumAbsValues_set.
    - lia. }
  lia.
Qed.

Lemma sumAbsTotals_perm (l l' : list CatTotal) :
  Permutation l l' -> sumAbsTotals l = sumAbsTotals l'.
Proof. induction 1; simpl; lia. Qed.

Lemma byCategory_sumAbs (month : string) (p : Period) (rows : list Row) :
  sumAbsTotals (byCategory (summarize month p rows)) <= sumAbs rows.
Proof.
  rewrite (sumAbsTotals_perm _ _ (byCategory_perm month p rows)).
  pose proof (fold_step_sumAbsValues rows
                {| t_inc := 0; t_exp := 0; t_byCat := [] |}) as H.
  simpl in H. fold (loop rows) in H.
  replace (sumAbsTotals
             (map (fun e => {| ct_category_id := fst e; total := snd e |})
                (t_byCat (loop rows))))
    with (sumAbsValues (t_byCat (loop rows))); [exact H|].
  generalize (t_byCat (loop rows)). intros m.
  induction m as [|[k v] m IH]; simpl; [reflexivity|]. now rewrite IH.
Qed.


Lemma summarize_sumTotals (month : string) (p : Period) (rows : list Row) :
  sumTotals (byCategory (summarize month p rows))
  = sumAmounts (filter hasCategory rows).
Proof.
  rewrite (sumTotals_perm _ _ (byCategory_perm month p rows)).
  unfold loop. pose proof (fold_step_sumValues rows
    {| t_inc := 0; t_exp := 0; t_byCat := [] |}) as H. simpl in H.
  rewrite <- H. generalize (t_byCat (fold_left step rows
    {| t_inc := 0; t_exp := 0; t_byCat := [] |})).
  intros m. induction m as [|[k v] m IH]; simpl; [reflexivity|].
  now rewrite IH.
Qed.

(** ** Doubles of safe integers *)

Lemma totalOf_ofZ (c : Z) (l : list CatTotal) :
  Doubles.totalOf c (map catTotalOfZ l) = ofZ (totalOf c l).
Proof.
  unfold Doubles.totalOf, totalOf.
  induction l as [|x l IH]; simpl; [reflexivity|].
  destruct (ct_category_id x =? c); [reflexivity|exact IH].
Qed.

Lemma fold_add_ofZ (l : list CatTotal) (acc : Z) :
  Z.abs acc + sumAbsTotals l < 2 ^ 53 ->
  fold_left (fun s c => Doubles.add s (Doubles.total c)) (map catTotalOfZ l)
    (ofZ acc)
  = ofZ (acc + sumTotals l).
Proof.
  revert acc. induction l as [|x l IH]; intros acc Hb; simpl in *.
  - now rewrite Z.add_0_r.
  - assert (0 <= sumAbsTotals l)
      by (clear; induction l as [|y l IH]; simpl; lia).
    unfold Doubles.add at 2. rewrite add_exact by lia.
    rewrite IH by lia. f_equal. lia.
Qed.

Lemma sumTotals_ofZ (l : list CatTotal) :
  sumAbsTotals l < 2 ^ 53 ->
  Doubles.sumTotals (map catTotalOfZ l) = ofZ (sumTotals l).
Proof.
  intros Hb. unfold Doubles.sumTotals. change Doubles.zero with (ofZ 0).
  rewrite fold_add_ofZ by (simpl; lia). reflexivity.
Qed.

Lemma leb_opp_ofZ (a b : Z) :
  Z.abs a < 2 ^ 53 -> Z.abs b < 2 ^ 53 ->
  Doubles.leb (Doubles.opp (ofZ a)) (ofZ b) = (- a <=? b).
Proof.
  intros Ha Hb. destruct a as [|a|a].
  - change (- 0) with 0. rewrite <- (leb_ofZ 0 b) by (simpl; lia).
    unfold Doubles.leb, SFleb, Doubles.opp. cbn [ofZ binary_normalize SFopp].
    now destruct (ofZ b).
  - rewrite <- (leb_ofZ (- Zpos a) b) by lia.
    change (- Zpos a) with (Zneg a).
    now rewrite (ofZ_pos a), (ofZ_neg a) by lia.
  - rewrite <- (leb_ofZ (- Zneg a) b) by lia.
    change (- Zneg a) with (Zpos a).
    now rewrite (ofZ_pos a), (ofZ_neg a) by lia.
Qed.

(** ** The summary on doubles *)

Lemma safeAmounts_bound (rows : list Row) :
  safeAmounts rows -> 0 <= sumAbs rows /\ 2 * sumAbs rows < 2 ^ 53.
Proof. intros H. split; [apply sumAbs_nonneg|exact H]. Qed.

(** X20: when every amount is an integer and the absolute values of the
    amounts add up to less than 2^52, no addition or subtraction of the
    aggregation rounds: computed on doubles, as the handler does, [inc],
    [exp], [net] and the category totals are the doubles of the exact
    integer sums, and [byCategory] stands in the order of those integers. *)
Theorem summary_exact_on_integers (month : string) (p : Period)
  (rows : list Row) :
  safeAmounts rows ->
  Doubles.summarize month p (map rowOfZ rows)
  = summaryOfZ (summarize month p rows).
Proof. exact (summarize_ofZ month p rows). Qed.

Lemma summary_exact_on_integers_witness :
  Doubles.summarize "2024-02" {| from := "2024-02-01"; to := "2024-02-29" |}
    (map rowOfZ Example.threeCategories)
  = summaryOfZ
      (summarize "2024-02" {| from := "2024-02-01"; to := "2024-02-29" |}
         Example.threeCategories).
Proof.
  apply (summary_exact_on_integers "2024-02"
           {| from := "2024-02-01"; to := "2024-02-29" |}
           Example.threeCategories).
  vm_compute. reflexivity.
Defined.



(** X11: for amounts that are integers whose absolute values add up to
    less than 2^52, nothing is lost or counted twice, in double arithmetic
    as in exact arithmetic: [inc + exp] is the sum of all amounts, and the
    totals of [byCategory], added up one after the other, give the sum of
    the amounts of the rows that carry a category. *)
Theorem summary_conserves_amounts (month : string) (p : Period)
  (rows : list Row) :
  safeAmounts rows ->
  Doubles.add (Doubles.inc (Doubles.summarize month p (map rowOfZ rows)))
    (Doubles.exp (Doubles.summarize month p (map rowOfZ rows)))
  = ofZ (sumAmounts rows)
  /\ Doubles.sumTotals
       (Doubles.byCategory (Doubles.summarize month p (map rowOfZ rows)))
     = ofZ (sumAmounts (filter hasCategory rows)).
Proof.
  intros Hsafe. destruct (safeAmounts_bound rows Hsafe) as [Hnn Hb].
  rewrite summarize_ofZ by assumption. unfold summaryOfZ.
  cbn [Doubles.inc Doubles.exp Doubles.byCategory].
  pose proof (sumAmounts_filter_split_abs isIncome rows) as Hsplit.
  pose proof (sumAmounts_abs rows) as Hall.
  pose proof (sumAmounts_split isIncome rows) as Hsum.
  pose proof (byCategory_sumAbs month p rows) as Hcat.
  split.
  - unfold Doubles.add. rewrite summarize_inc, summarize_exp.
    rewrite add_exact by lia. f_equal. lia.
  - rewrite sumTotals_ofZ by lia. now rewrite summarize_sumTotals.
Qed.

Lemma summary_conserves_amounts_witness :
  let p := {| from := "2024-02-01"; to := "2024-02-29" |} in
  let s := Doubles.summarize "2024-02" p (map rowOfZ Example.threeCategories) in
  Doubles.add (Doubles.inc s) (Doubles.exp s) = ofZ 90
  /\ Doubles.sumTotals (Doubles.byCategory s) = ofZ 90.
Proof.
  intros p s.
  apply (summary_conserves_amounts "2024-02" p Example.threeCategories).
  vm_compute. reflexivity.
Defined.

(** X17: for amounts that are integers whose absolute values add up to
    less than 2^52, the summary of two row sets put together is the sum of
    their summaries, in double arithmetic: [inc], [exp], [net] and the
    total of every category add up. *)
Theorem summary_additive (month : string) (p : Period)
  (rows1 rows2 : list Row) (c : Z) :
  safeAmounts (rows1 ++ rows2) ->
  Doubles.inc (Doubles.summarize month p (map rowOfZ (rows1 ++ rows2)))
  = Doubles.add (Doubles.inc (Doubles.summarize month p (map rowOfZ rows1)))
      (Doubles.inc (Doubles.summarize month p (map rowOfZ rows2)))
  /\ Doubles.exp (Doubles.summarize month p (map rowOfZ (rows1 ++ rows2)))
     = Doubles.add (Doubles.exp (Doubles.summarize month p (map rowOfZ rows1)))
         (Doubles.exp (Doubles.summarize month p (map rowOfZ rows2)))
  /\ Doubles.net (Doubles.summarize month p (map rowOfZ (rows1 ++ rows2)))
     = Doubles.add (Doubles.net (Doubles.summarize month p (map rowOfZ rows1)))
         (Doubles.net (Doubles.summarize month p (map rowOfZ rows2)))
  /\ Doubles.totalOf c
       (Doubles.byCategory
          (Doubles.summarize month p (map rowOfZ (rows1 ++ rows2))))
     = Doubles.add
         (Doubles.totalOf c
            (Doubles.byCategory (Doubles.summarize month p (map rowOfZ rows1))))
         (Doubles.totalOf c
            (Doubles.byCategory (Doubles.summarize month p (map rowOfZ rows2)))).
Proof.
  intros Hsafe. destruct (safeAmounts_bound _ Hsafe) as [_ Hb].
  rewrite sumAbs_app in Hb.
  pose proof (sumAbs_nonneg rows1) as Hn1.
  pose proof (sumAbs_nonneg rows2) as Hn2.
  assert (Hs1 : safeAmounts rows1) by (unfold safeAmounts; lia).
  assert (Hs2 : safeAmounts rows2) by (unfold safeAmounts; lia).
  rewrite !summarize_ofZ by assumption. unfold summaryOfZ.
  cbn [Doubles.inc Doubles.exp Doubles.net Doubles.byCategory].
  rewrite !totalOf_ofZ, !totalOf_byCategory.
  rewrite !summarize_net, !summarize_inc, !summarize_exp.
  rewrite !filter_app, !sumAmounts_app.
  pose proof (sumAmounts_filter_split_abs isIncome rows1) as A1.
  pose proof (sumAmounts_filter_split_abs isIncome rows2) as A2.
  pose proof (sumAmounts_filter_abs (inCategory c) rows1) as C1.
  pose proof (sumAmounts_filter_abs (inCategory c) rows2) as C2.
  unfold Doubles.add. rewrite !add_exact by lia.
  repeat split. f_equal. lia.
Qed.

Lemma summary_additive_witness :
  let p := {| from := "2024-02-01"; to := "2024-02-29" |} in
  let a := [Example.row "income" 8 (Some 1)] in
  let b := [Example.row "expense" 3 (Some 1)] in
  Doubles.totalOf 1
    (Doubles.byCategory (Doubles.summarize "2024-02" p (map rowOfZ (a ++ b))))
  = Doubles.add (ofZ 8) (ofZ 3)
  /\ Doubles.net (Doubles.summarize "2024-02" p (map rowOfZ (a ++ b)))
     = Doubles.add (ofZ 8) (ofZ (- 3)).
Proof.
  intros p a b.
  destruct (summary_additive "2024-02" p a b 1) as (_ & _ & Hnet & Htot).
  - vm_compute. reflexivity.
  - split; [exact Htot|exact Hnet].
Defined.

(** X18: when no amount is negative, as the rows are stored, and the
    amounts are integers that add up to less than 2^52, the doubles of the
    summary are ordered as follows: [inc], [exp] and every category total
    are not below 0, [net] lies between [-exp] and [inc], and no category
    total exceeds [inc + exp]. *)
Theorem summary_bounds (month : string) (p : Period) (rows : list Row) (c : Z) :
  Forall (fun r => 0 <= amount r) rows ->
  safeAmounts rows ->
  Doubles.leb Doubles.zero
    (Doubles.inc (Doubles.summarize month p (map rowOfZ rows))) = true
  /\ Doubles.leb Doubles.zero
       (Doubles.exp (Doubles.summarize month p (map rowOfZ rows))) = true
  /\ Doubles.leb
       (Doubles.opp (Doubles.exp (Doubles.summarize month p (map rowOfZ rows))))
       (Doubles.net (Doubles.summarize month p (map rowOfZ rows))) = true
  /\ Doubles.leb (Doubles.net (Doubles.summarize month p (map rowOfZ rows)))
       (Doubles.inc (Doubles.summarize month p (map rowOfZ rows))) = true
  /\ Doubles.leb Doubles.zero
       (Doubles.totalOf c
          (Doubles.byCategory (Doubles.summarize month p (map rowOfZ rows))))
     = true
  /\ Doubles.leb
       (Doubles.totalOf c
          (Doubles.byCategory (Doubles.summarize month p (map rowOfZ rows))))
       (Doubles.add
          (Doubles.inc (Doubles.summarize month p (map rowOfZ rows)))
          (Doubles.exp (Doubles.summarize month p (map rowOfZ rows))))
     = true.
Proof.
  intros Hpos Hsafe. destruct (safeAmounts_bound rows Hsafe) as [Hnn Hb].
  rewrite summarize_ofZ by assumption. unfold summaryOfZ.
  cbn [Doubles.inc Doubles.exp Doubles.net Doubles.byCategory].
  rewrite totalOf_ofZ, totalOf_byCategory.
  rewrite summarize_net, summarize_inc, summarize_exp.
  pose proof (sumAmounts_nonneg _ (Forall_filter _ isIncome _ Hpos)) as H1.
  pose proof (sumAmounts_nonneg _
                (Forall_filter _ (fun r => negb (isIncome r)) _ Hpos)) as H2.
  pose proof (sumAmounts_nonneg _ (Forall_filter _ (inCategory c) _ Hpos)) as H3.
  pose proof (sumAmounts_nonneg _
                (Forall_filter _ (fun r => negb (inCategory c r)) _ Hpos)) as H4.
  pose proof (sumAmounts_split isIncome rows) as S1.
  pose proof (sumAmounts_split (inCategory c) rows) as S2.
  pose proof (sumAmounts_filter_split_abs isIncome rows) as A1.
  pose proof (sumAmounts_filter_abs (inCategory c) rows) as A2.
  change Doubles.zero with (ofZ 0). unfold Doubles.add.
  rewrite add_exact by lia.
  rewrite leb_opp_ofZ by lia. rewrite !leb_ofZ by (simpl; lia).
  repeat split; apply Z.leb_le; lia.
Qed.

Lemma summary_bounds_witness :
  let p := {| from := "2024-02-01"; to := "2024-02-29" |} in
  let s := Doubles.summarize "2024-02" p (map rowOfZ Example.threeCategories) in
  Doubles.leb Doubles.zero (Doubles.inc s) = true
  /\ Doubles.leb Doubles.zero (Doubles.exp s) = true
  /\ Doubles.leb (Doubles.opp (Doubles.exp s)) (Doubles.net s) = true
  /\ Doubles.leb (Doubles.net s) (Doubles.inc s) = true
  /\ Doubles.leb Doubles.zero (Doubles.totalOf 2 (Doubles.byCategory s)) = true
  /\ Doubles.leb (Doubles.totalOf 2 (Doubles.byCategory s))
       (Doubles.add (Doubles.inc s) (Doubles.exp s)) = true.
Proof.
  intros p s.
  apply (summary_bounds "2024-02" p Example.threeCategories 2).
  - repeat constructor; simpl; lia.
  - vm_compute. reflexivity.
Defined.

(** X21: with amounts that are not integers the additions round, and the
    summary shows it.  For three expenses of 0.1, 0.2 and 0.3 of one
    category, [exp] is 0.6000000000000001 when the store returns them in
    that order and 0.6 when it returns them in the opposite order; and when
    the first of them is an income, the total of the category
    (0.6000000000000001) exceeds [inc + exp] (0.6). *)
Theorem summary_rounds_fractions :
  let p := {| from := "2024-02-01"; to := "2024-02-29" |} in
  let s := Doubles.summarize "2024-02" p (tenths "expense" "expense" "expense") in
  let s' :=
    Doubles.summarize "2024-02" p (rev (tenths "expense" "expense" "expense")) in
  let t := Doubles.summarize "2024-02" p (tenths "income" "expense" "expense") in
  Doubles.exp s = S754_finite false 5404319552844596 (- 53)
  /\ Doubles.exp s' = S754_finite false 5404319552844595 (- 53)
  /\ Doubles.exp s' = Doubles.ratio 6 10
  /\ Doubles.leb (Doubles.exp s) (Doubles.exp s') = false
  /\ Doubles.totalOf 1 (Doubles.byCategory t)
     = S754_finite false 5404319552844596 (- 53)
  /\ Doubles.add (Doubles.inc t) (Doubles.exp t) = Doubles.ratio 6 10
  /\ Doubles.leb (Doubles.totalOf 1 (Doubles.byCategory t))
       (Doubles.add (Doubles.inc t) (Doubles.exp t)) = false.
Proof. vm_compute. repeat split. Qed.
